(** * Security analytics pipeline: classifier, baselines, aggregation, alert routing

    A shallow embedding of the stream-processing core of the CAP demo
    (the security event processor, the metrics processor and the alert
    generator lambda) together with the properties its design document
    states about it.

    Modelling conventions.
    - Python [dict] payloads whose keys are fixed become records; a key that
      may be absent becomes an [option] field and the [.get(k, default)] of
      the source is written out where it is used.
    - [try/except Exception] blocks become explicit results: a function whose
      body may raise returns a sum, and the handler of the source is the
      [inl] branch of the caller.
    - Metric values are exact rationals ([Q]).  Rounding of binary64
      arithmetic, NaN and the infinities are outside the model; [math.sqrt]
      is a parameter of the baseline code.
    - Wall-clock reads ([datetime.now], [time.time]) are arguments. *)

From Stdlib Require Import ZArith QArith Qround Qabs String Ascii List Lia ZifyNat.
From Stdlib Require Import DecimalString Sorted Permutation Lqa.
From stdpp Require Import gmap strings list.
Import ListNotations.

Local Open Scope string_scope.
Local Set Warnings "-register-all".

(** ** Exceptions

    A Python computation that may raise is a value of [Exc.t A]: [inl msg]
    is a raised exception with [str(e) = msg], [inr a] a normal result. *)

Module Exc.
Definition t (A : Type) : Type := (string + A)%type.
Definition ret {A} (a : A) : t A := inr a.
Definition raise {A} (msg : string) : t A := inl msg.
Definition bind {A B} (m : t A) (k : A -> t B) : t B :=
  match m with
  | inl e => inl e
  | inr a => k a
  end.
(** [try: body  except Exception as e: handler(e)] *)
Definition try_except {A} (body : t A) (handler : string -> A) : A :=
  match body with
  | inl e => handler e
  | inr a => a
  end.
End Exc.

Notation "'do' x <- m ; k" := (Exc.bind m (fun x => k))
  (at level 10, x name, m at level 100, k at level 200).

(** ** Python built-ins used by the processors *)

Module Py.

(** [str.lower] on one character.  The texts it is applied to are the
    output of [json.dumps] with [ensure_ascii], hence pure ASCII. *)
Definition lower_ascii (c : ascii) : ascii :=
  let n := nat_of_ascii c in
  if (65 <=? n)%nat && (n <=? 90)%nat then ascii_of_nat (n + 32) else c.

Fixpoint lower (s : string) : string :=
  match s with
  | EmptyString => EmptyString
  | String c r => String (lower_ascii c) (lower r)
  end.

(** [p in s] for two [str]: [p] occurs in [s] as a contiguous substring. *)
Fixpoint contains (p s : string) : bool :=
  String.prefix p s ||
  match s with
  | EmptyString => false
  | String _ r => contains p r
  end.

(** [sep.join(parts)] *)
Fixpoint join (sep : string) (parts : list string) : string :=
  match parts with
  | [] => ""
  | [x] => x
  | x :: r => x ++ sep ++ join sep r
  end.

(** [str(n)] for an [int]. *)
Definition str_of_Z (z : Z) : string := NilZero.string_of_int (Z.to_int z).
Definition str_of_nat (n : nat) : string := str_of_Z (Z.of_nat n).

Definition dquote : ascii := ascii_of_nat 34.
Definition backslash : ascii := ascii_of_nat 92.

Definition hex_digit (n : nat) : ascii :=
  if (n <? 10)%nat then ascii_of_nat (48 + n) else ascii_of_nat (87 + n).

(** ['\\u{0:04x}'.format(n)] for a code point below 256. *)
Definition u_escape (n : nat) : string :=
  String backslash (String "u" (String "0" (String "0"
    (String (hex_digit (n / 16)) (String (hex_digit (n mod 16)) ""))))).

(** One character of [json.encoder.py_encode_basestring_ascii]: the
    quote, the backslash and everything outside [' '..'~'] is escaped.
    A character of the model is a code point below 256. *)
Definition escape_char (c : ascii) : string :=
  let n := nat_of_ascii c in
  if (n =? 34)%nat then String backslash (String dquote "")
  else if (n =? 92)%nat then String backslash (String backslash "")
  else if (n =? 10)%nat then String backslash "n"
  else if (n =? 13)%nat then String backslash "r"
  else if (n =? 9)%nat then String backslash "t"
  else if (n =? 8)%nat then String backslash "b"
  else if (n =? 12)%nat then String backslash "f"
  else if (32 <=? n)%nat && (n <=? 126)%nat then String c ""
  else u_escape n.

Fixpoint escape_body (s : string) : string :=
  match s with
  | EmptyString => EmptyString
  | String c r => escape_char c ++ escape_body r
  end.

Definition quote (s : string) : string :=
  String dquote (escape_body s ++ String dquote "").

(** A value handed to [json.dumps].  What the Kafka deserialiser
    ([json.loads]) produces is built from the first six constructors;
    [JOpaque ty] stands for an object of a type the encoder rejects
    ([bytes], [set], ...).  A number carries the literal the encoder
    prints for it ([int.__repr__] / [float.__repr__]). *)
Inductive json : Type :=
| JNull
| JBool (b : bool)
| JNum (literal : string)
| JStr (s : string)
| JArr (items : list json)
| JObj (members : list (string * json))
| JOpaque (type_name : string).

(** [json.dumps(v)] with the default separators [", "] and [": "].
    [inl msg] is the [TypeError] the encoder raises, with its message. *)
Fixpoint dumps (v : json) : Exc.t string :=
  match v with
  | JNull => Exc.ret "null"
  | JBool true => Exc.ret "true"
  | JBool false => Exc.ret "false"
  | JNum lit => Exc.ret lit
  | JStr s => Exc.ret (quote s)
  | JArr items =>
      do parts <-
        (fix each (l : list json) : Exc.t (list string) :=
           match l with
           | [] => Exc.ret []
           | x :: r =>
               do a <- dumps x; do b <- each r; Exc.ret (a :: b)
           end) items;
      Exc.ret ("[" ++ join ", " parts ++ "]")
  | JObj members =>
      do parts <-
        (fix each (l : list (string * json)) : Exc.t (list string) :=
           match l with
           | [] => Exc.ret []
           | (k, x) :: r =>
               do a <- dumps x; do b <- each r;
               Exc.ret ((quote k ++ ": " ++ a) :: b)
           end) members;
      Exc.ret ("{" ++ join ", " parts ++ "}")
  | JOpaque ty =>
      Exc.raise ("Object of type " ++ ty ++ " is not JSON serializable")
  end.

(** The values the encoder accepts: those without a [JOpaque] inside. *)
Fixpoint serializable (v : json) : bool :=
  match v with
  | JArr items => forallb serializable items
  | JObj members => forallb (fun kv => serializable (snd kv)) members
  | JOpaque _ => false
  | _ => true
  end.

End Py.

(** ** Security event processor (processors/security_processor/app.py) *)

Module SecurityProcessor.

(** [self.threat_patterns], in insertion order. *)
Definition threat_patterns : list (string * list string) :=
  [ ("failed_login",
      ["authentication failed"; "login failed"; "invalid credentials"]);
    ("malware",
      ["virus detected"; "trojan"; "malware"; "suspicious file"]);
    ("network_anomaly",
      ["port scan"; "ddos"; "unusual traffic"; "network intrusion"]);
    ("privilege_escalation",
      ["admin access"; "privilege escalation"; "unauthorized access"]);
    ("data_exfiltration",
      ["large download"; "data export"; "file transfer"; "sensitive data"]) ].

(** The result dict of [classify_threat]; [error] is present only in the
    dict built by the exception handler. *)
Record classification : Type := Classification {
  threats_detected : list string;
  severity : string;
  risk_score : Z;
  classification_timestamp : string;
  error : option string
}.

(** The inner [for pattern in patterns: if pattern in event_text: ...
    break]: does one of the patterns occur in the text? *)
Definition any_pattern (patterns : list string) (event_text : string) : bool :=
  existsb (fun pattern => Py.contains pattern event_text) patterns.

(** The outer loop over [self.threat_patterns.items()]. *)
Fixpoint detect_threats (table : list (string * list string))
         (event_text : string) : list string :=
  match table with
  | [] => []
  | (threat_type, patterns) :: rest =>
      if any_pattern patterns event_text
      then threat_type :: detect_threats rest event_text
      else detect_threats rest event_text
  end.

Definition classify_threat (now : string) (event_data : Py.json) : classification :=
  Exc.try_except
    (do dumped <- Py.dumps event_data;
     let event_text := Py.lower dumped in
     let detected_threats := detect_threats threat_patterns event_text in
     let severity :=
       if (1 <? length detected_threats)%nat then "high"
       else if (0 <? length detected_threats)%nat then "medium"
       else "low" in
     let risk_score := (Z.of_nat (length detected_threats) * 25)%Z in
     let risk_score := if (100 <? risk_score)%Z then 100%Z else risk_score in
     Exc.ret {| threats_detected := detected_threats;
                severity := severity;
                risk_score := risk_score;
                classification_timestamp := now;
                error := None |})
    (fun e =>
       {| threats_detected := [];
          severity := "unknown";
          risk_score := 0;
          classification_timestamp := now;
          error := Some e |}).

(** *** [enrich_event], [store_in_s3], [trigger_alert], [process_event] *)

(** One reading of the wall clock, in the forms the code uses it. *)
Record clock : Type := Clock {
  isoformat : string;
  partition_date : string;
  partition_hour : string;
  epoch_ms : Z;
  elapsed_ms : Z
}.

(** The enriched event; the constant entries of [processing_metadata]
    and [data_lake_metadata] are left out. *)
Record enriched_event : Type := EnrichedEvent {
  original_event : Py.json;
  threat_analysis : classification;
  processing_timestamp : string;
  processing_time_ms : Z;
  customer_id : Py.json;
  event_id : string;
  ee_partition_date : string;
  ee_partition_hour : string
}.

(** The payload [trigger_alert] hands to the alert lambda. *)
Record alert_payload : Type := AlertPayload {
  ap_severity : string;
  ap_risk_score : Z;
  ap_threats : list string;
  ap_customer_id : Py.json;
  ap_event_id : string;
  ap_timestamp : string
}.

(** The counters of a [SecurityEventProcessor], the objects it has put
    into the bucket and the lambda invocations it has made. *)
Record state : Type := State {
  processed_count : nat;
  alert_count : nat;
  s3_objects : list (string * enriched_event);
  invocations : list alert_payload
}.

Definition init : state :=
  {| processed_count := 0; alert_count := 0; s3_objects := []; invocations := [] |}.

(** [d.get(k, default)] on a decoded JSON object. *)
Fixpoint get (members : list (string * Py.json)) (k : string) (default : Py.json)
  : Py.json :=
  match members with
  | [] => default
  | (k', v) :: rest => if String.eqb k k' then v else get rest k default
  end.

(** [enrich_event] builds the enriched dict when [event_data] is a dict.
    For any other value [event_data.get] raises, the handler returns
    [event_data] itself, and the caller's first subscript on it raises
    in turn: that outcome is [inl]. *)
Definition enrich_event (clk : clock) (st : state) (event_data : Py.json)
           (cls : classification) : Exc.t enriched_event :=
  match event_data with
  | Py.JObj members =>
      Exc.ret {| original_event := event_data;
                 threat_analysis := cls;
                 processing_timestamp := isoformat clk;
                 processing_time_ms := 0;
                 customer_id := get members "customer_id" (Py.JStr "unknown");
                 event_id :=
                   "sec_" ++ Py.str_of_Z (epoch_ms clk) ++ "_"
                   ++ Py.str_of_nat (processed_count st);
                 ee_partition_date := partition_date clk;
                 ee_partition_hour := partition_hour clk |}
  | _ => Exc.raise "enriched event is not a dict"
  end.

(** [store_in_s3]: the key of the stored object, or [None] when
    serialising the event or [put_object] raised ([put_ok = false]). *)
Definition store_in_s3 (put_ok : bool) (st : state) (ev : enriched_event)
  : state * option string :=
  let s3_key :=
    "security-events/date=" ++ ee_partition_date ev
    ++ "/hour=" ++ ee_partition_hour ev ++ "/" ++ event_id ev ++ ".json" in
  match Py.dumps (original_event ev) with
  | inr _ =>
      if put_ok then
        ({| processed_count := processed_count st;
            alert_count := alert_count st;
            s3_objects := (s3_objects st ++ [(s3_key, ev)])%list;
            invocations := invocations st |}, Some s3_key)
      else (st, None)
  | inl _ => (st, None)
  end.

(** [trigger_alert]; [invoke_ok] tells whether [lambda_client.invoke]
    returns.  Serialising the payload raises when the customer id is not
    serialisable; either exception is caught and logged. *)
Definition trigger_alert (invoke_ok : bool) (st : state) (ev : enriched_event)
  : state :=
  let severity := severity (threat_analysis ev) in
  let risk_score := risk_score (threat_analysis ev) in
  if String.eqb severity "medium" || String.eqb severity "high"
     || (50 <? risk_score)%Z
  then
    match Py.dumps (customer_id ev) with
    | inr _ =>
        if invoke_ok then
          {| processed_count := processed_count st;
             alert_count := S (alert_count st);
             s3_objects := s3_objects st;
             invocations :=
               (invocations st ++
                [{| ap_severity := severity;
                    ap_risk_score := risk_score;
                    ap_threats := threats_detected (threat_analysis ev);
                    ap_customer_id := customer_id ev;
                    ap_event_id := event_id ev;
                    ap_timestamp := processing_timestamp ev |}])%list |}
        else st
    | inl _ => st
    end
  else st.

(** One message: classification, enrichment, the store write, the alert.
    The key [store_in_s3] returns is not looked at: processing goes on
    the same way after a failed write. *)
Definition process_event (clk : clock) (put_ok invoke_ok : bool) (st : state)
           (event_data : Py.json) : state :=
  let classification := classify_threat (isoformat clk) event_data in
  match enrich_event clk st event_data classification with
  | inl _ => st
  | inr enriched =>
      let enriched :=
        {| original_event := original_event enriched;
           threat_analysis := threat_analysis enriched;
           processing_timestamp := processing_timestamp enriched;
           processing_time_ms := elapsed_ms clk;
           customer_id := customer_id enriched;
           event_id := event_id enriched;
           ee_partition_date := ee_partition_date enriched;
           ee_partition_hour := ee_partition_hour enriched |} in
      let '(st, s3_key) := store_in_s3 put_ok st enriched in
      let st :=
        if String.eqb (severity classification) "medium"
           || String.eqb (severity classification) "high"
        then trigger_alert invoke_ok st enriched
        else st in
      {| processed_count := S (processed_count st);
         alert_count := alert_count st;
         s3_objects := s3_objects st;
         invocations := invocations st |}
  end.

(** *** The consumer and the main loop *)

(** The arguments [setup_consumer] passes to [KafkaConsumer] that govern
    offsets. *)
Record consumer_config : Type := ConsumerConfig {
  auto_offset_reset : string;
  enable_auto_commit : bool;
  auto_commit_interval_ms : Z;
  consumer_timeout_ms : Z
}.

Definition setup_consumer : consumer_config :=
  {| auto_offset_reset := "latest";
     enable_auto_commit := true;
     auto_commit_interval_ms := 1000;
     consumer_timeout_ms := 10000 |}.

(** The consumer's view of one partition: [position] is the offset of
    the next record it will hand out, [committed] the offset it has
    acknowledged to the broker (every record below it is acknowledged).
    A restart resumes from [committed].  The Kafka client is a library
    outside the repository; what is modelled of it is what the arguments
    of [setup_consumer] ask for. *)
Record consumer : Type := Consumer {
  position : nat;
  committed : nat
}.

(** What happens while [run] iterates over the consumer: the consumer
    hands out the next record, whose processing meets the given outcomes
    of [put_object] and [invoke]; or the auto-commit timer of the client
    fires. *)
Inductive step : Type :=
| Deliver (clk : clock) (value : Py.json) (put_ok invoke_ok : bool)
| AutoCommitTimer.

(** [if message.value:] *)
Definition truthy (v : Py.json) : bool :=
  match v with
  | Py.JNull | Py.JBool false | Py.JStr "" | Py.JArr [] | Py.JObj [] => false
  | Py.JNum lit =>
      negb (String.eqb lit "0" || String.eqb lit "0.0" || String.eqb lit "-0.0")
  | _ => true
  end.

(** The client commits the position on its timer iff auto-commit is
    enabled; [run] itself never calls [commit]. *)
Definition run_step (cfg : consumer_config) (s : state * consumer) (x : step)
  : state * consumer :=
  let '(st, c) := s in
  match x with
  | Deliver clk value put_ok invoke_ok =>
      let c := {| position := S (position c); committed := committed c |} in
      if truthy value
      then (process_event clk put_ok invoke_ok st value, c)
      else (st, c)
  | AutoCommitTimer =>
      if enable_auto_commit cfg
      then (st, {| position := position c; committed := position c |})
      else (st, c)
  end.

Definition run (schedule : list step) : state * consumer :=
  fold_left (run_step setup_consumer) schedule (init, Consumer 0 0).

End SecurityProcessor.

(** ** Alert generator lambda (lambda/alert_generator/lambda_function.py) *)

Module AlertGenerator.

(** The alert event handed to the lambda; a [None] field is an absent
    key. *)
Record alert_event : Type := AlertEvent {
  severity : option string;
  risk_score : option Z;
  threats : option (list string);
  customer_id : option string;
  event_id : option string
}.

(** A call to one of the notification helpers.  The message text, which
    is the same for every call of one alert, is left out. *)
Inductive channel_call : Type :=
| send_sns_notification (priority : string)
| send_email_notification (customer_id : string) (alert_type : string)
| create_incident_ticket.

(** The stored alert record and the returned response. *)
Record alert_record : Type := AlertRecord {
  alert_id : string;
  ar_customer_id : string;
  ar_severity : string;
  ar_risk_score : Z;
  ar_threats_detected : list string;
  ar_event_id : string;
  ar_timestamp : string;
  actions_taken : list string
}.

(** [sink call] is the string the helper returns: the confirmation, or
    the error text when its client raised (each helper catches its own
    exception). *)
Definition process_security_alert (now_iso : string) (epoch_s : Z)
           (sink : channel_call -> string) (event : alert_event)
  : list channel_call * alert_record :=
  let severity := default "low" (severity event) in
  let risk_score := default 0%Z (risk_score event) in
  let threats := default [] (threats event) in
  let customer_id := default "unknown" (customer_id event) in
  let event_id := default "unknown" (event_id event) in
  let calls :=
    if String.eqb severity "critical" || (80 <? risk_score)%Z then
      [send_sns_notification "CRITICAL";
       send_email_notification customer_id "CRITICAL";
       create_incident_ticket]
    else if String.eqb severity "high" || (60 <? risk_score)%Z then
      [send_sns_notification "HIGH";
       send_email_notification customer_id "HIGH"]
    else
      [send_sns_notification "MEDIUM"] in
  (calls,
   {| alert_id := "sec_" ++ Py.str_of_Z epoch_s;
      ar_customer_id := customer_id;
      ar_severity := severity;
      ar_risk_score := risk_score;
      ar_threats_detected := threats;
      ar_event_id := event_id;
      ar_timestamp := now_iso;
      actions_taken := map sink calls |}).

End AlertGenerator.

(** ** Metrics processor (processors/metrics_processor/app.py) *)

Module MetricsProcessor.

Local Open Scope Q_scope.

Definition Qltb (x y : Q) : bool := negb (Qle_bool y x).

(** The ['value'] of a metric message after [json.loads]: [null], a
    number, or something [float()] rejects (a non-numeric [str], a list,
    a dict), carried with the message of the exception it causes. *)
Inductive pyvalue : Type :=
| VNone
| VNum (q : Q)
| VBad (msg : string).

(** [float(v)].  Numbers are kept in lowest terms, so that equal numbers
    are equal terms. *)
Definition float (v : pyvalue) : Exc.t Q :=
  match v with
  | VNum q => Exc.ret (Qred q)
  | VNone =>
      Exc.raise "float() argument must be a string or a real number, not 'NoneType'"
  | VBad msg => Exc.raise msg
  end.

(** A metric message.  A [None] field is a key that is absent from the
    dict; the remaining keys of the message are not read by the code
    modelled here. *)
Record metric : Type := Metric {
  customer_id : option string;
  metric_type : option string;
  value : option pyvalue
}.

(** [m.get('value')]: [None] for an absent key as for a [null]. *)
Definition get_value (m : metric) : pyvalue :=
  match value m with
  | Some v => v
  | None => VNone
  end.

(** [m.get('value', 0)] *)
Definition get_value_or_0 (m : metric) : pyvalue :=
  match value m with
  | Some v => v
  | None => VNum 0
  end.

(** *** The [statistics] module and the built-ins on lists of numbers *)

(** [sum(values)] *)
Definition sum (values : list Q) : Q :=
  Qred (fold_left Qplus values 0).

(** [min(values)]: the first smallest element; [ValueError] on []. *)
Definition py_min (values : list Q) : Exc.t Q :=
  match values with
  | [] => Exc.raise "min() arg is an empty sequence"
  | x :: r => Exc.ret (fold_left (fun cur item => if Qltb item cur then item else cur) r x)
  end.

(** [max(values)]: the first largest element; [ValueError] on []. *)
Definition py_max (values : list Q) : Exc.t Q :=
  match values with
  | [] => Exc.raise "max() arg is an empty sequence"
  | x :: r => Exc.ret (fold_left (fun cur item => if Qltb cur item then item else cur) r x)
  end.

(** [sorted(values)]: a stable sort, here by insertion from the right. *)
Fixpoint insert_sorted (x : Q) (l : list Q) : list Q :=
  match l with
  | [] => [x]
  | y :: r => if Qle_bool x y then x :: y :: r else y :: insert_sorted x r
  end.

Definition sorted (values : list Q) : list Q :=
  fold_right insert_sorted [] values.

(** [data[i]], raising [IndexError] out of range. *)
Definition index (data : list Q) (i : nat) : Exc.t Q :=
  match data !! i with
  | Some x => Exc.ret x
  | None => Exc.raise "list index out of range"
  end.

(** [statistics.mean] *)
Definition mean (values : list Q) : Exc.t Q :=
  match values with
  | [] => Exc.raise "mean requires at least one data point"
  | _ => Exc.ret (Qred (fold_left Qplus values 0 / inject_Z (Z.of_nat (length values))))
  end.

(** [statistics.median]:
    [data = sorted(data); n = len(data)];
    [data[n // 2]] for odd [n], [(data[i - 1] + data[i]) / 2] with
    [i = n // 2] for even [n]. *)
Definition median (values : list Q) : Exc.t Q :=
  let data := sorted values in
  let n := length data in
  if (n =? 0)%nat then Exc.raise "no median for empty data"
  else if (n mod 2 =? 1)%nat then index data (n / 2)
  else
    let i := (n / 2)%nat in
    do a <- index data (i - 1); do b <- index data i;
    Exc.ret (Qred ((a + b) / 2)).

(** [int(n * q)] for a list length [n] and a quantile [q]: truncation of
    a non-negative product. *)
Definition int_mul (n : nat) (q : Q) : nat :=
  Z.to_nat (Qfloor (inject_Z (Z.of_nat n) * q)).

(** [round(x, ndigits)]: to the nearest multiple of [10^-ndigits], a tie
    going to the even neighbour. *)
Definition round_half_even (x : Q) : Z :=
  let f := Qfloor x in
  let r := x - inject_Z f in
  if Qltb r (1 # 2) then f
  else if Qltb (1 # 2) r then (f + 1)%Z
  else if Z.even f then f else (f + 1)%Z.

Definition round (x : Q) (ndigits : nat) : Q :=
  let scale := inject_Z (10 ^ Z.of_nat ndigits) in
  Qred (inject_Z (round_half_even (x * scale)) / scale).

Section WithSqrt.

(** [math.sqrt], on which [statistics.stdev] rests. *)
Variable sqrt : Q -> Q.

(** [statistics.stdev]: the square root of the sample variance
    [sum((x - mean)^2) / (n - 1)]; [StatisticsError] below two points. *)
Definition stdev (values : list Q) : Exc.t Q :=
  if (length values <? 2)%nat
  then Exc.raise "variance requires at least two data points"
  else
    do m <- mean values;
    let ss := fold_left Qplus (map (fun x => (x - m) * (x - m)) values) 0 in
    Exc.ret (sqrt (Qred (ss / inject_Z (Z.of_nat (length values - 1))))).

(** *** [calculate_aggregations] *)

(** The four keys added by [aggregations.update({...})]. *)
Record percentiles : Type := Percentiles {
  p50 : Q;
  p90 : Q;
  p95 : Q;
  p99 : Q
}.

(** The dict [calculate_aggregations] returns when it is not [{}].
    [agg_percentiles] and [agg_stddev] are [None] when their keys were
    not added. *)
Record aggregations : Type := Aggregations {
  agg_count : nat;
  agg_sum : Q;
  agg_avg : Q;
  agg_min : Q;
  agg_max : Q;
  agg_median : Q;
  agg_percentiles : option percentiles;
  agg_stddev : option Q
}.

(** [[float(m.get('value', 0)) for m in metrics_data
      if m.get('value') is not None]] *)
Fixpoint collect_values (metrics_data : list metric) : Exc.t (list Q) :=
  match metrics_data with
  | [] => Exc.ret []
  | m :: rest =>
      match get_value m with
      | VNone => collect_values rest
      | _ =>
          do x <- float (get_value_or_0 m);
          do xs <- collect_values rest;
          Exc.ret (x :: xs)
      end
  end.

(** [None] is the empty dict [{}]. *)
Definition calculate_aggregations (metrics_data : list metric)
  : option aggregations :=
  Exc.try_except
    (match metrics_data with
     | [] => Exc.ret None
     | _ =>
         do values <- collect_values metrics_data;
         match values with
         | [] => Exc.ret None
         | _ =>
             do avg <- mean values;
             do mn <- py_min values;
             do mx <- py_max values;
             do med <- median values;
             do pcts <-
               (if (10 <=? length values)%nat then
                  let sorted_values := sorted values in
                  do q50 <- median sorted_values;
                  do q90 <- index sorted_values (int_mul (length sorted_values) (9 # 10));
                  do q95 <- index sorted_values (int_mul (length sorted_values) (95 # 100));
                  do q99 <- index sorted_values (int_mul (length sorted_values) (99 # 100));
                  Exc.ret (Some (Percentiles q50 q90 q95 q99))
                else Exc.ret None);
             do sd <-
               (if (1 <? length values)%nat then
                  do s <- stdev values; Exc.ret (Some s)
                else Exc.ret None);
             Exc.ret (Some {| agg_count := length values;
                              agg_sum := sum values;
                              agg_avg := avg;
                              agg_min := mn;
                              agg_max := mx;
                              agg_median := med;
                              agg_percentiles := pcts;
                              agg_stddev := sd |})
         end
     end)
    (fun _ => None).

(** *** Processor state *)

(** An entry of [self.baseline_metrics]. *)
Record baseline : Type := Baseline {
  b_avg : Q;
  b_stddev : Q;
  b_min : Q;
  b_max : Q;
  b_last_updated : string;
  b_sample_count : nat
}.

(** An entry of a history list in [self.customer_metrics]. *)
Record history_entry : Type := HistoryEntry {
  h_value : Q;
  h_timestamp : string
}.

(** [collections.deque(maxlen=n)]: appending to a full deque drops
    elements from the left. *)
Record deque (A : Type) : Type := Deque {
  maxlen : nat;
  items : list A
}.
Arguments Deque {A} _ _.
Arguments maxlen {A} _.
Arguments items {A} _.

Definition deque_append {A} (d : deque A) (x : A) : deque A :=
  let l := (items d ++ [x])%list in
  Deque (maxlen d) (drop (length l - maxlen d) l).

(** The dict [detect_anomalies] returns.  It has three shapes; the keys
    a shape does not carry are [None]. *)
Record anomaly_analysis : Type := AnomalyAnalysis {
  is_anomaly : bool;
  severity : string;
  z_score : option Q;
  baseline_avg : option Q;
  baseline_stddev : option Q;
  current_value : option Q;
  deviation_percent : option Q;
  baseline_available : option bool;
  error : option string
}.

(** One reading of the wall clock, in the forms the code uses it. *)
Record clock : Type := Clock {
  isoformat : string;
  partition_date : string;
  partition_hour : string;
  epoch_ms : Z;
  elapsed_ms : Q
}.

(** The enriched metric written to the bronze layer. *)
Record enriched_metric : Type := EnrichedMetric {
  original_metric : metric;
  em_anomaly_analysis : anomaly_analysis;
  em_processing_timestamp : string;
  em_processing_time_ms : Q;
  em_customer_id : string;
  em_metric_type : string;
  em_metric_id : string;
  em_partition_date : string;
  em_partition_hour : string
}.

(** The mutable attributes of a [MetricsProcessor], and the objects it
    has put into the bronze bucket. *)
Record state : Type := State {
  metrics_windows : list (string * deque (metric * string));
  customer_metrics : gmap string (gmap string (list history_entry));
  baseline_metrics : gmap string baseline;
  processed_count : nat;
  s3_bronze : list (string * enriched_metric)
}.

(** The state [__init__] builds. *)
Definition init : state :=
  {| metrics_windows :=
       [("1min", Deque 60 []); ("5min", Deque 300 []); ("15min", Deque 900 [])];
     customer_metrics := ∅;
     baseline_metrics := ∅;
     processed_count := 0;
     s3_bronze := [] |}.

(** [f"{customer_id}_{metric_type}"] *)
Definition baseline_key (customer_id metric_type : string) : string :=
  (customer_id ++ "_" ++ metric_type)%string.

(** *** [detect_anomalies] *)

Definition detect_anomalies (st : state) (current_metric : metric)
           (customer_id metric_type : string) : anomaly_analysis :=
  Exc.try_except
    (do current_value <- float (get_value_or_0 current_metric);
     match baseline_metrics st !! baseline_key customer_id metric_type with
     | None =>
         Exc.ret {| is_anomaly := false;
                    severity := "normal";
                    z_score := None;
                    baseline_avg := None;
                    baseline_stddev := None;
                    current_value := None;
                    deviation_percent := None;
                    baseline_available := Some false;
                    error := None |}
     | Some baseline =>
         let baseline_avg := b_avg baseline in
         let baseline_stddev := b_stddev baseline in
         let z_score :=
           if Qltb 0 baseline_stddev
           then Qabs (current_value - baseline_avg) / baseline_stddev
           else 0 in
         let verdict :=
           if Qltb 3 z_score then ("critical", true)
           else if Qltb 2 z_score then ("high", true)
           else if Qltb (15 # 10) z_score then ("medium", true)
           else ("normal", false) in
         Exc.ret {| is_anomaly := snd verdict;
                    severity := fst verdict;
                    z_score := Some (round z_score 3);
                    baseline_avg := Some baseline_avg;
                    baseline_stddev := Some baseline_stddev;
                    current_value := Some current_value;
                    deviation_percent :=
                      Some (if Qltb 0 baseline_avg
                            then round (Qabs (current_value - baseline_avg)
                                        / baseline_avg * 100) 2
                            else 0);
                    baseline_available := Some true;
                    error := None |}
     end)
    (fun e =>
       {| is_anomaly := false;
          severity := "unknown";
          z_score := None;
          baseline_avg := None;
          baseline_stddev := None;
          current_value := None;
          deviation_percent := None;
          baseline_available := None;
          error := Some e |}).

(** *** [update_baseline] *)

(** [self.customer_metrics[customer_id][metric_type] = history]; the
    entry of the customer is created when it is missing. *)
Definition set_history (st : state) (customer_id metric_type : string)
           (history : list history_entry) : state :=
  let per_customer := default ∅ (customer_metrics st !! customer_id) in
  {| metrics_windows := metrics_windows st;
     customer_metrics :=
       <[customer_id := <[metric_type := history]> per_customer]>
         (customer_metrics st);
     baseline_metrics := baseline_metrics st;
     processed_count := processed_count st;
     s3_bronze := s3_bronze st |}.

(** [self.customer_metrics[customer_id][metric_type]]: a lookup in the
    two nested [defaultdict]s, which creates the entries it misses. *)
Definition get_history (st : state) (customer_id metric_type : string)
  : list history_entry :=
  default [] (default ∅ (customer_metrics st !! customer_id) !! metric_type).

(** [self.baseline_metrics[key] = b] *)
Definition set_baseline (st : state) (key : string) (b : baseline) : state :=
  {| metrics_windows := metrics_windows st;
     customer_metrics := customer_metrics st;
     baseline_metrics := <[key := b]> (baseline_metrics st);
     processed_count := processed_count st;
     s3_bronze := s3_bronze st |}.

(** The history of the pair is kept under
    [customer_metrics[customer_id][metric_type]], the baseline under the
    flat [baseline_key].  An exception anywhere in the body is caught and
    logged, and leaves in place what had been written before it. *)
Definition update_baseline (now : string) (st : state)
           (customer_id metric_type : string) (metric_value : pyvalue) : state :=
  let key := baseline_key customer_id metric_type in
  let history := get_history st customer_id metric_type in
  (* the subscript is evaluated, and creates its entries, before [float]
     is called on the value to append *)
  let st := set_history st customer_id metric_type history in
  match float metric_value with
  | inl _ => st
  | inr v =>
      let history := (history ++ [HistoryEntry v now])%list in
      let st := set_history st customer_id metric_type history in
      (* keep only the last 1000 values *)
      let history :=
        if (1000 <? length history)%nat
        then drop (length history - 1000) history
        else history in
      let st := set_history st customer_id metric_type history in
      (* recalculate the baseline once there is enough data *)
      if (50 <=? length history)%nat then
        let values := map h_value history in
        Exc.try_except
          (do avg <- mean values;
           do sd <- (if (1 <? length values)%nat then stdev values else Exc.ret 0);
           do mn <- py_min values;
           do mx <- py_max values;
           Exc.ret (set_baseline st key
                      {| b_avg := avg;
                         b_stddev := sd;
                         b_min := mn;
                         b_max := mx;
                         b_last_updated := now;
                         b_sample_count := length values |}))
          (fun _ => st)
      else st
  end.

(** *** [process_metric] and [store_in_s3_bronze] *)

(** [put_ok] tells whether [put_object] succeeds; a failure is caught and
    logged inside [store_in_s3_bronze]. *)
Definition store_in_s3_bronze (put_ok : bool) (st : state)
           (enriched : enriched_metric) : state :=
  let s3_key :=
    ("application-metrics/date=" ++ em_partition_date enriched
     ++ "/hour=" ++ em_partition_hour enriched
     ++ "/customer=" ++ em_customer_id enriched
     ++ "/" ++ em_metric_id enriched ++ ".json")%string in
  if put_ok then
    {| metrics_windows := metrics_windows st;
       customer_metrics := customer_metrics st;
       baseline_metrics := baseline_metrics st;
       processed_count := processed_count st;
       s3_bronze := (s3_bronze st ++ [(s3_key, enriched)])%list |}
  else st.

(** One message: the rolling windows, then [detect_anomalies], then
    [update_baseline], then the write to the bronze bucket. *)
Definition process_metric (clk : clock) (put_ok : bool) (st : state)
           (metric_data : metric) : state :=
  let customer_id := default "unknown" (customer_id metric_data) in
  let metric_type := default "unknown" (metric_type metric_data) in
  let metric_value := get_value_or_0 metric_data in
  let windowed_metric := (metric_data, isoformat clk) in
  let st :=
    {| metrics_windows :=
         map (fun w => (fst w, deque_append (snd w) windowed_metric))
             (metrics_windows st);
       customer_metrics := customer_metrics st;
       baseline_metrics := baseline_metrics st;
       processed_count := processed_count st;
       s3_bronze := s3_bronze st |} in
  let anomaly_analysis := detect_anomalies st metric_data customer_id metric_type in
  let st := update_baseline (isoformat clk) st customer_id metric_type metric_value in
  let enriched :=
    {| original_metric := metric_data;
       em_anomaly_analysis := anomaly_analysis;
       em_processing_timestamp := isoformat clk;
       em_processing_time_ms := elapsed_ms clk;
       em_customer_id := customer_id;
       em_metric_type := metric_type;
       em_metric_id :=
         ("metric_" ++ Py.str_of_Z (epoch_ms clk) ++ "_"
          ++ Py.str_of_nat (processed_count st))%string;
       em_partition_date := partition_date clk;
       em_partition_hour := partition_hour clk |} in
  let st := store_in_s3_bronze put_ok st enriched in
  {| metrics_windows := metrics_windows st;
     customer_metrics := customer_metrics st;
     baseline_metrics := baseline_metrics st;
     processed_count := S (processed_count st);
     s3_bronze := s3_bronze st |}.

End WithSqrt.

End MetricsProcessor.

(** * Vocabulary of the properties *)

Module Documented.

Import SecurityProcessor.




End Documented.

Section JsonInduction.

(** Induction on decoded values that reaches inside arrays and objects. *)
Fixpoint json_nested_ind (P : Py.json -> Prop)
         (HNull : P Py.JNull)
         (HBool : forall b, P (Py.JBool b))
         (HNum : forall lit, P (Py.JNum lit))
         (HStr : forall s, P (Py.JStr s))
         (HArr : forall items, Forall P items -> P (Py.JArr items))
         (HObj : forall members,
             Forall (fun kv => P (snd kv)) members -> P (Py.JObj members))
         (HOpaque : forall ty, P (Py.JOpaque ty))
         (v : Py.json) {struct v} : P v :=
  let rec := json_nested_ind P HNull HBool HNum HStr HArr HObj HOpaque in
  match v with
  | Py.JNull => HNull
  | Py.JBool b => HBool b
  | Py.JNum lit => HNum lit
  | Py.JStr s => HStr s
  | Py.JArr items =>
      HArr items
        ((fix all (l : list Py.json) : Forall P l :=
            match l with
            | [] => @List.Forall_nil _ P
            | x :: r => @List.Forall_cons _ P x r (rec x) (all r)
            end) items)
  | Py.JObj members =>
      HObj members
        ((fix all (l : list (string * Py.json)) : Forall (fun kv => P (snd kv)) l :=
            match l with
            | [] => @List.Forall_nil _ _
            | kv :: r => @List.Forall_cons _ _ kv r (rec (snd kv)) (all r)
            end) members)
  | Py.JOpaque ty => HOpaque ty
  end.

(** [dumps] raises exactly on the values that are not serialisable. *)
Definition dumps_agrees (v : Py.json) : Prop :=
  if Py.serializable v
  then exists text, Py.dumps v = inr text
  else exists e, Py.dumps v = inl e.

End JsonInduction.

(** An event whose text mentions malware and a port scan. *)
Definition malware_and_port_scan : Py.json :=
  Py.JObj [("description", Py.JStr "Malware detected after port scan")].


(** The processor's clock at some instant. *)
Definition security_noon : SecurityProcessor.clock :=
  {| SecurityProcessor.isoformat := "2025-01-01T12:00:00+00:00";
     SecurityProcessor.partition_date := "2025/01/01";
     SecurityProcessor.partition_hour := "12";
     SecurityProcessor.epoch_ms := 1735732800000;
     SecurityProcessor.elapsed_ms := 1 |}.

Module Schedule.

Import SecurityProcessor.

Definition is_delivery (x : step) : bool :=
  match x with
  | Deliver _ _ _ _ => true
  | AutoCommitTimer => false
  end.

(** The number of records handed out during a schedule. *)
Definition deliveries (schedule : list step) : nat :=
  length (List.filter is_delivery schedule).

(** The same step with another outcome of the store write. *)
Definition with_store_outcome (put_ok : bool) (x : step) : step :=
  match x with
  | Deliver clk value _ invoke_ok => Deliver clk value put_ok invoke_ok
  | AutoCommitTimer => AutoCommitTimer
  end.

(** What a step does to the consumer, the processor left aside. *)
Definition consumer_step (c : consumer) (x : step) : consumer :=
  match x with
  | Deliver _ _ _ _ => {| position := S (position c); committed := committed c |}
  | AutoCommitTimer => {| position := position c; committed := position c |}
  end.

End Schedule.

Module Routing.

Import AlertGenerator.

(** The channels of the design document. *)
Inductive channel : Type := urgent | ticket | standard.

(** The routing table in the words of the design document; a severity
    the table does not list is routed like ['medium'] and ['low']. *)
Definition table (severity : string) : list channel :=
  if String.eqb severity "critical" then [urgent; ticket]
  else if String.eqb severity "high" then [urgent]
  else [standard].

(** The documented channel a helper call belongs to: the SNS topic at
    priority MEDIUM is the standard channel, SNS at a higher priority
    and e-mail are the urgent channel. *)
Definition channel_of (call : channel_call) : channel :=
  match call with
  | send_sns_notification priority =>
      if String.eqb priority "MEDIUM" then standard else urgent
  | send_email_notification _ _ => urgent
  | create_incident_ticket => ticket
  end.

(** The severity whose table row the code follows. *)
Definition effective_severity (severity : string) (risk_score : Z) : string :=
  if String.eqb severity "critical" || (80 <? risk_score)%Z then "critical"
  else if String.eqb severity "high" || (60 <? risk_score)%Z then "high"
  else "low".

(** Helpers that answer with a confirmation. *)
Definition confirming_sink (call : channel_call) : string :=
  match call with
  | send_sns_notification _ => "SNS notification sent: 5f3c"
  | send_email_notification _ _ => "Email sent: 77ab"
  | create_incident_ticket => "Incident ticket created (placeholder)"
  end.

(** The alert the security processor raises for an event that matched
    four categories: severity ['high'], risk score 100. *)
Definition high_with_full_risk : alert_event :=
  {| severity := Some "high";
     risk_score := Some 100%Z;
     threats := Some ["failed_login"; "malware"; "network_anomaly";
                      "privilege_escalation"];
     customer_id := Some "acme";
     event_id := Some "sec_1735732800000_7" |}.

End Routing.

Module Samples.

Import MetricsProcessor.

(** A square root for the closed examples: the root of [n/d] rounded
    down to a multiple of [1/(10^6 d)].  It is exact on 0. *)
Definition sqrt_6 (q : Q) : Q :=
  Qred (Z.sqrt (Qnum q * Z.pos (Qden q) * 10 ^ 12) # (Qden q * 10 ^ 6)).

(** A latency sample of customer acme. *)
Definition latency (q : Q) : metric :=
  {| customer_id := Some "acme";
     metric_type := Some "latency_ms";
     value := Some (VNum q) |}.

(** A message whose value is [null]. *)
Definition null_sample : metric :=
  {| customer_id := Some "acme";
     metric_type := Some "latency_ms";
     value := Some VNone |}.

(** [m.get('value') is not None] *)
Definition has_value (m : metric) : bool :=
  match get_value m with
  | VNone => false
  | _ => true
  end.


End Samples.

Module Percentile.


End Percentile.

Module Updates.

Import MetricsProcessor.

(** One call [update_baseline(customer_id, metric_type, value)] with a
    numeric value, and the clock reading it sees. *)
Record update_call : Type := UpdateCall {
  u_now : string;
  u_customer : string;
  u_type : string;
  u_value : Q
}.

Definition apply_update (sqrt : Q -> Q) (st : state) (u : update_call) : state :=
  update_baseline sqrt (u_now u) st (u_customer u) (u_type u) (VNum (u_value u)).

(** A sequence of calls, in arrival order. *)
Definition apply_updates (sqrt : Q -> Q) (st : state) (calls : list update_call)
  : state :=
  fold_left (apply_update sqrt) calls st.

Definition is_for (customer_id metric_type : string) (u : update_call) : bool :=
  String.eqb (u_customer u) customer_id && String.eqb (u_type u) metric_type.

(** The number of calls made for a (tenant, signal type) pair. *)
Definition updates_for (customer_id metric_type : string)
           (calls : list update_call) : nat :=
  length (List.filter (is_for customer_id metric_type) calls).

(** No call for another pair is filed under the baseline key of this
    pair. *)
Definition key_unshared (customer_id metric_type : string)
           (calls : list update_call) : Prop :=
  Forall (fun u =>
            is_for customer_id metric_type u = false ->
            baseline_key (u_customer u) (u_type u)
              <> baseline_key customer_id metric_type) calls.

(** The history kept after one more value: the last 1000 entries. *)
Definition appended (history : list history_entry) (v : Q) (now : string)
  : list history_entry :=
  let history := (history ++ [HistoryEntry (Qred v) now])%list in
  if (1000 <? length history)%nat
  then drop (length history - 1000) history
  else history.

(** The state of one pair after a run of calls: its history holds the
    last 1000 of its values, and its baseline exists from the 50th value
    on and counts the history. *)
Definition tracks (st : state) (c m : string) (n : nat) : Prop :=
  length (get_history st c m) = Nat.min n 1000 /\
  match baseline_metrics st !! baseline_key c m with
  | None => (n < 50)%nat
  | Some b => (50 <= n)%nat /\ b_sample_count b = Nat.min n 1000
  end.

(** [n] calls for one pair with the same value. *)
Definition steady (customer_id metric_type : string) (v : Q) (n : nat)
  : list update_call :=
  List.repeat (UpdateCall "2025-01-01T12:00:00+00:00" customer_id metric_type v) n.

(** A state whose only baseline is the given one. *)
Definition with_baseline (customer_id metric_type : string) (b : baseline) : state :=
  set_baseline init (baseline_key customer_id metric_type) b.

(** The main loop on a sequence of metric messages whose store writes
    all succeed. *)
Definition process_all (sqrt : Q -> Q) (clk : clock) (st : state)
           (messages : list metric) : state :=
  fold_left (process_metric sqrt clk true) messages st.

(** The baseline of the documented scenario: mean 100, deviation 10. *)
Definition mean_100_stddev_10 : baseline :=
  {| b_avg := 100;
     b_stddev := 10;
     b_min := 80;
     b_max := 120;
     b_last_updated := "2025-01-01T11:59:00+00:00";
     b_sample_count := 50 |}.

Definition noon : clock :=
  {| isoformat := "2025-01-01T12:00:00+00:00";
     partition_date := "2025/01/01";
     partition_hour := "12";
     epoch_ms := 1735732800000;
     elapsed_ms := 1 |}.

End Updates.


(** * The rest of the alert generator (lambda/alert_generator/lambda_function.py) *)

Module AlertDispatch.

Import AlertGenerator.

(** The event handed to [lambda_handler].  [security] holds the keys
    [process_security_alert] reads (of which [lambda_handler] reads
    ['severity'] and ['customer_id'] too); the other fields are the keys
    the other processors read.  A [None] field is an absent key. *)
Record lambda_event : Type := LambdaEvent {
  alert_type : option string;
  security : alert_event;
  metric_type : option string;
  anomaly_severity : option string;
  z_score : option Q;
  notification_type : option string;
  message : option string
}.

(** What the lambda does to the outside, in order. *)
Inductive effect : Type :=
| notify (c : channel_call)
| trigger_auto_scaling (customer_id metric_type : string)
| send_welcome_email (customer_id : string)
| send_sla_notification (customer_id : string)
| create_sla_ticket
| send_generic_notification (customer_id message : string)
| store_alert_record (alert_id : string) (actions : list string)
| send_cloudwatch_metric (alert_type severity customer_id : string).

(** The string a helper returns, which becomes an entry of
    [actions_taken]: what the sink answers for SNS, e-mail and the
    incident ticket, and the fixed text of the placeholders. *)
Definition answer (sink : channel_call -> string) (e : effect) : string :=
  match e with
  | notify c => sink c
  | trigger_auto_scaling _ _ => "Auto-scaling triggered (placeholder)"
  | send_welcome_email _ => "Welcome email sent (placeholder)"
  | send_sla_notification _ => "SLA notification sent (placeholder)"
  | create_sla_ticket => "SLA ticket created (placeholder)"
  | send_generic_notification _ _ => "Generic notification sent (placeholder)"
  | store_alert_record _ _ => ""
  | send_cloudwatch_metric _ _ _ => ""
  end.

(** What a processor hands back to [lambda_handler]. *)
Record processed : Type := Processed {
  alert_id : string;
  actions_taken : list string
}.

(** [process_security_alert], with the write of the record made explicit. *)
Definition security_alert (now_iso : string) (epoch_s : Z)
           (sink : channel_call -> string) (event : lambda_event)
  : list effect * processed :=
  let '(calls, record) :=
    process_security_alert now_iso epoch_s sink (security event) in
  ((map notify calls
    ++ [store_alert_record (AlertGenerator.alert_id record)
                           (AlertGenerator.actions_taken record)])%list,
   {| alert_id := AlertGenerator.alert_id record;
      actions_taken := AlertGenerator.actions_taken record |}).

Definition process_performance_alert (epoch_s : Z)
           (sink : channel_call -> string) (event : lambda_event)
  : list effect * processed :=
  let metric_type := default "unknown" (metric_type event) in
  let anomaly_severity := default "low" (anomaly_severity event) in
  let z_score := default 0%Q (z_score event) in
  let customer_id := default "unknown" (customer_id (security event)) in
  let calls :=
    if String.eqb anomaly_severity "critical" || MetricsProcessor.Qltb 3 z_score then
      [notify (send_sns_notification "PERFORMANCE_CRITICAL");
       notify (send_email_notification customer_id "PERFORMANCE");
       trigger_auto_scaling customer_id metric_type]
    else if String.eqb anomaly_severity "high" || MetricsProcessor.Qltb 2 z_score then
      [notify (send_sns_notification "PERFORMANCE_HIGH");
       notify (send_email_notification customer_id "PERFORMANCE")]
    else [] in
  let actions := map (answer sink) calls in
  let id := "perf_" ++ Py.str_of_Z epoch_s in
  ((calls ++ [store_alert_record id actions])%list,
   {| alert_id := id; actions_taken := actions |}).

Definition process_customer_notification (epoch_s : Z)
           (sink : channel_call -> string) (event : lambda_event)
  : list effect * processed :=
  let notification_type := default "general" (notification_type event) in
  let customer_id := default "unknown" (customer_id (security event)) in
  let message := default "Customer notification" (message event) in
  let calls :=
    if String.eqb notification_type "onboarding_complete" then
      [send_welcome_email customer_id]
    else if String.eqb notification_type "sla_breach" then
      [send_sla_notification customer_id; create_sla_ticket]
    else [send_generic_notification customer_id message] in
  let actions := map (answer sink) calls in
  let id := "notif_" ++ Py.str_of_Z epoch_s in
  ((calls ++ [store_alert_record id actions])%list,
   {| alert_id := id; actions_taken := actions |}).

Definition process_generic_alert (epoch_s : Z)
           (sink : channel_call -> string) (event : lambda_event)
  : list effect * processed :=
  let calls := [notify (send_sns_notification "GENERIC")] in
  let actions := map (answer sink) calls in
  let id := "generic_" ++ Py.str_of_Z epoch_s in
  ((calls ++ [store_alert_record id actions])%list,
   {| alert_id := id; actions_taken := actions |}).

(** The response of [lambda_handler]. *)
Record response : Type := Response {
  statusCode : Z;
  response_alert_id : string;
  response_actions : list string
}.

(** [lambda_handler] on an event whose keys have the types the
    processors expect (strings, an integer risk score, a numeric z-score),
    on which no processor raises. *)
Definition lambda_handler (now_iso : string) (epoch_s : Z)
           (sink : channel_call -> string) (event : lambda_event)
  : list effect * response :=
  let alert_type := default "unknown" (alert_type event) in
  let severity := default "low" (severity (security event)) in
  let customer_id := default "unknown" (customer_id (security event)) in
  let '(effects, r) :=
    if String.eqb alert_type "security_threat" then
      security_alert now_iso epoch_s sink event
    else if String.eqb alert_type "performance_anomaly" then
      process_performance_alert epoch_s sink event
    else if String.eqb alert_type "customer_notification" then
      process_customer_notification epoch_s sink event
    else process_generic_alert epoch_s sink event in
  ((effects ++ [send_cloudwatch_metric alert_type severity customer_id])%list,
   {| statusCode := 200;
      response_alert_id := alert_id r;
      response_actions := actions_taken r |}).

(** The event the lambda receives for a payload [trigger_alert] sent,
    when the customer id of the payload is the string [cust]. *)
Definition event_of_payload (p : SecurityProcessor.alert_payload) (cust : string)
  : lambda_event :=
  {| alert_type := Some "security_threat";
     security :=
       {| severity := Some (SecurityProcessor.ap_severity p);
          risk_score := Some (SecurityProcessor.ap_risk_score p);
          threats := Some (SecurityProcessor.ap_threats p);
          customer_id := Some cust;
          event_id := Some (SecurityProcessor.ap_event_id p) |};
     metric_type := None;
     anomaly_severity := None;
     z_score := None;
     notification_type := None;
     message := None |}.

Definition is_ticket (e : effect) : bool :=
  match e with
  | notify create_incident_ticket => true
  | _ => false
  end.

Definition is_scaling (e : effect) : bool :=
  match e with
  | trigger_auto_scaling _ _ => true
  | _ => false
  end.

Definition is_record (e : effect) : bool :=
  match e with
  | store_alert_record _ _ => true
  | _ => false
  end.

End AlertDispatch.

(** * Vocabulary of the further properties *)

Module Traffic.

Import SecurityProcessor.

(** The messages [process_event] handles to the end: non-empty JSON
    objects. *)
Definition is_event (v : Py.json) : bool :=
  match v with
  | Py.JObj (_ :: _) => true
  | _ => false
  end.

Definition handles (x : step) : bool :=
  match x with
  | Deliver _ v _ _ => is_event v
  | AutoCommitTimer => false
  end.

Definition events_handled (schedule : list step) : nat :=
  length (List.filter handles schedule).

(** The counters a state should keep in step. *)
Definition counters_in_step (st : state) : Prop :=
  alert_count st = length (invocations st) /\
  (alert_count st <= processed_count st)%nat /\
  (length (s3_objects st) <= processed_count st)%nat.

(** Two states that differ in the stored objects only. *)
Definition same_alerts (a b : state) : Prop :=
  processed_count a = processed_count b /\
  alert_count a = alert_count b /\
  invocations a = invocations b.

(** Characters that [json.dumps] leaves alone and [str.lower] maps to a
    lower-case letter or a blank. *)
Definition plain (c : ascii) : bool :=
  let n := nat_of_ascii c in
  (n =? 32)%nat || ((65 <=? n)%nat && (n <=? 90)%nat)
  || ((97 <=? n)%nat && (n <=? 122)%nat).

Fixpoint all_plain (s : string) : bool :=
  match s with
  | EmptyString => true
  | String c r => plain c && all_plain r
  end.

End Traffic.

Module Arrivals.

Import MetricsProcessor.

(** One message handed to [process_metric], with the clock reading the
    call sees and the outcome of its [put_object]. *)
Record arrival : Type := Arrival {
  a_clock : clock;
  a_put_ok : bool;
  a_metric : metric
}.

Definition process_arrival (sqrt : Q -> Q) (st : state) (a : arrival) : state :=
  process_metric sqrt (a_clock a) (a_put_ok a) st (a_metric a).

(** The messages of the main loop, in arrival order. *)
Definition process_arrivals (sqrt : Q -> Q) (st : state) (l : list arrival)
  : state :=
  fold_left (process_arrival sqrt) l st.

(** What the deserialiser hands to the main loop as [message.value]:
    a value Python takes for false ([None], [{}], [[]], [0], the empty
    string, [False]); a true value that is no dict (a number, a string,
    a list, [True]); or a non-empty dict, of which [m] holds the keys the
    processor reads. *)
Inductive message_value : Type :=
| Falsy
| NonObject
| Object (m : metric).

(** A message the consumer yields, with the clock reading and the
    outcome of the store its processing would see. *)
Record received : Type := Received {
  r_clock : clock;
  r_put_ok : bool;
  r_value : message_value
}.

(** The body of the loop of [run]: [if message.value:
    self.process_metric(message.value)].  A false value is skipped.  On a
    true value that is no dict the first statement of [process_metric],
    [metric_data.get('customer_id', 'unknown')], raises [AttributeError]
    inside its [try], whose handler logs the error: nothing is windowed,
    scored, stored or counted. *)
Definition run_step (sqrt : Q -> Q) (st : state) (r : received) : state :=
  match r_value r with
  | Falsy => st
  | NonObject => st
  | Object m => process_metric sqrt (r_clock r) (r_put_ok r) st m
  end.

(** [run] on the messages the consumer yields, from the state
    [__init__] builds. *)
Definition run (sqrt : Q -> Q) (l : list received) : state :=
  fold_left (run_step sqrt) l init.

(** The messages of a run that are non-empty objects. *)
Definition objects (l : list received) : list arrival :=
  flat_map (fun r => match r_value r with
                     | Object m => [Arrival (r_clock r) (r_put_ok r) m]
                     | _ => []
                     end) l.

(** The entry a message leaves in each rolling window. *)
Definition windowed (a : arrival) : metric * string :=
  (a_metric a, isoformat (a_clock a)).

(** The last [n] elements of a list. *)
Definition last_n {A : Type} (n : nat) (l : list A) : list A :=
  drop (length l - n) l.

(** The same arrivals with another outcome of every [put_object]. *)
Definition with_put_outcome (o : bool) (a : arrival) : arrival :=
  {| a_clock := a_clock a; a_put_ok := o; a_metric := a_metric a |}.

(** The customer and the metric type [process_metric] files a message
    under. *)
Definition customer_of (m : metric) : string :=
  default "unknown" (customer_id m).

Definition type_of (m : metric) : string :=
  default "unknown" (metric_type m).

(** The history entry a message contributes to the pair [(c, m)]: one
    entry when the message is of that pair and [float] accepts its value. *)
Definition entry_of (c m : string) (a : arrival) : list history_entry :=
  if String.eqb (customer_of (a_metric a)) c
     && String.eqb (type_of (a_metric a)) m
  then match float (get_value_or_0 (a_metric a)) with
       | inr v => [HistoryEntry v (isoformat (a_clock a))]
       | inl _ => []
       end
  else [].

Definition entries_of (c m : string) (l : list arrival) : list history_entry :=
  flat_map (entry_of c m) l.

(** What one expects of an entry of [baseline_metrics]. *)
Definition well_formed (b : baseline) : Prop :=
  (50 <= b_sample_count b <= 1000)%nat /\
  (b_min b <= b_avg b)%Q /\ (b_avg b <= b_max b)%Q.

(** The order of the severities of [detect_anomalies]. *)
Definition rank (severity : string) : nat :=
  if String.eqb severity "critical" then 3
  else if String.eqb severity "high" then 2
  else if String.eqb severity "medium" then 1
  else 0.

(** A metric message of a pair with a numeric value. *)
Definition sample (customer_id metric_type : string) (v : Q) : metric :=
  {| customer_id := Some customer_id;
     metric_type := Some metric_type;
     value := Some (VNum v) |}.

(** A message that has no ['value'] key. *)
Definition without_value (customer_id metric_type : string) : metric :=
  {| customer_id := Some customer_id;
     metric_type := Some metric_type;
     value := None |}.

End Arrivals.

(** * The aggregation thread (processors/metrics_processor/app.py) *)

Module Aggregation.

Import MetricsProcessor Arrivals.

(** [groups[k]] of a [defaultdict] is changed by [f]; a missing key is
    first given the default [d], at the end of the dict. *)
Fixpoint upsert {V : Type} (k : string) (f : V -> V) (d : V)
         (groups : list (string * V)) : list (string * V) :=
  match groups with
  | [] => [(k, f d)]
  | (k', v) :: r =>
      if String.eqb k' k then (k', f v) :: r
      else (k', v) :: upsert k f d r
  end.

(** [customer_groups[customer_id][metric_type].append(metric)] *)
Definition add_metric
           (customer_groups : list (string * list (string * list (metric * string))))
           (wm : metric * string)
  : list (string * list (string * list (metric * string))) :=
  upsert (customer_of (fst wm))
         (upsert (type_of (fst wm)) (fun metrics => (metrics ++ [wm])%list) [])
         [] customer_groups.

(** The groups of one window, in the order the dicts were filled. *)
Definition group_window (window_data : list (metric * string))
  : list (string * list (string * list (metric * string))) :=
  fold_left add_metric window_data [].

(** The dict written to the silver layer. *)
Record aggregated_metric : Type := AggregatedMetric {
  am_window : string;
  am_customer_id : string;
  am_metric_type : string;
  am_aggregation_timestamp : string;
  am_sample_count : nat;
  am_window_start : string;
  am_window_end : string;
  am_aggregations : aggregations;
  am_partition_date : string;
  am_partition_hour : string
}.

(** What the thread changes, and the objects put into the silver
    bucket. *)
Record agg_state : Type := AggState {
  aggregation_count : nat;
  s3_silver : list (string * aggregated_metric)
}.

(** The clock reading of a pass: [current_time] in the forms the pass
    uses it, with [window_start name] standing for
    [(current_time - timedelta(minutes=int(name.replace('min', '')))).isoformat()]. *)
Record pass_clock : Type := PassClock {
  pc_isoformat : string;
  pc_partition_date : string;
  pc_partition_hour : string;
  pc_window_start : string -> string
}.

(** [store_aggregation_s3_silver]: [epoch_s] is the clock reading of the
    call, [put_ok] the outcome of [put_object], whose failure is caught
    and logged. *)
Definition store_aggregation_s3_silver (epoch_s : Z) (put_ok : bool)
           (s : agg_state) (am : aggregated_metric) : agg_state :=
  let s3_key :=
    ("aggregated-metrics/date=" ++ am_partition_date am
     ++ "/hour=" ++ am_partition_hour am
     ++ "/window=" ++ am_window am
     ++ "/customer=" ++ am_customer_id am
     ++ "/metric_type=" ++ am_metric_type am
     ++ "/" ++ Py.str_of_Z epoch_s ++ ".json")%string in
  if put_ok then
    {| aggregation_count := aggregation_count s;
       s3_silver := (s3_silver s ++ [(s3_key, am)])%list |}
  else s.

Section WithSqrt.

Variable sqrt : Q -> Q.

(** The aggregate of one group, when [calculate_aggregations] returns a
    non-empty dict. *)
Definition aggregate (clk : pass_clock) (window_name customer_id : string)
           (group : string * list (metric * string)) : option aggregated_metric :=
  match calculate_aggregations sqrt (map fst (snd group)) with
  | None => None
  | Some aggregations =>
      Some {| am_window := window_name;
              am_customer_id := customer_id;
              am_metric_type := fst group;
              am_aggregation_timestamp := pc_isoformat clk;
              am_sample_count := length (snd group);
              am_window_start := pc_window_start clk window_name;
              am_window_end := pc_isoformat clk;
              am_aggregations := aggregations;
              am_partition_date := pc_partition_date clk;
              am_partition_hour := pc_partition_hour clk |}
  end.

(** The body of the innermost loop.  [env n] gives the clock reading and
    the outcome of the store made when [aggregation_count] is [n]. *)
Definition aggregate_group (env : nat -> Z * bool) (clk : pass_clock)
           (window_name customer_id : string) (s : agg_state)
           (group : string * list (metric * string)) : agg_state :=
  match aggregate clk window_name customer_id group with
  | None => s
  | Some am =>
      let s := store_aggregation_s3_silver (fst (env (aggregation_count s)))
                                           (snd (env (aggregation_count s))) s am in
      {| aggregation_count := S (aggregation_count s);
         s3_silver := s3_silver s |}
  end.

(** One pass of [generate_aggregations] over the rolling windows, as
    they are when the pass starts: a window that holds fewer than 10
    entries is skipped, the others are grouped by customer and metric
    type and aggregated group by group. *)
Definition generate_aggregations (env : nat -> Z * bool) (clk : pass_clock)
           (metrics_windows : list (string * deque (metric * string)))
           (s : agg_state) : agg_state :=
  fold_left
    (fun s w =>
       let window_name := fst w in
       let window_data := items _ (snd w) in
       if (length window_data <? 10)%nat then s
       else
         fold_left
           (fun s cg =>
              fold_left (aggregate_group env clk window_name (fst cg)) (snd cg) s)
           (group_window window_data) s)
    metrics_windows s.

(** The aggregates a window gives rise to, in the order of the loops. *)
Definition window_aggregates (clk : pass_clock)
           (w : string * deque (metric * string)) : list aggregated_metric :=
  if (length (items _ (snd w)) <? 10)%nat then []
  else
    flat_map
      (fun cg =>
         flat_map (fun g => match aggregate clk (fst w) (fst cg) g with
                            | Some am => [am]
                            | None => []
                            end)
                  (snd cg))
      (group_window (items _ (snd w))).

Definition pass_aggregates (clk : pass_clock)
           (metrics_windows : list (string * deque (metric * string)))
  : list aggregated_metric :=
  flat_map (window_aggregates clk) metrics_windows.

End WithSqrt.

(** The messages of a window that belong to a pair. *)
Definition of_pair (c t : string) (wm : metric * string) : bool :=
  String.eqb (customer_of (fst wm)) c && String.eqb (type_of (fst wm)) t.

(** [groups.get(k)] *)
Fixpoint assoc {V : Type} (k : string) (groups : list (string * V)) : option V :=
  match groups with
  | [] => None
  | (k', v) :: r => if String.eqb k' k then Some v else assoc k r
  end.

(** The messages grouped under a customer and a metric type. *)
Definition members (c t : string)
           (groups : list (string * list (string * list (metric * string))))
  : list (metric * string) :=
  default [] (assoc t (default [] (assoc c groups))).

(** No key occurs twice, in the outer dict or in an inner one, and no
    group is empty. *)
Definition well_grouped
           (groups : list (string * list (string * list (metric * string))))
  : Prop :=
  NoDup (map fst groups) /\
  Forall (fun cg => NoDup (map fst (snd cg)) /\
                    Forall (fun g => snd g <> []) (snd cg)) groups.

(** What an aggregate says apart from its window. *)
Definition core (am : aggregated_metric) : string * string * nat * aggregations :=
  (am_customer_id am, am_metric_type am, am_sample_count am, am_aggregations am).

(** The stores of a run of aggregates that succeed, when the first is
    made at count [n]. *)
Fixpoint stored (env : nat -> Z * bool) (n : nat) (ams : list aggregated_metric)
  : list aggregated_metric :=
  match ams with
  | [] => []
  | am :: r =>
      if snd (env n) then am :: stored env (S n) r else stored env (S n) r
  end.

(** A pass in which every store succeeds at the same second. *)
Definition all_stored (epoch_s : Z) (n : nat) : Z * bool := (epoch_s, true).

Definition agg_init : agg_state := {| aggregation_count := 0; s3_silver := [] |}.

Definition minute_clock : pass_clock :=
  {| pc_isoformat := "2025-01-01T12:01:00+00:00";
     pc_partition_date := "2025/01/01";
     pc_partition_hour := "12";
     pc_window_start := fun name =>
       if String.eqb name "1min" then "2025-01-01T12:00:00+00:00"
       else if String.eqb name "5min" then "2025-01-01T11:56:00+00:00"
       else "2025-01-01T11:46:00+00:00" |}.

End Aggregation.

(** * Properties *)

(** ** Classifier *)

Section Classifier.

Import SecurityProcessor.

Lemma dumps_arr_each (items : list Py.json) :
  Forall dumps_agrees items ->
  let each :=
    (fix each (l : list Py.json) : Exc.t (list string) :=
       match l with
       | [] => Exc.ret []
       | x :: r => do a <- Py.dumps x; do b <- each r; Exc.ret (a :: b)
       end) in
  if forallb Py.serializable items
  then exists parts, each items = inr parts
  else exists e, each items = inl e.
Proof.
  intros H each. induction H as [|x r Hx _ IH]; simpl.
  - eexists; reflexivity.
  - unfold dumps_agrees in Hx.
    destruct (Py.serializable x); destruct Hx as [a Ha]; rewrite Ha; simpl.
    + destruct (forallb Py.serializable r); destruct IH as [b Hb];
        fold each; rewrite Hb; eexists; reflexivity.
    + eexists; reflexivity.
Qed.

Lemma dumps_obj_each (members : list (string * Py.json)) :
  Forall (fun kv => dumps_agrees (snd kv)) members ->
  let each :=
    (fix each (l : list (string * Py.json)) : Exc.t (list string) :=
       match l with
       | [] => Exc.ret []
       | (k, x) :: r =>
           do a <- Py.dumps x; do b <- each r;
           Exc.ret ((Py.quote k ++ ": " ++ a) :: b)
       end) in
  if forallb (fun kv => Py.serializable (snd kv)) members
  then exists parts, each members = inr parts
  else exists e, each members = inl e.
Proof.
  intros H each. induction H as [|[k x] r Hx _ IH]; simpl.
  - eexists; reflexivity.
  - unfold dumps_agrees in Hx. simpl in Hx.
    destruct (Py.serializable x); destruct Hx as [a Ha]; rewrite Ha; simpl.
    + destruct (forallb (fun kv => Py.serializable (snd kv)) r);
        destruct IH as [b Hb]; fold each; rewrite Hb; eexists; reflexivity.
    + eexists; reflexivity.
Qed.

Lemma dumps_serializable (v : Py.json) : dumps_agrees v.
Proof.
  induction v using json_nested_ind; unfold dumps_agrees; simpl;
    try (eexists; reflexivity).
  - destruct b; eexists; reflexivity.
  - pose proof (dumps_arr_each items H) as He. simpl in He.
    destruct (forallb Py.serializable items); destruct He as [x Hx];
      rewrite Hx; eexists; reflexivity.
  - pose proof (dumps_obj_each members H) as He. simpl in He.
    destruct (forallb (fun kv => Py.serializable (snd kv)) members);
      destruct He as [x Hx]; rewrite Hx; eexists; reflexivity.
Qed.

Lemma detect_threats_spec (table : list (string * list string)) (text c : string) :
  In c (detect_threats table text) <->
  exists patterns pattern,
    In (c, patterns) table /\ In pattern patterns /\
    Py.contains pattern text = true.
Proof.
  induction table as [|[c' pats] rest IH]; simpl.
  - split; [intros [] | intros (? & ? & [] & _)].
  - destruct (any_pattern pats text) eqn:Hany; simpl; rewrite IH; clear IH.
    + split.
      * intros [<- | (ps & p & Hin & Hp)].
        -- apply existsb_exists in Hany as (p & Hp & Hc).
           exists pats, p. auto.
        -- exists ps, p. tauto.
      * intros (ps & p & [Heq | Hin] & Hp).
        -- inversion Heq; subst. now left.
        -- right. exists ps, p. tauto.
    + split.
      * intros (ps & p & Hin & Hp). exists ps, p. tauto.
      * intros (ps & p & [Heq | Hin] & Hp & Hc).
        -- inversion Heq; subst.
           assert (any_pattern ps text = true) as Ht
               by (apply existsb_exists; eauto).
           congruence.
        -- exists ps, p. tauto.
Qed.

Lemma classify_threat_normal (now : string) (event_data : Py.json) (text : string) :
  Py.dumps event_data = inr text ->
  let detected := detect_threats threat_patterns (Py.lower text) in
  classify_threat now event_data =
  {| threats_detected := detected;
     severity :=
       if (1 <? length detected)%nat then "high"
       else if (0 <? length detected)%nat then "medium" else "low";
     risk_score :=
       if (100 <? Z.of_nat (length detected) * 25)%Z then 100%Z
       else (Z.of_nat (length detected) * 25)%Z;
     classification_timestamp := now;
     error := None |}.
Proof. intros H. unfold classify_threat. rewrite H. reflexivity. Qed.




(** C8, as the document words it, fails: an event the encoder rejects
    is classified ['unknown'], not ['low']. *)
Lemma classify_threat_failure_not_low :
  let r := classify_threat "2025-01-01T00:00:00+00:00"
             (Py.JObj [("payload", Py.JOpaque "bytes")]) in
  Py.serializable (Py.JObj [("payload", Py.JOpaque "bytes")]) = false /\
  threats_detected r = [] /\ risk_score r = 0%Z /\
  severity r = "unknown" /\ severity r <> "low".
Proof. vm_compute. repeat split; discriminate. Qed.

(** C8 (amended): [classify_threat] never raises.  On an event the
    encoder rejects (one holding an object that is not JSON
    serialisable) it returns the default classification: no category,
    [risk_score] 0, severity ['unknown'] and the message of the
    exception under ['error'].  That is its only failure mode: on every
    other event the result carries no ['error'] and a severity among
    ['low'], ['medium'] and ['high']. *)
Theorem classify_threat_fail_open (now : string) (event_data : Py.json) :
  (Py.serializable event_data = false ->
   exists e,
     Py.dumps event_data = inl e /\
     classify_threat now event_data =
     {| threats_detected := [];
        severity := "unknown";
        risk_score := 0;
        classification_timestamp := now;
        error := Some e |}) /\
  (Py.serializable event_data = true ->
   let r := classify_threat now event_data in
   error r = None /\
   (severity r = "low" \/ severity r = "medium" \/ severity r = "high")).
Proof.
  pose proof (dumps_serializable event_data) as Hd. unfold dumps_agrees in Hd.
  split; intros Hs; rewrite Hs in Hd; destruct Hd as [x Hx].
  - exists x. split; [exact Hx|]. unfold classify_threat. rewrite Hx. reflexivity.
  - cbn zeta. rewrite (classify_threat_normal now event_data x Hx).
    cbn [error severity]. split; [reflexivity|].
    destruct (length _) as [|[|k]]; cbn; auto.
Qed.

End Classifier.

(** ** Alert routing *)

Section AlertRouting.

Import AlertGenerator Routing.

(** C7, as the document words it, fails: an alert of severity ['high']
    whose risk score is 100 is routed to the urgent channel and to the
    ticket channel, not to the urgent channel only. *)
Lemma routing_not_by_severity_alone :
  let calls :=
    fst (process_security_alert "2025-01-01T12:00:00+00:00" 1735732800
           confirming_sink high_with_full_risk) in
  severity high_with_full_risk = Some "high" /\
  table "high" = [urgent] /\
  calls = [send_sns_notification "CRITICAL";
           send_email_notification "acme" "CRITICAL";
           create_incident_ticket] /\
  In ticket (map channel_of calls) /\
  ~ In ticket (table "high").
Proof.
  vm_compute. repeat split; auto.
  intros [H | []]. discriminate H.
Qed.

(** C7 (amended): the helpers called for an alert are determined by its
    severity and its risk score.  Severity ['critical'] or a risk score
    above 80: SNS, e-mail and an incident ticket; otherwise severity
    ['high'] or a risk score above 60: SNS and e-mail; otherwise SNS at
    priority MEDIUM only.  Read as channels, these are the rows of the
    documented table for ['critical'], ['high'] and ['medium'/'low'], so
    that an alert whose risk score is at most 60 is routed by its
    severity as documented.  One action is recorded per call. *)
Theorem process_security_alert_routing
        (now_iso : string) (epoch_s : Z) (sink : channel_call -> string)
        (event : alert_event) :
  let sev := default "low" (severity event) in
  let risk := default 0%Z (risk_score event) in
  let cust := default "unknown" (customer_id event) in
  let result := process_security_alert now_iso epoch_s sink event in
  let calls := fst result in
  ((sev = "critical" \/ (80 < risk)%Z) ->
   calls = [send_sns_notification "CRITICAL";
            send_email_notification cust "CRITICAL";
            create_incident_ticket]) /\
  (sev <> "critical" -> (risk <= 80)%Z -> (sev = "high" \/ (60 < risk)%Z) ->
   calls = [send_sns_notification "HIGH";
            send_email_notification cust "HIGH"]) /\
  (sev <> "critical" -> sev <> "high" -> (risk <= 60)%Z ->
   calls = [send_sns_notification "MEDIUM"]) /\
  (forall ch, In ch (map channel_of calls) <->
              In ch (table (effective_severity sev risk))) /\
  ((risk <= 60)%Z ->
   forall ch, In ch (map channel_of calls) <-> In ch (table sev)) /\
  actions_taken (snd result) = map sink calls.
Proof.
  intros sev risk cust result calls.
  subst result calls. unfold process_security_alert. cbn [fst snd actions_taken].
  fold sev risk cust. unfold effective_severity, table.
  destruct (String.eqb_spec sev "critical") as [Hc|Hc];
    destruct (Z.ltb_spec 80 risk) as [H80|H80];
    destruct (String.eqb_spec sev "high") as [Hh|Hh];
    destruct (Z.ltb_spec 60 risk) as [H60|H60];
    cbn [orb map channel_of String.eqb Ascii.eqb Bool.eqb In];
    try (rewrite Hc); try (rewrite Hh); cbn;
    repeat split; try tauto; try lia; try congruence;
    intros; try tauto; try lia; try congruence;
    match goal with
    | H : _ \/ _ |- _ =>
        destruct H as [H|H]; [first [discriminate H | congruence] | lia]
    end.
Qed.

End AlertRouting.

(** ** Acknowledgement of consumed messages *)

Section Acknowledgement.

Import SecurityProcessor Schedule.

Lemma run_steps_consumer (schedule : list step) (st : state) (c : consumer) :
  snd (fold_left (run_step setup_consumer) schedule (st, c)) =
  fold_left consumer_step schedule c.
Proof.
  revert st c. induction schedule as [|x rest IH]; intros st c; [reflexivity|].
  cbn [fold_left]. destruct x as [clk v p i|]; cbn.
  - destruct (truthy v); apply IH.
  - apply IH.
Qed.

Lemma consumer_position (schedule : list step) (c : consumer) :
  position (fold_left consumer_step schedule c) =
  (position c + deliveries schedule)%nat.
Proof.
  revert c. induction schedule as [|x rest IH]; intros c; cbn [fold_left].
  - unfold deliveries. cbn. lia.
  - rewrite IH. unfold deliveries. destruct x; cbn; lia.
Qed.

Lemma consumer_step_store_outcome (b : bool) (schedule : list step) (c : consumer) :
  fold_left consumer_step (map (with_store_outcome b) schedule) c =
  fold_left consumer_step schedule c.
Proof.
  revert c. induction schedule as [|x rest IH]; intros c; [reflexivity|].
  cbn [map fold_left]. rewrite <- IH. destruct x; reflexivity.
Qed.

(** C4, as the document words it, fails: the record at offset 0 is
    acknowledged by the client's auto-commit although its store write
    failed and nothing was stored. *)
Lemma acknowledged_without_store :
  let outcome :=
    run [Deliver security_noon malware_and_port_scan false true; AutoCommitTimer] in
  enable_auto_commit setup_consumer = true /\
  s3_objects (fst outcome) = [] /\
  committed (snd outcome) = 1%nat.
Proof. vm_compute. repeat split. Qed.

(** C4 (amended): the processor never commits an offset itself; the
    consumer is set up with auto-commit, so the client acknowledges on
    its timer whatever has been handed out.  Handling a record leaves
    the committed offset unchanged whether or not its store write
    succeeded; the offsets the client commits do not depend on the
    outcomes of the store writes; and at the first firing of the timer
    after a schedule every record handed out is acknowledged. *)
Theorem acknowledgement_is_auto_commit (schedule : list step) :
  enable_auto_commit setup_consumer = true /\
  (forall st c clk value put_ok invoke_ok,
      committed (snd (run_step setup_consumer (st, c)
                        (Deliver clk value put_ok invoke_ok))) = committed c) /\
  (forall b, snd (run (map (with_store_outcome b) schedule)) = snd (run schedule)) /\
  committed (snd (run (schedule ++ [AutoCommitTimer])%list)) = deliveries schedule.
Proof.
  split; [reflexivity|]. split; [|split].
  - intros st c clk v p i. cbn. destruct (truthy v); reflexivity.
  - intros b. unfold run. rewrite !run_steps_consumer.
    apply consumer_step_store_outcome.
  - unfold run. rewrite run_steps_consumer, fold_left_app. cbn.
    rewrite consumer_position. reflexivity.
Qed.

End Acknowledgement.

(** ** Numbers, sorting and the statistics functions *)

Section Statistics.

Import MetricsProcessor.
Local Open Scope Q_scope.

Lemma Qltb_lt (x y : Q) : Qltb x y = true <-> x < y.
Proof.
  unfold Qltb. rewrite negb_true_iff. split.
  - intros H. apply Qnot_le_lt. intros Hle.
    apply Qle_bool_iff in Hle. congruence.
  - intros H. destruct (Qle_bool y x) eqn:E; [|reflexivity].
    apply Qle_bool_iff in E. exfalso. exact (Qlt_not_le _ _ H E).
Qed.

Lemma Qltb_ge (x y : Q) : Qltb x y = false <-> y <= x.
Proof.
  unfold Qltb. rewrite negb_false_iff. apply Qle_bool_iff.
Qed.

Lemma insert_sorted_perm (x : Q) (l : list Q) :
  Permutation (insert_sorted x l) (x :: l).
Proof.
  induction l as [|y r IH]; cbn; [reflexivity|].
  destruct (Qle_bool x y); [reflexivity|].
  rewrite IH. apply perm_swap.
Qed.

Lemma insert_sorted_sorted (x : Q) (l : list Q) :
  StronglySorted Qle l -> StronglySorted Qle (insert_sorted x l).
Proof.
  induction 1 as [|y r Hr IH Hy]; cbn.
  - constructor; [constructor | constructor].
  - destruct (Qle_bool x y) eqn:E.
    + apply Qle_bool_iff in E. constructor.
      * constructor; assumption.
      * constructor; [exact E|].
        eapply List.Forall_impl; [|exact Hy].
        intros z Hz. cbn beta in Hz. eapply Qle_trans; eassumption.
    + constructor; [exact IH|].
      assert (y <= x) as Hyx.
      { apply Qlt_le_weak, Qnot_le_lt. intros Hle.
        apply Qle_bool_iff in Hle. congruence. }
      rewrite (insert_sorted_perm x r). constructor; assumption.
Qed.

Lemma sorted_perm (l : list Q) : Permutation (sorted l) l.
Proof.
  induction l as [|x r IH]; [reflexivity|].
  change (sorted (x :: r)) with (insert_sorted x (sorted r)).
  rewrite insert_sorted_perm. now rewrite IH.
Qed.

Lemma sorted_sorted (l : list Q) : StronglySorted Qle (sorted l).
Proof.
  induction l as [|x r IH]; [constructor|].
  change (sorted (x :: r)) with (insert_sorted x (sorted r)).
  now apply insert_sorted_sorted.
Qed.

Lemma sorted_length (l : list Q) : length (sorted l) = length l.
Proof. apply Permutation_length, sorted_perm. Qed.

Lemma sorted_fixpoint (l : list Q) : StronglySorted Qle l -> sorted l = l.
Proof.
  induction 1 as [|x r Hr IH Hx]; [reflexivity|].
  change (sorted (x :: r)) with (insert_sorted x (sorted r)).
  rewrite IH. destruct r as [|y r']; [reflexivity|].
  cbn. inversion Hx as [|? ? Hxy _]; subst.
  apply Qle_bool_iff in Hxy. now rewrite Hxy.
Qed.

Lemma sorted_idempotent (l : list Q) : sorted (sorted l) = sorted l.
Proof. apply sorted_fixpoint, sorted_sorted. Qed.

Lemma strongly_sorted_lookup (l : list Q) (i j : nat) (a b : Q) :
  StronglySorted Qle l -> (i <= j)%nat ->
  l !! i = Some a -> l !! j = Some b -> a <= b.
Proof.
  intros Hs. revert i j. induction Hs as [|x r Hr IH Hx]; intros i j Hij Hi Hj.
  - discriminate.
  - destruct i as [|i]; destruct j as [|j]; cbn in Hi, Hj.
    + assert (a = b) as -> by congruence. apply Qle_refl.
    + injection Hi as <-.
      rewrite List.Forall_forall in Hx. apply Hx.
      apply list_elem_of_In. eapply list_elem_of_lookup_2; eassumption.
    + lia.
    + eapply IH; [|eassumption|eassumption]. lia.
Qed.

Lemma index_lookup (data : list Q) (i : nat) (x : Q) :
  data !! i = Some x -> index data i = inr x.
Proof. intros H. unfold index. now rewrite H. Qed.

Lemma index_in_range (data : list Q) (i : nat) :
  (i < length data)%nat -> exists x, data !! i = Some x /\ index data i = inr x.
Proof.
  intros H. destruct (lookup_lt_is_Some_2 data i H) as [x Hx].
  exists x. split; [exact Hx | now apply index_lookup].
Qed.

Lemma py_min_spec (values : list Q) :
  values <> [] ->
  exists m, py_min values = inr m /\ In m values /\
            forall x, In x values -> m <= x.
Proof.
  destruct values as [|x r]; [congruence|]. intros _.
  eexists. split; [reflexivity|].
  revert x. induction r as [|y r IH]; intros x; cbn [fold_left].
  - split; [now left|]. intros z [<-|[]]. apply Qle_refl.
  - destruct (Qltb y x) eqn:E.
    + apply Qltb_lt in E. destruct (IH y) as [Hin Hle]. split.
      * right. exact Hin.
      * intros z [<-|Hz]; [|now apply Hle].
        eapply Qle_trans; [apply Hle; now left | apply Qlt_le_weak; exact E].
    + apply Qltb_ge in E. destruct (IH x) as [Hin Hle]. split.
      * destruct Hin as [<-|Hin]; [now left | right; now right].
      * intros z [<-|[<-|Hz]].
        -- apply Hle. now left.
        -- eapply Qle_trans; [apply Hle; now left | exact E].
        -- apply Hle. now right.
Qed.

Lemma py_max_spec (values : list Q) :
  values <> [] ->
  exists m, py_max values = inr m /\ In m values /\
            forall x, In x values -> x <= m.
Proof.
  destruct values as [|x r]; [congruence|]. intros _.
  eexists. split; [reflexivity|].
  revert x. induction r as [|y r IH]; intros x; cbn [fold_left].
  - split; [now left|]. intros z [<-|[]]. apply Qle_refl.
  - destruct (Qltb x y) eqn:E.
    + apply Qltb_lt in E. destruct (IH y) as [Hin Hle]. split.
      * right. exact Hin.
      * intros z [<-|Hz]; [|now apply Hle].
        eapply Qle_trans; [apply Qlt_le_weak; exact E | apply Hle; now left].
    + apply Qltb_ge in E. destruct (IH x) as [Hin Hle]. split.
      * destruct Hin as [<-|Hin]; [now left | right; now right].
      * intros z [<-|[<-|Hz]].
        -- apply Hle. now left.
        -- eapply Qle_trans; [exact E | apply Hle; now left].
        -- apply Hle. now right.
Qed.

Lemma mean_nonempty (values : list Q) :
  values <> [] -> exists m, mean values = inr m.
Proof. destruct values; [congruence|]. intros _. eexists; reflexivity. Qed.

Lemma stdev_two (sqrt : Q -> Q) (values : list Q) :
  (2 <= length values)%nat -> exists s, stdev sqrt values = inr s.
Proof.
  intros H. unfold stdev.
  destruct (Nat.ltb_spec (length values) 2) as [Hlt|_]; [lia|].
  destruct (mean_nonempty values) as [m Hm].
  { destruct values; [cbn in H; lia | congruence]. }
  rewrite Hm. eexists; reflexivity.
Qed.

End Statistics.

(** ** Aggregator *)

Section Aggregator.

Import MetricsProcessor Samples Percentile.
Local Open Scope Q_scope.

Variable sqrt : Q -> Q.

Lemma int_mul_fraction (n : nat) (a : Z) (b : positive) :
  int_mul n (a # b) = Z.to_nat (Z.of_nat n * a / Z.pos b).
Proof.
  unfold int_mul, Qfloor, Qmult, inject_Z. cbn [Qnum Qden].
  now rewrite Pos.mul_1_l.
Qed.


(** The median lies between the two middle elements of the sorted
    values, and is one of them or their mean. *)
Lemma median_spec (values : list Q) :
  values <> [] ->
  let n := length values in
  exists med lo hi,
    median values = inr med /\
    sorted values !! ((n - 1) / 2)%nat = Some lo /\
    sorted values !! (n / 2)%nat = Some hi /\
    lo <= med /\ med <= hi /\
    ((n mod 2 = 1)%nat -> med = hi) /\
    ((n mod 2 = 0)%nat -> med == (lo + hi) / 2).
Proof.
  intros Hne n.
  assert (1 <= n)%nat as Hn.
  { subst n. destruct values; [congruence | cbn; lia]. }
  unfold median. rewrite sorted_length. fold n.
  destruct (Nat.eqb_spec n 0) as [?|_]; [lia|].
  destruct (index_in_range (sorted values) (n / 2)) as (hi & Hhi & Ihi).
  { rewrite sorted_length. fold n. lia. }
  destruct (index_in_range (sorted values) ((n - 1) / 2)) as (lo & Hlo & Ilo).
  { rewrite sorted_length. fold n. lia. }
  assert (lo <= hi) as Hle.
  { eapply strongly_sorted_lookup;
      [apply sorted_sorted | | exact Hlo | exact Hhi]. lia. }
  destruct (Nat.eqb_spec (n mod 2) 1) as [Hodd|Heven].
  - exists hi, lo, hi. rewrite Ihi.
    repeat split; auto using Qle_refl. intros ?; lia.
  - replace (n / 2 - 1)%nat with ((n - 1) / 2)%nat by lia.
    rewrite Ilo, Ihi. cbn [Exc.bind Exc.ret].
    exists (Qred ((lo + hi) / 2)), lo, hi.
    assert (lo <= (lo + hi) / 2 /\ (lo + hi) / 2 <= hi) as [H1 H2].
    { split.
      - apply Qle_shift_div_l; [reflexivity|]. lra.
      - apply Qle_shift_div_r; [reflexivity|]. lra. }
    repeat split; auto; try (rewrite Qred_correct; assumption).
    + intros ?; lia.
    + intros _. apply Qred_correct.
Qed.

Lemma collect_values_length (metrics : list metric) (values : list Q) :
  collect_values metrics = inr values ->
  length values = length (List.filter has_value metrics).
Proof.
  revert values. induction metrics as [|m rest IH]; intros values H; cbn in H.
  - injection H as <-. reflexivity.
  - cbn [List.filter]. unfold has_value.
    unfold get_value_or_0, get_value in *.
    destruct (value m) as [[|q|msg]|]; cbn in H |- *; auto.
    + destruct (collect_values rest) as [e|xs]; cbn in H; [discriminate|].
      injection H as <-. cbn. f_equal. now apply IH.
    + discriminate.
Qed.

Lemma calculate_aggregations_raises (metrics : list metric) (e : string) :
  collect_values metrics = inl e -> calculate_aggregations sqrt metrics = None.
Proof.
  intros H. unfold calculate_aggregations.
  destruct metrics; [reflexivity|]. now rewrite H.
Qed.

Lemma calculate_aggregations_no_values (metrics : list metric) :
  collect_values metrics = inr [] -> calculate_aggregations sqrt metrics = None.
Proof.
  intros H. unfold calculate_aggregations.
  destruct metrics; [reflexivity|]. now rewrite H.
Qed.

(** What [calculate_aggregations] returns on a batch with at least one
    value. *)
Lemma calculate_aggregations_values (metrics : list metric) (values : list Q) :
  collect_values metrics = inr values ->
  values <> [] ->
  let n := length values in
  exists a,
    calculate_aggregations sqrt metrics = Some a /\
    agg_count a = n /\
    agg_sum a = sum values /\
    mean values = inr (agg_avg a) /\
    py_min values = inr (agg_min a) /\
    py_max values = inr (agg_max a) /\
    median values = inr (agg_median a) /\
    (if (10 <=? n)%nat
     then exists p,
         agg_percentiles a = Some p /\
         median values = inr (p50 p) /\
         sorted values !! int_mul n (9 # 10) = Some (p90 p) /\
         sorted values !! int_mul n (95 # 100) = Some (p95 p) /\
         sorted values !! int_mul n (99 # 100) = Some (p99 p)
     else agg_percentiles a = None) /\
    (if (1 <? n)%nat
     then exists sd, stdev sqrt values = inr sd /\ agg_stddev a = Some sd
     else agg_stddev a = None).
Proof.
  intros Hc Hne n.
  assert (1 <= n)%nat as Hn.
  { subst n. destruct values; [congruence | cbn; lia]. }
  destruct (mean_nonempty values Hne) as [avg Havg].
  destruct (py_min_spec values Hne) as (mn & Hmn & _).
  destruct (py_max_spec values Hne) as (mx & Hmx & _).
  destruct (median_spec values Hne) as (med & _ & _ & Hmed & _).
  assert (exists pcts,
    (if (10 <=? length values)%nat then
       let sorted_values := sorted values in
       do q50 <- median sorted_values;
       do q90 <- index sorted_values (int_mul (length sorted_values) (9 # 10));
       do q95 <- index sorted_values (int_mul (length sorted_values) (95 # 100));
       do q99 <- index sorted_values (int_mul (length sorted_values) (99 # 100));
       Exc.ret (Some (Percentiles q50 q90 q95 q99))
     else Exc.ret None) = inr pcts /\
    (if (10 <=? n)%nat
     then exists p,
         pcts = Some p /\
         median values = inr (p50 p) /\
         sorted values !! int_mul n (9 # 10) = Some (p90 p) /\
         sorted values !! int_mul n (95 # 100) = Some (p95 p) /\
         sorted values !! int_mul n (99 # 100) = Some (p99 p)
     else pcts = None)) as (pcts & Hp & Hpcts).
  { fold n. destruct (10 <=? n)%nat; [|eexists; split; reflexivity].
    cbn zeta. unfold median at 1. rewrite sorted_idempotent.
    fold (median values). rewrite Hmed, sorted_length. fold n.
    destruct (index_in_range (sorted values) (int_mul n (9 # 10)))
      as (q90 & L90 & I90).
    { rewrite sorted_length, int_mul_fraction. fold n. lia. }
    destruct (index_in_range (sorted values) (int_mul n (95 # 100)))
      as (q95 & L95 & I95).
    { rewrite sorted_length, int_mul_fraction. fold n. lia. }
    destruct (index_in_range (sorted values) (int_mul n (99 # 100)))
      as (q99 & L99 & I99).
    { rewrite sorted_length, int_mul_fraction. fold n. lia. }
    cbn [Exc.bind Exc.ret]. rewrite I90, I95, I99. cbn [Exc.bind Exc.ret].
    eexists. split; [reflexivity|].
    eexists. repeat split; eauto. }
  assert (exists sd,
    (if (1 <? length values)%nat
     then do s <- stdev sqrt values; Exc.ret (Some s)
     else Exc.ret None) = inr sd /\
    (if (1 <? n)%nat
     then exists s, stdev sqrt values = inr s /\ sd = Some s
     else sd = None)) as (sd & Hs & Hsd).
  { fold n. destruct (Nat.ltb_spec 1 n) as [H1|H1];
      [|eexists; split; reflexivity].
    destruct (stdev_two sqrt values H1) as [s Hs]. rewrite Hs.
    eexists. split; [reflexivity|]. eauto. }
  unfold calculate_aggregations.
  destruct metrics as [|m rest]; [cbn in Hc; unfold Exc.ret in Hc; congruence|].
  rewrite Hc. cbn [Exc.bind].
  destruct values as [|v vs]; [congruence|].
  rewrite Havg, Hmn, Hmx, Hmed. cbv zeta in Hp. cbv beta iota zeta delta [Exc.bind].
  cbv beta iota zeta delta [Exc.bind] in Hp, Hs.
  rewrite Hp. rewrite Hs. cbn [Exc.bind Exc.ret Exc.try_except].
  eexists. split; [reflexivity|].
  cbn [agg_count agg_sum agg_avg agg_min agg_max agg_median
       agg_percentiles agg_stddev].
  rewrite Hmed in Hpcts.
  repeat split; try reflexivity; assumption.
Qed.





End Aggregator.



(** ** Baseline store *)

Section BaselineStore.

Import MetricsProcessor Updates.
Local Open Scope Q_scope.

Variable sqrt : Q -> Q.

Lemma get_history_set_history (st : state) (c m : string) (h : list history_entry) :
  get_history (set_history st c m h) c m = h.
Proof.
  unfold get_history, set_history. cbn [customer_metrics].
  rewrite lookup_insert_eq. cbn [from_option id]. now rewrite lookup_insert_eq.
Qed.

Lemma get_history_set_history_other (st : state) (c m c' m' : string)
      (h : list history_entry) :
  (c', m') <> (c, m) ->
  get_history (set_history st c' m' h) c m = get_history st c m.
Proof.
  intros Hne. unfold get_history, set_history. cbn [customer_metrics].
  destruct (decide (c' = c)) as [->|Hc].
  - rewrite lookup_insert_eq. cbn [from_option id].
    rewrite lookup_insert_ne by congruence. reflexivity.
  - now rewrite lookup_insert_ne by assumption.
Qed.

Lemma set_history_twice (st : state) (c m : string) (h1 h2 : list history_entry) :
  set_history (set_history st c m h1) c m h2 = set_history st c m h2.
Proof.
  unfold set_history. cbn [customer_metrics metrics_windows baseline_metrics
                           processed_count s3_bronze].
  rewrite lookup_insert_eq. cbn [from_option id].
  now rewrite !insert_insert_eq.
Qed.

Lemma appended_length (h : list history_entry) (v : Q) (now : string) :
  length (appended h v now) = Nat.min (length h + 1) 1000.
Proof.
  unfold appended.
  destruct (Nat.ltb_spec 1000 (length (h ++ [HistoryEntry (Qred v) now]))) as [H|H];
    [rewrite length_drop|]; rewrite length_app in *; cbn [length] in *; lia.
Qed.

(** The statistics of a baseline never raise on 50 values or more. *)
Lemma baseline_statistics (values : list Q) :
  (50 <= length values)%nat ->
  exists avg sd mn mx,
    mean values = inr avg /\
    (if (1 <? length values)%nat then stdev sqrt values else Exc.ret 0) = inr sd /\
    py_min values = inr mn /\ py_max values = inr mx.
Proof.
  intros H.
  assert (values <> []) as Hne by (destruct values; [cbn in H; lia | congruence]).
  destruct (mean_nonempty values Hne) as [avg Havg].
  destruct (py_min_spec values Hne) as (mn & Hmn & _).
  destruct (py_max_spec values Hne) as (mx & Hmx & _).
  destruct (stdev_two sqrt values) as [sd Hsd]; [lia|].
  exists avg, sd, mn, mx. repeat split; try assumption.
  destruct (Nat.ltb_spec 1 (length values)); [assumption | lia].
Qed.

(** [update_baseline] on a number: the history of the pair grows by the
    value (capped at 1000), and the baseline filed under the key of the
    pair is rewritten from the history once it holds 50 values. *)
Lemma update_baseline_number (now : string) (st : state) (c m : string) (v : Q) :
  let h := appended (get_history st c m) v now in
  let st' := update_baseline sqrt now st c m (VNum v) in
  metrics_windows st' = metrics_windows st /\
  processed_count st' = processed_count st /\
  s3_bronze st' = s3_bronze st /\
  customer_metrics st' = customer_metrics (set_history st c m h) /\
  ((length h < 50)%nat -> baseline_metrics st' = baseline_metrics st) /\
  ((50 <= length h)%nat ->
   exists b,
     baseline_metrics st' = <[baseline_key c m := b]> (baseline_metrics st) /\
     b_sample_count b = length h /\
     mean (map h_value h) = inr (b_avg b) /\
     stdev sqrt (map h_value h) = inr (b_stddev b) /\
     py_min (map h_value h) = inr (b_min b) /\
     py_max (map h_value h) = inr (b_max b)).
Proof.
  intros h st'. subst st'. unfold update_baseline.
  cbn [float Exc.ret]. rewrite !set_history_twice.
  fold (appended (get_history st c m) v now). fold h.
  destruct (Nat.leb_spec 50 (length h)) as [H50|H50].
  - destruct (baseline_statistics (map h_value h)) as (avg & sd & mn & mx & Ha & Hs & Hn & Hx).
    { now rewrite length_map. }
    rewrite Ha, Hs, Hn, Hx. cbn [Exc.bind Exc.ret Exc.try_except].
    repeat split; try reflexivity; try lia.
    intros _. eexists. split; [reflexivity|].
    cbn [b_sample_count b_avg b_stddev b_min b_max].
    rewrite length_map. repeat split; try assumption.
    rewrite length_map in Hs.
    destruct (Nat.ltb_spec 1 (length h)); [assumption | lia].
  - repeat split; try reflexivity. intros; lia.
Qed.

Lemma is_for_true (c m : string) (u : update_call) :
  is_for c m u = true <-> u_customer u = c /\ u_type u = m.
Proof.
  unfold is_for. rewrite andb_true_iff, !String.eqb_eq. reflexivity.
Qed.

Lemma is_for_false (c m : string) (u : update_call) :
  is_for c m u = false -> (u_customer u, u_type u) <> (c, m).
Proof.
  intros H Heq. injection Heq as Hc Hm.
  assert (is_for c m u = true) by (apply is_for_true; auto). congruence.
Qed.

Lemma get_history_customer_metrics (a b : state) (c m : string) :
  customer_metrics a = customer_metrics b -> get_history a c m = get_history b c m.
Proof. unfold get_history. now intros ->. Qed.

Lemma apply_update_history_same (st : state) (c m : string) (u : update_call) :
  is_for c m u = true ->
  get_history (apply_update sqrt st u) c m =
  appended (get_history st c m) (u_value u) (u_now u).
Proof.
  intros H. apply is_for_true in H as [<- <-]. unfold apply_update.
  destruct (update_baseline_number (u_now u) st (u_customer u) (u_type u) (u_value u))
    as (_ & _ & _ & Hcm & _).
  rewrite (get_history_customer_metrics _ _ _ _ Hcm).
  apply get_history_set_history.
Qed.

Lemma apply_update_history_other (st : state) (c m : string) (u : update_call) :
  is_for c m u = false ->
  get_history (apply_update sqrt st u) c m = get_history st c m.
Proof.
  intros H. apply is_for_false in H. unfold apply_update.
  destruct (update_baseline_number (u_now u) st (u_customer u) (u_type u) (u_value u))
    as (_ & _ & _ & Hcm & _).
  rewrite (get_history_customer_metrics _ _ _ _ Hcm).
  now apply get_history_set_history_other.
Qed.

Lemma apply_update_baseline_other (st : state) (k : string) (u : update_call) :
  baseline_key (u_customer u) (u_type u) <> k ->
  baseline_metrics (apply_update sqrt st u) !! k = baseline_metrics st !! k.
Proof.
  intros Hk. unfold apply_update.
  destruct (update_baseline_number (u_now u) st (u_customer u) (u_type u) (u_value u))
    as (_ & _ & _ & _ & Hlt & Hge).
  destruct (Nat.leb_spec 50
              (length (appended (get_history st (u_customer u) (u_type u))
                                (u_value u) (u_now u)))) as [H|H].
  - destruct (Hge H) as (b & -> & _). now rewrite lookup_insert_ne.
  - now rewrite (Hlt H).
Qed.

Lemma tracks_step (st : state) (c m : string) (n : nat) (u : update_call) :
  (is_for c m u = false ->
   baseline_key (u_customer u) (u_type u) <> baseline_key c m) ->
  tracks st c m n ->
  tracks (apply_update sqrt st u) c m
         (if is_for c m u then S n else n).
Proof.
  intros Hkey [Hlen Hb]. unfold tracks.
  destruct (is_for c m u) eqn:E.
  - rewrite (apply_update_history_same st c m u E), appended_length, Hlen.
    split; [lia|].
    pose proof E as E'. apply is_for_true in E' as [Ec Em].
    unfold apply_update. rewrite Ec, Em.
    destruct (update_baseline_number (u_now u) st c m (u_value u))
      as (_ & _ & _ & _ & Hlt & Hge).
    rewrite appended_length, Hlen in Hlt, Hge.
    destruct (Nat.leb_spec 50 (Nat.min (Nat.min n 1000 + 1) 1000)) as [H|H].
    + destruct (Hge H) as (b & -> & Hcount & _).
      rewrite lookup_insert_eq. rewrite Hcount. lia.
    + rewrite (Hlt H).
      destruct (baseline_metrics st !! baseline_key c m) as [b|]; lia.
  - rewrite (apply_update_history_other st c m u E).
    split; [exact Hlen|].
    rewrite apply_update_baseline_other by auto. exact Hb.
Qed.

Lemma updates_for_snoc (c m : string) (calls : list update_call) (u : update_call) :
  updates_for c m (calls ++ [u]) =
  if is_for c m u then S (updates_for c m calls) else updates_for c m calls.
Proof.
  unfold updates_for. rewrite List.filter_app, length_app. cbn [List.filter].
  destruct (is_for c m u); cbn [length]; lia.
Qed.

Lemma tracks_updates (c m : string) (calls : list update_call) :
  key_unshared c m calls ->
  tracks (apply_updates sqrt init calls) c m (updates_for c m calls).
Proof.
  induction calls as [|u calls IH] using rev_ind; intros Hk.
  - split; [reflexivity|]. unfold updates_for, apply_updates, init.
    cbn [fold_left baseline_metrics List.filter length].
    rewrite lookup_empty. lia.
  - unfold key_unshared in Hk. apply Forall_app in Hk as [Hk Hu].
    apply List.Forall_inv in Hu.
    unfold apply_updates. rewrite fold_left_app. cbn [fold_left].
    rewrite updates_for_snoc. apply tracks_step; [exact Hu|].
    apply IH. exact Hk.
Qed.

(** *** Anomaly detection *)

Lemma detect_anomalies_no_baseline (st : state) (cm : metric) (c m : string) (v : Q) :
  get_value_or_0 cm = VNum v ->
  baseline_metrics st !! baseline_key c m = None ->
  detect_anomalies st cm c m =
  {| is_anomaly := false;
     severity := "normal";
     z_score := None;
     baseline_avg := None;
     baseline_stddev := None;
     current_value := None;
     deviation_percent := None;
     baseline_available := Some false;
     error := None |}.
Proof.
  intros Hv Hb. unfold detect_anomalies. rewrite Hv. cbn [float Exc.ret Exc.bind].
  rewrite Hb. reflexivity.
Qed.

Lemma detect_anomalies_scored (st : state) (cm : metric) (c m : string) (v : Q)
      (b : baseline) :
  get_value_or_0 cm = VNum v ->
  baseline_metrics st !! baseline_key c m = Some b ->
  let z :=
    if Qltb 0 (b_stddev b) then Qabs (Qred v - b_avg b) / b_stddev b else 0 in
  detect_anomalies st cm c m =
  {| is_anomaly :=
       snd (if Qltb 3 z then ("critical", true)
            else if Qltb 2 z then ("high", true)
            else if Qltb (15 # 10) z then ("medium", true)
            else ("normal", false));
     severity :=
       fst (if Qltb 3 z then ("critical", true)
            else if Qltb 2 z then ("high", true)
            else if Qltb (15 # 10) z then ("medium", true)
            else ("normal", false));
     z_score := Some (round z 3);
     baseline_avg := Some (b_avg b);
     baseline_stddev := Some (b_stddev b);
     current_value := Some (Qred v);
     deviation_percent :=
       Some (if Qltb 0 (b_avg b)
             then round (Qabs (Qred v - b_avg b) / b_avg b * 100) 2
             else 0);
     baseline_available := Some true;
     error := None |}.
Proof.
  intros Hv Hb z. unfold detect_anomalies. rewrite Hv. cbn [float Exc.ret Exc.bind].
  rewrite Hb. reflexivity.
Qed.

(** The scoring of [detect_anomalies], read at the entry filed under
    the flat key of the pair.  Without an entry under that key it
    reports [baseline_available = false] and [is_anomaly = false].
    With an entry (of non-negative deviation) it scores
    [z = |value - mean| / stddev], or [z = 0] when the deviation is 0:
    ['critical'] above 3, ['high'] above 2, ['medium'] above 1.5,
    ['normal'] otherwise; [is_anomaly] holds exactly when the severity is
    not ['normal']; the reported [z_score] is [z] rounded to three
    decimals.  An entry of mean 100 and deviation 10 scores the value
    135 at 3.5 (the fraction 7/2): ['critical'], an anomaly.  Whether
    the entry under the key is a baseline of the pair itself is another
    matter, since two pairs can share a key. *)
Theorem detect_anomalies_z_score
        (st : state) (cm : metric) (c m : string) (v : Q) :
  get_value_or_0 cm = VNum v ->
  let r := detect_anomalies st cm c m in
  (baseline_metrics st !! baseline_key c m = None ->
   baseline_available r = Some false /\ is_anomaly r = false) /\
  (forall b,
      baseline_metrics st !! baseline_key c m = Some b ->
      0 <= b_stddev b ->
      exists z,
        (b_stddev b == 0 -> z == 0) /\
        (~ b_stddev b == 0 -> z == Qabs (v - b_avg b) / b_stddev b) /\
        baseline_available r = Some true /\
        z_score r = Some (round z 3) /\
        (3 < z -> severity r = "critical") /\
        (z <= 3 -> 2 < z -> severity r = "high") /\
        (z <= 2 -> 15 # 10 < z -> severity r = "medium") /\
        (z <= 15 # 10 -> severity r = "normal") /\
        (is_anomaly r = true <-> severity r <> "normal")) /\
  (let r135 :=
     detect_anomalies (with_baseline "acme" "latency_ms" mean_100_stddev_10)
                      (Samples.latency 135) "acme" "latency_ms" in
   z_score r135 = Some (7 # 2) /\ severity r135 = "critical" /\
   is_anomaly r135 = true).
Proof.
  intros Hv r. subst r. split; [|split].
  - intros Hb. rewrite (detect_anomalies_no_baseline st cm c m v Hv Hb).
    split; reflexivity.
  - intros b Hb Hsd. rewrite (detect_anomalies_scored st cm c m v b Hv Hb).
    cbn [baseline_available z_score severity is_anomaly].
    set (z := if Qltb 0 (b_stddev b)
              then Qabs (Qred v - b_avg b) / b_stddev b else 0).
    exists z. split; [|split; [|split; [reflexivity|split; [reflexivity|]]]].
    + intros H0. subst z. destruct (Qltb 0 (b_stddev b)) eqn:E; [|reflexivity].
      apply Qltb_lt in E. rewrite H0 in E. discriminate E.
    + intros Hn. subst z. destruct (Qltb 0 (b_stddev b)) eqn:E.
      * now rewrite (Qred_correct v).
      * apply Qltb_ge in E. exfalso. apply Hn. now apply Qle_antisym.
    + destruct (Qltb 3 z) eqn:E3; [apply Qltb_lt in E3 | apply Qltb_ge in E3];
        [|destruct (Qltb 2 z) eqn:E2; [apply Qltb_lt in E2 | apply Qltb_ge in E2];
          [|destruct (Qltb (15 # 10) z) eqn:E1;
            [apply Qltb_lt in E1 | apply Qltb_ge in E1]]];
        cbn [fst snd]; repeat split; intros; try reflexivity; try discriminate;
        try congruence;
        try (exfalso; clearbody z; lra).
  - vm_compute. repeat split.
Qed.

Lemma detect_anomalies_z_score_witness :
  let r :=
    detect_anomalies (with_baseline "acme" "latency_ms" mean_100_stddev_10)
                     (Samples.latency 135) "acme" "latency_ms" in
  baseline_available r = Some true.
Proof.
  destruct (detect_anomalies_z_score
              (with_baseline "acme" "latency_ms" mean_100_stddev_10)
              (Samples.latency 135) "acme" "latency_ms" 135
              ltac:(reflexivity)) as (_ & H & _).
  destruct (H mean_100_stddev_10 ltac:(vm_compute; reflexivity)
              ltac:(vm_compute; discriminate))
    as (z & _ & _ & Hav & _).
  exact Hav.
Defined.

(** *** Retention and the sample count *)



(** For a pair whose baseline key no other pair shares, [Detect] finds no
    baseline before the pair's 50th update and finds one from then on. *)
Lemma detect_after_updates (c m : string) (calls : list update_call)
      (cm : metric) (v : Q) :
  key_unshared c m calls ->
  get_value_or_0 cm = VNum v ->
  let r := detect_anomalies (apply_updates sqrt init calls) cm c m in
  ((updates_for c m calls < 50)%nat ->
   baseline_available r = Some false /\ is_anomaly r = false) /\
  ((50 <= updates_for c m calls)%nat -> baseline_available r = Some true).
Proof.
  intros Hk Hv r. subst r.
  destruct (tracks_updates c m calls Hk) as [_ Hb].
  destruct (baseline_metrics (apply_updates sqrt init calls) !! baseline_key c m)
    as [b|] eqn:E.
  - split; [lia|]. intros _.
    now rewrite (detect_anomalies_scored _ cm c m v b Hv E).
  - split; [|lia]. intros _.
    now rewrite (detect_anomalies_no_baseline _ cm c m v Hv E).
Qed.

(** C2 at a pair that has no baseline.  Fifty samples of tenant ["a"],
    signal ["b_c"] are processed: forty-six of 100, two of 107 and two
    of 93, mean 100 and deviation 2.  No sample of tenant ["a_b"], signal
    ["c"] was ever processed, its history is empty and no baseline
    exists for it.  For its first value, 110, [Detect] should report
    [baseline_available = false] and [is_anomaly = false]; it finds the
    other pair's entry under the shared key ["a_b_c"] instead and reports
    [baseline_available = true], z = 5, ['critical'], an anomaly. *)
Lemma detect_scores_pair_without_baseline :
  let other v :=
    {| customer_id := Some "a"; metric_type := Some "b_c";
       value := Some (VNum v) |} in
  let messages :=
    (List.repeat (other 100) 46 ++ [other 107; other 107; other 93; other 93])%list in
  let st := process_all Samples.sqrt_6 noon init messages in
  let first_sample :=
    {| customer_id := Some "a_b"; metric_type := Some "c";
       value := Some (VNum 110) |} in
  let r := detect_anomalies st first_sample "a_b" "c" in
  forallb (fun m => negb (String.eqb (default "unknown" (customer_id m)) "a_b"))
          messages = true /\
  get_history st "a_b" "c" = [] /\
  baseline_key "a" "b_c" = baseline_key "a_b" "c" /\
  baseline_available r = Some true /\
  baseline_avg r = Some 100 /\
  baseline_stddev r = Some 2 /\
  z_score r = Some 5 /\
  severity r = "critical" /\
  is_anomaly r = true.
Proof. vm_compute. repeat split. Qed.

(** C10 at a pair that shares its baseline key: fifty updates for tenant
    ["a"], signal ["b_c"], create the entry ["a_b_c"], which [Detect]
    reads for tenant ["a_b"], signal ["c"], although no value was ever
    submitted for that pair. *)
Lemma baseline_key_shared_between_pairs :
  let calls := steady "a" "b_c" 10 50 in
  let st := apply_updates Samples.sqrt_6 init calls in
  let first_sample :=
    {| customer_id := Some "a_b"; metric_type := Some "c";
       value := Some (VNum 10) |} in
  baseline_key "a" "b_c" = baseline_key "a_b" "c" /\
  updates_for "a_b" "c" calls = 0%nat /\
  get_history st "a_b" "c" = [] /\
  baseline_available (detect_anomalies st first_sample "a_b" "c") = Some true.
Proof. vm_compute. repeat split. Qed.

(** *** Order of detection and update *)

Lemma detect_anomalies_baselines (a b : state) (cm : metric) (c m : string) :
  baseline_metrics a = baseline_metrics b ->
  detect_anomalies a cm c m = detect_anomalies b cm c m.
Proof. intros H. unfold detect_anomalies. now rewrite H. Qed.

Lemma update_baseline_s3_bronze (now : string) (st : state) (c m : string)
      (v : pyvalue) :
  s3_bronze (update_baseline sqrt now st c m v) = s3_bronze st.
Proof.
  unfold update_baseline.
  destruct (float v) as [e|q]; [reflexivity|].
  destruct (50 <=? _)%nat; [|reflexivity].
  unfold Exc.try_except.
  destruct (do avg <- _; _) as [e|s] eqn:E; [reflexivity|].
  cbv beta iota zeta delta [Exc.bind Exc.ret] in E.
  repeat match type of E with
         | match ?x with _ => _ end = _ => destruct x; try discriminate E
         end.
  injection E as <-. reflexivity.
Qed.

Lemma process_metric_stored (clk : clock) (st : state) (md : metric) :
  let c := default "unknown" (customer_id md) in
  let m := default "unknown" (metric_type md) in
  exists s3_key e,
    s3_bronze (process_metric sqrt clk true st md)
      = (s3_bronze st ++ [(s3_key, e)])%list /\
    original_metric e = md /\
    em_anomaly_analysis e = detect_anomalies st md c m.
Proof.
  intros c m. unfold process_metric, store_in_s3_bronze.
  cbn [s3_bronze]. fold c m. rewrite update_baseline_s3_bronze.
  eexists. eexists. split; [reflexivity|].
  cbn [original_metric em_anomaly_analysis]. split; [reflexivity|].
  apply detect_anomalies_baselines. reflexivity.
Qed.

Lemma process_metric_history (clk : clock) (st : state) (md : metric) (v : Q) :
  let c := default "unknown" (customer_id md) in
  let m := default "unknown" (metric_type md) in
  get_value_or_0 md = VNum v ->
  get_history (process_metric sqrt clk true st md) c m =
  appended (get_history st c m) v (isoformat clk).
Proof.
  intros c m Hv. unfold process_metric, store_in_s3_bronze.
  fold c m. rewrite Hv.
  match goal with
  | |- context [update_baseline sqrt ?now ?s c m (VNum v)] =>
      destruct (update_baseline_number now s c m v) as (_ & _ & _ & Hcm & _);
      set (st1 := update_baseline sqrt now s c m (VNum v)) in *
  end.
  unfold get_history at 1. cbn [customer_metrics]. rewrite Hcm.
  cbn [set_history customer_metrics]. fold (get_history st c m).
  rewrite lookup_insert_eq. cbn [from_option id]. now rewrite lookup_insert_eq.
Qed.

Lemma fifty_tens_baseline :
  baseline_metrics (process_all sqrt noon init (List.repeat (Samples.latency 10) 50))
    !! baseline_key "acme" "latency_ms" =
  Some {| b_avg := 10; b_stddev := sqrt 0; b_min := 10; b_max := 10;
          b_last_updated := isoformat noon;
          b_sample_count := 50 |}.
Proof. vm_compute. reflexivity. Qed.

Lemma fifty_tens_then_100_baseline :
  exists b51,
    baseline_metrics
      (process_metric sqrt noon true
         (process_all sqrt noon init (List.repeat (Samples.latency 10) 50))
         (Samples.latency 100))
      !! baseline_key "acme" "latency_ms" = Some b51 /\
    b_avg b51 = 200 # 17 /\ b_sample_count b51 = 51%nat.
Proof.
  eexists. split; [vm_compute; reflexivity|]. split; reflexivity.
Qed.

(** C5: the analysis stored with a sample is the one [detect_anomalies]
    gives on the state before the sample is folded into its history; the
    state after holds the sample.  After 50 samples of value 10, the
    sample 100 is scored against the mean 10 of those 50 (and, the
    deviation being the root of 0, at z = 0), while the baseline left
    behind has mean 600/51 over 51 samples. *)
Theorem detection_precedes_update (clk : clock) (st : state) (md : metric) :
  let c := default "unknown" (customer_id md) in
  let m := default "unknown" (metric_type md) in
  let st' := process_metric sqrt clk true st md in
  (exists s3_key e,
      s3_bronze st' = (s3_bronze st ++ [(s3_key, e)])%list /\
      original_metric e = md /\
      em_anomaly_analysis e = detect_anomalies st md c m) /\
  (forall v, get_value_or_0 md = VNum v ->
             get_history st' c m = appended (get_history st c m) v (isoformat clk)) /\
  (let st50 := process_all sqrt noon init (List.repeat (Samples.latency 10) 50) in
   let st51 := process_metric sqrt noon true st50 (Samples.latency 100) in
   exists s3_key e b50 b51,
     last (s3_bronze st51) = Some (s3_key, e) /\
     baseline_metrics st50 !! baseline_key "acme" "latency_ms" = Some b50 /\
     b_avg b50 = 10 /\ b_sample_count b50 = 50%nat /\
     baseline_avg (em_anomaly_analysis e) = Some 10 /\
     current_value (em_anomaly_analysis e) = Some 100 /\
     (sqrt 0 == 0 -> z_score (em_anomaly_analysis e) = Some 0) /\
     baseline_metrics st51 !! baseline_key "acme" "latency_ms" = Some b51 /\
     b_avg b51 == 600 / 51 /\ b_avg b51 = 200 # 17 /\ b_sample_count b51 = 51%nat).
Proof.
  split; [apply process_metric_stored | split; [apply process_metric_history|]].
  cbv zeta.
  destruct (process_metric_stored noon
              (process_all sqrt noon init (List.repeat (Samples.latency 10) 50))
              (Samples.latency 100)) as (s3_key & e & Hs3 & _ & He).
  cbn [Samples.latency customer_metrics metric_type customer_id from_option id] in He.
  fold (Samples.latency 100) in He.
  rewrite (detect_anomalies_scored _ (Samples.latency 100)
             "acme" "latency_ms" 100 _ eq_refl fifty_tens_baseline) in He.
  destruct fifty_tens_then_100_baseline as (b51 & H51 & Havg & Hcount).
  exists s3_key, e. eexists. exists b51.
  split; [rewrite Hs3; apply last_snoc|].
  split; [exact fifty_tens_baseline|]. rewrite He.
  cbn [b_avg b_sample_count baseline_avg current_value z_score b_stddev].
  split; [reflexivity|]. split; [reflexivity|]. split; [reflexivity|].
  split; [reflexivity|]. split.
  { intros H0. destruct (Qltb 0 (sqrt 0)) eqn:E; [|reflexivity].
    apply Qltb_lt in E. rewrite H0 in E. discriminate E. }
  split; [exact H51|]. split; [rewrite Havg; reflexivity|].
  split; [exact Havg | exact Hcount].
Qed.

End BaselineStore.

Import MetricsProcessor Updates.


(** * Further properties *)

(** ** The security processor's main loop *)

Section SecurityLoop.

Import SecurityProcessor Schedule Traffic.

Lemma store_in_s3_keeps (put_ok : bool) (st : state) (ev : enriched_event) :
  let st' := fst (store_in_s3 put_ok st ev) in
  processed_count st' = processed_count st /\
  alert_count st' = alert_count st /\
  invocations st' = invocations st /\
  (length (s3_objects st) <= length (s3_objects st') <= S (length (s3_objects st)))%nat.
Proof.
  unfold store_in_s3.
  destruct (Py.dumps (original_event ev)); [cbn; repeat split; lia|].
  destruct put_ok; cbn; rewrite ?length_app; cbn; repeat split; lia.
Qed.

Lemma trigger_alert_keeps (invoke_ok : bool) (st : state) (ev : enriched_event) :
  let st' := trigger_alert invoke_ok st ev in
  processed_count st' = processed_count st /\
  s3_objects st' = s3_objects st /\
  (alert_count st = length (invocations st) ->
   alert_count st' = length (invocations st')) /\
  (alert_count st <= alert_count st' <= S (alert_count st))%nat.
Proof.
  unfold trigger_alert.
  destruct (_ || _); [|cbn; repeat split; auto; lia].
  destruct (Py.dumps (customer_id ev)); [cbn; repeat split; auto; lia|].
  destruct invoke_ok; cbn; rewrite ?length_app; cbn; repeat split; auto; lia.
Qed.

(** A message that is not a non-empty JSON object leaves the processor
    as it was. *)
Lemma run_step_not_event (st : state) (c : consumer) (clk : clock)
      (v : Py.json) (put_ok invoke_ok : bool) :
  is_event v = false ->
  fst (run_step setup_consumer (st, c) (Deliver clk v put_ok invoke_ok)) = st.
Proof.
  intros H. cbn. destruct (truthy v) eqn:T; [|reflexivity].
  cbn. unfold process_event.
  destruct v as [| | | | |members|]; try reflexivity.
  destruct members; [discriminate T | discriminate H].
Qed.

Lemma process_event_counters (clk : clock) (put_ok invoke_ok : bool) (st : state)
      (k : string) (v : Py.json) (members : list (string * Py.json)) :
  let st' := process_event clk put_ok invoke_ok st (Py.JObj ((k, v) :: members)) in
  processed_count st' = S (processed_count st) /\
  (counters_in_step st -> counters_in_step st').
Proof.
  unfold process_event. cbn [enrich_event Exc.ret].
  match goal with
  | |- context [store_in_s3 put_ok st ?e] =>
      set (ev := e);
      pose proof (store_in_s3_keeps put_ok st ev) as Hs;
      destruct (store_in_s3 put_ok st ev) as [st1 key]
  end.
  cbn [fst] in Hs. destruct Hs as (Hp & Ha & Hi & Hl).
  pose proof (trigger_alert_keeps invoke_ok st1 ev) as Ht.
  cbv zeta in Ht. destruct Ht as (Tp & Ts & Ti & Ta).
  destruct (_ || _); cbn [processed_count alert_count s3_objects invocations].
  - split; [lia|]. intros (I1 & I2 & I3). unfold counters_in_step.
    cbn [processed_count alert_count s3_objects invocations].
    rewrite Ts. split; [apply Ti; congruence | lia].
  - split; [lia|]. intros (I1 & I2 & I3). unfold counters_in_step.
    cbn [processed_count alert_count s3_objects invocations].
    split; [congruence | lia].
Qed.

Lemma run_steps_counters (schedule : list step) (st : state) (c : consumer) :
  let st' := fst (fold_left (run_step setup_consumer) schedule (st, c)) in
  processed_count st' = (processed_count st + events_handled schedule)%nat /\
  (counters_in_step st -> counters_in_step st').
Proof.
  revert st c. induction schedule as [|x rest IH]; intros st c.
  - cbn. unfold events_handled. cbn. split; [lia | auto].
  - cbn [fold_left]. unfold events_handled. cbn [List.filter].
    destruct x as [clk v p i|].
    + destruct (is_event v) eqn:E.
      * destruct v as [| | | | |members|]; try discriminate E.
        destruct members as [|[k v] members]; [discriminate E|].
        cbn [run_step truthy handles is_event length].
        destruct (process_event_counters clk p i st k v members) as [Hp Hc].
        specialize (IH (process_event clk p i st (Py.JObj ((k, v) :: members)))
                       {| position := S (position c); committed := committed c |}).
        cbv zeta in IH. destruct IH as [IHp IHc].
        fold (events_handled rest). split; [rewrite IHp, Hp; lia | auto].
      * pose proof (run_step_not_event st c clk v p i E) as Hs.
        destruct (run_step setup_consumer (st, c) (Deliver clk v p i)) as [st1 c1].
        cbn [fst] in Hs. subst st1. cbn [handles]. rewrite E.
        apply IH.
    + cbn [run_step enable_auto_commit setup_consumer handles]. apply IH.
Qed.

(** X1: the processor counts exactly the messages that are non-empty
    JSON objects.  Any other message the consumer hands out (null, an
    empty object, an array, a string, a number) leaves the processor as
    it was: it is neither counted, nor stored, nor alerted on, whatever
    its text. *)
Theorem run_counts_objects_only (schedule : list step) :
  processed_count (fst (run schedule)) = events_handled schedule /\
  (forall st c clk v put_ok invoke_ok,
      is_event v = false ->
      fst (run_step setup_consumer (st, c) (Deliver clk v put_ok invoke_ok)) = st).
Proof.
  split.
  - destruct (run_steps_counters schedule init (Consumer 0 0)) as [H _].
    exact H.
  - intros. now apply run_step_not_event.
Qed.

(** X2: at every point of a run the alert counter is the number of lambda
    invocations made, and neither the alerts nor the stored objects
    outnumber the processed events; the processed events do not outnumber
    the records handed out. *)
Theorem run_counters_in_step (schedule : list step) :
  let st := fst (run schedule) in
  alert_count st = length (invocations st) /\
  (alert_count st <= processed_count st)%nat /\
  (length (s3_objects st) <= processed_count st)%nat /\
  (processed_count st <= position (snd (run schedule)))%nat.
Proof.
  destruct (run_steps_counters schedule init (Consumer 0 0)) as [Hp Hc].
  cbv zeta in Hp, Hc. fold (run schedule) in Hp, Hc.
  destruct Hc as (H1 & H2 & H3); [repeat split; cbn; lia|].
  cbv zeta. repeat split; try assumption.
  unfold run at 2. rewrite run_steps_consumer, consumer_position, Hp.
  cbn. unfold events_handled, deliveries.
  clear. induction schedule as [|x rest IH]; [cbn; lia|].
  cbn [List.filter]. destruct x as [clk v p i|]; cbn [handles is_delivery].
  - destruct (is_event v); cbn [length]; lia.
  - exact IH.
Qed.

Lemma store_in_s3_same_alerts (p q : bool) (a b : state) (ev : enriched_event) :
  same_alerts a b ->
  same_alerts (fst (store_in_s3 p a ev)) (fst (store_in_s3 q b ev)).
Proof.
  intros (H1 & H2 & H3).
  destruct (store_in_s3_keeps p a ev) as (A1 & A2 & A3 & _).
  destruct (store_in_s3_keeps q b ev) as (B1 & B2 & B3 & _).
  cbv zeta in *. repeat split; congruence.
Qed.

Lemma trigger_alert_same_alerts (i : bool) (a b : state) (ev : enriched_event) :
  same_alerts a b ->
  same_alerts (trigger_alert i a ev) (trigger_alert i b ev).
Proof.
  intros (H1 & H2 & H3). unfold trigger_alert.
  destruct (_ || _); [|repeat split; assumption].
  destruct (Py.dumps (customer_id ev)); [repeat split; assumption|].
  destruct i; [|repeat split; assumption].
  repeat split; cbn; congruence.
Qed.

Lemma process_event_same_alerts (clk : clock) (p q i : bool) (a b : state)
      (v : Py.json) :
  same_alerts a b ->
  same_alerts (process_event clk p i a v) (process_event clk q i b v).
Proof.
  intros H. pose proof H as (H1 & H2 & H3). unfold process_event.
  destruct v as [| | | | |members|]; cbn [enrich_event Exc.raise Exc.ret];
    try exact H.
  rewrite H1.
  match goal with
  | |- context [store_in_s3 p a ?e] =>
      set (ev := e);
      pose proof (store_in_s3_same_alerts p q a b ev H) as Hs;
      destruct (store_in_s3 p a ev) as [a1 ka];
      destruct (store_in_s3 q b ev) as [b1 kb]
  end.
  cbn [fst] in Hs.
  destruct (_ || _).
  - pose proof (trigger_alert_same_alerts i a1 b1 ev Hs) as (T1 & T2 & T3).
    repeat split; cbn; congruence.
  - destruct Hs as (S1 & S2 & S3). repeat split; cbn; congruence.
Qed.

Lemma run_steps_same_alerts (o : bool) (schedule : list step)
      (a b : state) (c d : consumer) :
  same_alerts a b ->
  same_alerts
    (fst (fold_left (run_step setup_consumer)
                    (map (with_store_outcome o) schedule) (a, c)))
    (fst (fold_left (run_step setup_consumer) schedule (b, d))).
Proof.
  revert a b c d. induction schedule as [|x rest IH]; intros a b c d H.
  - exact H.
  - cbn [map fold_left]. destruct x as [clk v p i|]; cbn [with_store_outcome run_step].
    + destruct (truthy v); apply IH; [|exact H].
      now apply process_event_same_alerts.
    + cbn [enable_auto_commit setup_consumer]. now apply IH.
Qed.

(** X3: alerting does not depend on the store.  Whatever the outcomes of
    the store writes of a run, the same lambda invocations are made, with
    the same payloads in the same order, and the same events are
    counted. *)
Theorem alerts_independent_of_store (o : bool) (schedule : list step) :
  let st := fst (run schedule) in
  let st' := fst (run (map (with_store_outcome o) schedule)) in
  invocations st' = invocations st /\
  alert_count st' = alert_count st /\
  processed_count st' = processed_count st.
Proof.
  destruct (run_steps_same_alerts o schedule init init (Consumer 0 0) (Consumer 0 0))
    as (H1 & H2 & H3); [repeat split|].
  cbv zeta. unfold run. auto.
Qed.

End SecurityLoop.

(** ** The classifier's result *)

Section ClassifierResult.

Import SecurityProcessor Traffic.

Lemma detect_threats_sublist (table : list (string * list string)) (text : string) :
  sublist (detect_threats table text) (map fst table).
Proof.
  induction table as [|[c pats] rest IH]; [constructor|].
  cbn [detect_threats map fst].
  destruct (any_pattern pats text); now constructor.
Qed.

(** X4: whatever the event, the categories reported are distinct and come
    in the order of the pattern table, so there are at most five; the risk
    score is 25 per category up to four categories and 100 for four or
    five, hence one of 0, 25, 50, 75, 100; and it exceeds 50 exactly when
    at least three categories matched. *)
Theorem classify_threat_risk_levels (now : string) (event_data : Py.json) :
  let r := classify_threat now event_data in
  let n := length (threats_detected r) in
  sublist (threats_detected r)
          ["failed_login"; "malware"; "network_anomaly";
           "privilege_escalation"; "data_exfiltration"] /\
  NoDup (threats_detected r) /\
  (n <= 5)%nat /\
  ((n <= 4)%nat -> risk_score r = (25 * Z.of_nat n)%Z) /\
  ((4 <= n)%nat -> risk_score r = 100%Z) /\
  In (risk_score r) [0; 25; 50; 75; 100]%Z /\
  ((50 < risk_score r)%Z <-> (3 <= n)%nat).
Proof.
  intros r n.
  assert (sublist (threats_detected r) (map fst threat_patterns) /\
          risk_score r = Z.min 100 (25 * Z.of_nat n)) as [Hsub Hrisk].
  { subst n r. destruct (Py.dumps event_data) as [e|text] eqn:E.
    - unfold classify_threat. rewrite E. cbn. split; [apply sublist_nil_l | reflexivity].
    - rewrite (classify_threat_normal now event_data text E). cbn zeta.
      cbn [threats_detected risk_score]. split; [apply detect_threats_sublist|].
      destruct (Z.ltb_spec 100 (Z.of_nat (length
        (detect_threats threat_patterns (Py.lower text))) * 25)); lia. }
  assert (NoDup (map fst threat_patterns)) as Hnd.
  { apply (bool_decide_unpack _). vm_compute. exact I. }
  assert (n <= 5)%nat as Hn.
  { apply sublist_length in Hsub. exact Hsub. }
  split; [exact Hsub|]. split; [eapply sublist_NoDup; eassumption|].
  split; [exact Hn|]. rewrite Hrisk.
  split; [intros; lia|]. split; [intros; lia|]. split; [|lia].
  destruct n as [|[|[|[|[|[|k]]]]]]; cbn; try lia; auto 10.
Qed.

End ClassifierResult.

(** ** From a security event to the notification channels *)

Section EndToEnd.

Import SecurityProcessor.

Lemma classify_threat_levels (now : string) (event_data : Py.json) (text : string) :
  Py.dumps event_data = inr text ->
  let cls := classify_threat now event_data in
  let n := length (detect_threats threat_patterns (Py.lower text)) in
  threats_detected cls = detect_threats threat_patterns (Py.lower text) /\
  risk_score cls = Z.min 100 (25 * Z.of_nat n) /\
  (n = 0%nat -> severity cls = "low") /\
  (n = 1%nat -> severity cls = "medium") /\
  ((2 <= n)%nat -> severity cls = "high").
Proof.
  intros H cls n. subst cls.
  rewrite (classify_threat_normal now event_data text H). cbn zeta.
  cbn [threats_detected risk_score severity]. fold n.
  split; [reflexivity|]. split.
  - destruct (Z.ltb_spec 100 (Z.of_nat n * 25)); lia.
  - destruct n as [|[|k]]; repeat split; intros; try lia; reflexivity.
Qed.

(** The lambda invocations [process_event] adds for a non-empty object
    whose customer id is a string. *)
Lemma process_event_invocations (clk : clock) (put_ok invoke_ok : bool) (st : state)
      (members : list (string * Py.json)) (text cust : string) :
  members <> [] ->
  Py.dumps (Py.JObj members) = inr text ->
  get members "customer_id" (Py.JStr "unknown") = Py.JStr cust ->
  let cls := classify_threat (isoformat clk) (Py.JObj members) in
  let n := length (detect_threats threat_patterns (Py.lower text)) in
  invocations (process_event clk put_ok invoke_ok st (Py.JObj members)) =
  if (0 <? n)%nat && invoke_ok
  then (invocations st ++
        [{| ap_severity := severity cls;
            ap_risk_score := risk_score cls;
            ap_threats := threats_detected cls;
            ap_customer_id := Py.JStr cust;
            ap_event_id :=
              "sec_" ++ Py.str_of_Z (epoch_ms clk) ++ "_"
              ++ Py.str_of_nat (processed_count st);
            ap_timestamp := isoformat clk |}])%list
  else invocations st.
Proof.
  intros Hne Hd Hc cls n.
  destruct (classify_threat_levels (isoformat clk) (Py.JObj members) text Hd)
    as (_ & _ & H0 & H1 & H2). fold cls n in H0, H1, H2.
  unfold process_event. cbn [enrich_event Exc.ret]. fold cls. rewrite Hc.
  match goal with
  | |- context [store_in_s3 put_ok st ?e] =>
      set (ev := e);
      pose proof (store_in_s3_keeps put_ok st ev) as Hs;
      destruct (store_in_s3 put_ok st ev) as [st1 key]
  end.
  cbn [fst] in Hs. destruct Hs as (Hp & _ & Hi & _).
  destruct n as [|[|k]].
  - rewrite H0 by reflexivity. cbn. exact Hi.
  - rewrite H1 by reflexivity. cbn [String.eqb Ascii.eqb Bool.eqb orb andb Nat.ltb Nat.leb].
    unfold trigger_alert. subst ev. cbn [threat_analysis customer_id].
    rewrite H1 by reflexivity.
    cbn [String.eqb Ascii.eqb Bool.eqb orb Py.dumps Exc.ret].
    destruct invoke_ok; cbn [invocations event_id processing_timestamp]; [|exact Hi].
    now rewrite Hi.
  - rewrite H2 by lia. cbn [String.eqb Ascii.eqb Bool.eqb orb andb Nat.ltb Nat.leb].
    unfold trigger_alert. subst ev. cbn [threat_analysis customer_id].
    rewrite H2 by lia.
    cbn [String.eqb Ascii.eqb Bool.eqb orb Py.dumps Exc.ret].
    destruct invoke_ok; cbn [invocations event_id processing_timestamp]; [|exact Hi].
    now rewrite Hi.
Qed.

(** X5: from an event to the channels.  For a non-empty JSON object that
    can be serialised and whose customer id is a string, with [n]
    categories matched and the lambda invocation succeeding: no category,
    no invocation; otherwise exactly one invocation, on which the alert
    lambda sends SNS at MEDIUM only for one category, SNS and e-mail at
    HIGH for two or three, and SNS and e-mail at CRITICAL plus an incident
    ticket for four or five, then stores one record and emits one
    CloudWatch metric. *)
Theorem security_event_to_channels
        (clk : clock) (put_ok : bool) (st : state)
        (members : list (string * Py.json)) (text cust : string)
        (now_iso : string) (epoch_s : Z)
        (sink : AlertGenerator.channel_call -> string) :
  members <> [] ->
  Py.dumps (Py.JObj members) = inr text ->
  get members "customer_id" (Py.JStr "unknown") = Py.JStr cust ->
  let n := length (detect_threats threat_patterns (Py.lower text)) in
  let st' := process_event clk put_ok true st (Py.JObj members) in
  (n = 0%nat -> invocations st' = invocations st) /\
  ((1 <= n)%nat ->
   exists p calls actions,
     invocations st' = (invocations st ++ [p])%list /\
     fst (AlertDispatch.lambda_handler now_iso epoch_s sink
            (AlertDispatch.event_of_payload p cust)) =
     (map AlertDispatch.notify calls ++
      [AlertDispatch.store_alert_record ("sec_" ++ Py.str_of_Z epoch_s) actions;
       AlertDispatch.send_cloudwatch_metric "security_threat" (ap_severity p) cust])%list /\
     length actions = length calls /\
     (n = 1%nat ->
      calls = [AlertGenerator.send_sns_notification "MEDIUM"]) /\
     ((2 <= n <= 3)%nat ->
      calls = [AlertGenerator.send_sns_notification "HIGH";
               AlertGenerator.send_email_notification cust "HIGH"]) /\
     ((4 <= n)%nat ->
      calls = [AlertGenerator.send_sns_notification "CRITICAL";
               AlertGenerator.send_email_notification cust "CRITICAL";
               AlertGenerator.create_incident_ticket])).
Proof.
  intros Hne Hd Hc n st'. subst st'.
  rewrite (process_event_invocations clk put_ok true st members text cust Hne Hd Hc).
  fold n.
  destruct (classify_threat_levels (isoformat clk) (Py.JObj members) text Hd)
    as (_ & Hrisk & _ & H1 & H2). fold n in Hrisk, H1, H2.
  set (cls := classify_threat (isoformat clk) (Py.JObj members)) in *.
  split.
  - intros ->. reflexivity.
  - intros Hn. destruct (Nat.ltb_spec 0 n) as [_|?]; [|lia]. cbn [andb].
    assert (n = 1 \/ 2 <= n <= 3 \/ 4 <= n)%nat as [E|[E|E]] by lia;
      eexists; eexists; eexists; (split; [reflexivity|]);
      unfold AlertDispatch.lambda_handler, AlertDispatch.security_alert,
        AlertGenerator.process_security_alert, AlertDispatch.event_of_payload;
      cbn [AlertDispatch.alert_type AlertDispatch.security AlertGenerator.severity
           AlertGenerator.risk_score AlertGenerator.threats AlertGenerator.customer_id
           AlertGenerator.event_id from_option id ap_severity ap_risk_score
           ap_threats ap_event_id String.eqb Ascii.eqb Bool.eqb fst snd
           AlertGenerator.alert_id AlertGenerator.actions_taken
           AlertDispatch.alert_id AlertDispatch.actions_taken];
      rewrite Hrisk.
    + rewrite (H1 E).
      destruct (Z.ltb_spec 80 (Z.min 100 (25 * Z.of_nat n))) as [?|_]; [lia|].
      destruct (Z.ltb_spec 60 (Z.min 100 (25 * Z.of_nat n))) as [?|_]; [lia|].
      cbn [String.eqb Ascii.eqb Bool.eqb orb fst snd
           AlertGenerator.alert_id AlertGenerator.actions_taken].
      rewrite <- app_assoc. split; [reflexivity|].
      split; [now rewrite length_map|].
      repeat split; intros; try lia; reflexivity.
    + rewrite (H2 ltac:(lia)).
      destruct (Z.ltb_spec 80 (Z.min 100 (25 * Z.of_nat n))) as [?|_]; [lia|].
      cbn [String.eqb Ascii.eqb Bool.eqb orb fst snd
           AlertGenerator.alert_id AlertGenerator.actions_taken].
      rewrite <- app_assoc. split; [reflexivity|].
      split; [now rewrite length_map|].
      repeat split; intros; try lia; reflexivity.
    + rewrite (H2 ltac:(lia)).
      destruct (Z.ltb_spec 80 (Z.min 100 (25 * Z.of_nat n))) as [_|?]; [|lia].
      cbn [String.eqb Ascii.eqb Bool.eqb orb fst snd
           AlertGenerator.alert_id AlertGenerator.actions_taken].
      rewrite <- app_assoc. split; [reflexivity|].
      split; [now rewrite length_map|].
      repeat split; intros; try lia; reflexivity.
Qed.

End EndToEnd.

Lemma security_event_to_channels_witness :
  exists p,
    SecurityProcessor.invocations
      (SecurityProcessor.process_event security_noon true true SecurityProcessor.init
         (Py.JObj [("customer_id", Py.JStr "acme");
                   ("message", Py.JStr "Trojan found after a port scan")]))
    = [p].
Proof.
  destruct (security_event_to_channels security_noon true SecurityProcessor.init
              [("customer_id", Py.JStr "acme");
               ("message", Py.JStr "Trojan found after a port scan")]
              _ "acme" "2025-01-01T12:00:01+00:00" 1735732801
              Routing.confirming_sink
              ltac:(discriminate) ltac:(vm_compute; reflexivity)
              ltac:(reflexivity)) as [_ H].
  destruct (H ltac:(vm_compute; lia)) as (p & calls & actions & Hp & _).
  exists p. exact Hp.
Defined.

(** ** Keywords in the fields of an event *)

Section Keywords.

Import SecurityProcessor Traffic.

Lemma string_app_cons (x : ascii) (a b : string) :
  String x a ++ b = String x (a ++ b).
Proof. reflexivity. Qed.

Lemma string_app_nil (b : string) : "" ++ b = b.
Proof. reflexivity. Qed.

Lemma string_app_assoc (a b c : string) : (a ++ b) ++ c = a ++ (b ++ c).
Proof.
  induction a as [|x a IH]; [reflexivity|].
  rewrite !string_app_cons. f_equal. exact IH.
Qed.

Lemma prefix_app (p b : string) : String.prefix p (p ++ b) = true.
Proof.
  induction p as [|x p IH]; [now destruct b|].
  rewrite string_app_cons. cbn [String.prefix].
  destruct (ascii_dec x x); [exact IH | congruence].
Qed.

Lemma contains_here (p b : string) : Py.contains p (p ++ b) = true.
Proof.
  pose proof (prefix_app p b) as H.
  destruct (p ++ b); cbn [Py.contains]; rewrite H; reflexivity.
Qed.

Lemma contains_later (p a s : string) :
  Py.contains p s = true -> Py.contains p (a ++ s) = true.
Proof.
  intros H. induction a as [|x a IH]; [exact H|].
  rewrite string_app_cons. cbn [Py.contains]. rewrite IH. apply orb_true_r.
Qed.

Lemma prefix_split (p s : string) :
  String.prefix p s = true -> exists b, s = p ++ b.
Proof.
  revert s. induction p as [|x p IH]; intros s H; [now exists s|].
  destruct s as [|y s]; [discriminate H|]. cbn in H.
  destruct (ascii_dec x y) as [->|]; [|discriminate H].
  destruct (IH s H) as [b ->]. now exists b.
Qed.

Lemma contains_split (p s : string) :
  Py.contains p s = true -> exists a b, s = a ++ p ++ b.
Proof.
  induction s as [|x s IH]; cbn [Py.contains]; intros H.
  - rewrite orb_false_r in H. destruct (prefix_split _ _ H) as [b Hb].
    exists "", b. exact Hb.
  - apply orb_true_iff in H as [H|H].
    + destruct (prefix_split _ _ H) as [b Hb]. exists "", b. exact Hb.
    + destruct (IH H) as (a & b & ->). now exists (String x a), b.
Qed.

Lemma contains_within (p a s b : string) :
  Py.contains p s = true -> Py.contains p (a ++ s ++ b) = true.
Proof.
  intros H. destruct (contains_split p s H) as (u & v & ->).
  apply contains_later. rewrite !string_app_assoc.
  apply contains_later. apply contains_here.
Qed.

Lemma lower_app (a b : string) : Py.lower (a ++ b) = Py.lower a ++ Py.lower b.
Proof.
  induction a as [|x a IH]; [reflexivity|].
  rewrite string_app_cons. cbn [Py.lower]. rewrite string_app_cons.
  f_equal. exact IH.
Qed.

Lemma lower_split (s a b : string) :
  Py.lower s = a ++ b ->
  exists a' b', s = a' ++ b' /\ Py.lower a' = a /\ Py.lower b' = b.
Proof.
  revert s. induction a as [|x a IH]; intros s H.
  - exists "", s. auto.
  - destruct s as [|y s]; [discriminate H|].
    rewrite string_app_cons in H. cbn [Py.lower] in H.
    injection H as Hx Hs. destruct (IH s Hs) as (a' & b' & -> & Ha & Hb).
    exists (String y a'), b'. cbn [Py.lower]. rewrite Ha, Hx. auto.
Qed.

Lemma escape_body_app (a b : string) :
  Py.escape_body (a ++ b) = Py.escape_body a ++ Py.escape_body b.
Proof.
  induction a as [|x a IH]; [reflexivity|].
  rewrite string_app_cons. cbn [Py.escape_body].
  now rewrite IH, string_app_assoc.
Qed.

Lemma plain_lower (c : ascii) : plain (Py.lower_ascii c) = true -> plain c = true.
Proof.
  destruct c as [[] [] [] [] [] [] [] []]; vm_compute; intros H;
    first [reflexivity | discriminate H].
Qed.

Lemma plain_escape (c : ascii) : plain c = true -> Py.escape_char c = String c "".
Proof.
  destruct c as [[] [] [] [] [] [] [] []]; vm_compute; intros H;
    first [reflexivity | discriminate H].
Qed.

(** A stretch of text that lowers to plain characters is written by the
    encoder as it is. *)
Lemma escape_body_plain (m : string) :
  all_plain (Py.lower m) = true -> Py.escape_body m = m.
Proof.
  induction m as [|c m IH]; [reflexivity|].
  cbn [Py.lower all_plain Py.escape_body].
  intros H. apply andb_true_iff in H as [Hc Hm].
  rewrite (plain_escape c (plain_lower c Hc)), IH by exact Hm. reflexivity.
Qed.

Lemma contains_lower_escape (p s : string) :
  all_plain p = true ->
  Py.contains p (Py.lower s) = true ->
  Py.contains p (Py.lower (Py.escape_body s)) = true.
Proof.
  intros Hp H. destruct (contains_split _ _ H) as (a & b & Hs).
  destruct (lower_split s a (p ++ b) Hs) as (a' & r & -> & Ha & Hr).
  destruct (lower_split r p b Hr) as (m & b' & -> & Hm & Hb).
  rewrite !escape_body_app, !lower_app.
  rewrite (escape_body_plain m) by (now rewrite Hm).
  rewrite Hm. apply contains_later, contains_here.
Qed.

Lemma contains_lower_quote (p s : string) :
  all_plain p = true ->
  Py.contains p (Py.lower s) = true ->
  Py.contains p (Py.lower (Py.quote s)) = true.
Proof.
  intros Hp H. unfold Py.quote.
  change (String Py.dquote (Py.escape_body s ++ String Py.dquote ""))
    with (String Py.dquote "" ++ Py.escape_body s ++ String Py.dquote "").
  rewrite !lower_app. apply contains_within. now apply contains_lower_escape.
Qed.

Lemma contains_lower_join (p sep part : string) (parts : list string) :
  In part parts ->
  Py.contains p (Py.lower part) = true ->
  Py.contains p (Py.lower (Py.join sep parts)) = true.
Proof.
  intros Hin H. induction parts as [|x parts IH]; [destruct Hin|].
  destruct parts as [|y parts].
  - destruct Hin as [->|[]]. exact H.
  - change (Py.join sep (x :: y :: parts))
      with (x ++ sep ++ Py.join sep (y :: parts)).
    rewrite !lower_app. destruct Hin as [->|Hin].
    + destruct (contains_split _ _ H) as (a & b & ->).
      rewrite !string_app_assoc. apply contains_later, contains_here.
    + apply contains_later, contains_later. now apply IH.
Qed.

(** The chunks the encoder writes for the members of an object. *)
Lemma dumps_members_chunk (members : list (string * Py.json))
      (parts : list string) (k : string) (v : Py.json) :
  (fix each (l : list (string * Py.json)) : Exc.t (list string) :=
     match l with
     | [] => Exc.ret []
     | (k, x) :: r =>
         do a <- Py.dumps x; do b <- each r;
         Exc.ret ((Py.quote k ++ ": " ++ a) :: b)
     end) members = inr parts ->
  In (k, v) members ->
  exists a, Py.dumps v = inr a /\ In (Py.quote k ++ ": " ++ a) parts.
Proof.
  revert parts. induction members as [|[k' x] r IH]; intros parts H Hin;
    [destruct Hin|].
  destruct (Py.dumps x) as [e|a] eqn:Ex; [discriminate H|].
  cbn [Exc.bind] in H.
  match type of H with
  | Exc.bind ?m _ = _ => destruct m as [e|b] eqn:Er; [discriminate H|]
  end.
  cbn [Exc.bind Exc.ret] in H. injection H as <-.
  destruct Hin as [Heq|Hin].
  - injection Heq as -> ->. exists a. split; [exact Ex | now left].
  - destruct (IH b eq_refl Hin) as (a' & Ha' & Hin'). exists a'.
    split; [exact Ha' | now right].
Qed.

Lemma dumps_object_member (members : list (string * Py.json)) (text k : string)
      (v : Py.json) :
  Py.dumps (Py.JObj members) = inr text ->
  In (k, v) members ->
  exists a parts,
    Py.dumps v = inr a /\
    In (Py.quote k ++ ": " ++ a) parts /\
    text = "{" ++ Py.join ", " parts ++ "}".
Proof.
  intros H Hin. cbn [Py.dumps] in H.
  match type of H with
  | Exc.bind ?m _ = _ => destruct m as [e|parts] eqn:E; [discriminate H|]
  end.
  cbn [Exc.bind Exc.ret] in H. injection H as <-.
  destruct (dumps_members_chunk members parts k v E Hin) as (a & Ha & Hp).
  exists a, parts. auto.
Qed.

Lemma table_patterns_plain (c p : string) (patterns : list string) :
  In (c, patterns) threat_patterns -> In p patterns -> all_plain p = true.
Proof.
  intros Hc Hp.
  assert (forallb (fun entry => forallb all_plain (snd entry)) threat_patterns = true)
    as H by (vm_compute; reflexivity).
  rewrite forallb_forall in H. specialize (H _ Hc). cbn [snd] in H.
  rewrite forallb_forall in H. now apply H.
Qed.

(** X6: a keyword of the table that occurs, in any letter case, in a
    string value of the event or in one of its keys is found: its
    category is among the threats reported.  (The event is a JSON object
    the encoder accepts; the value or key is one of its members.) *)
Theorem keyword_in_field_is_detected
        (now : string) (members : list (string * Py.json)) (text : string)
        (k : string) (v : Py.json) (c p : string) (patterns : list string) :
  Py.dumps (Py.JObj members) = inr text ->
  In (k, v) members ->
  In (c, patterns) threat_patterns ->
  In p patterns ->
  (Py.contains p (Py.lower k) = true \/
   exists s, v = Py.JStr s /\ Py.contains p (Py.lower s) = true) ->
  In c (threats_detected (classify_threat now (Py.JObj members))).
Proof.
  intros Hd Hin Hc Hp Hocc.
  pose proof (table_patterns_plain c p patterns Hc Hp) as Hplain.
  rewrite (classify_threat_normal now _ text Hd). cbn zeta.
  cbn [threats_detected]. apply detect_threats_spec.
  exists patterns, p. split; [exact Hc|]. split; [exact Hp|].
  destruct (dumps_object_member members text k v Hd Hin)
    as (a & parts & Ha & Hpart & ->).
  rewrite !lower_app. apply contains_within.
  apply (contains_lower_join p ", " _ parts Hpart).
  rewrite !lower_app. destruct Hocc as [Hk|(s & -> & Hs)].
  - destruct (contains_split _ _ (contains_lower_quote p k Hplain Hk))
      as (x & y & ->).
    rewrite !string_app_assoc. apply contains_later, contains_here.
  - cbn [Py.dumps Exc.ret] in Ha. injection Ha as <-.
    apply contains_later, contains_later. now apply contains_lower_quote.
Qed.

End Keywords.

Lemma keyword_in_field_is_detected_witness :
  In "malware"
     (SecurityProcessor.threats_detected
        (SecurityProcessor.classify_threat "t"
           (Py.JObj [("note", Py.JStr "A TROJAN was quarantined")]))).
Proof.
  eapply (keyword_in_field_is_detected "t"
           [("note", Py.JStr "A TROJAN was quarantined")] _
           "note" (Py.JStr "A TROJAN was quarantined") "malware" "trojan"
           ["virus detected"; "trojan"; "malware"; "suspicious file"]).
  - vm_compute. reflexivity.
  - now left.
  - right. now left.
  - right. now left.
  - right. eexists. split; [reflexivity | vm_compute; reflexivity].
Defined.

(** ** The metrics processor's main loop *)

Section MetricsLoop.

Import MetricsProcessor Arrivals.

Variable sqrt : Q -> Q.

Lemma set_history_same (st : state) (c m : string) :
  forall c' m',
    get_history (set_history st c m (get_history st c m)) c' m'
    = get_history st c' m'.
Proof.
  intros c' m'. destruct (decide ((c, m) = (c', m'))) as [E|N].
  - injection E as <- <-. apply get_history_set_history.
  - apply get_history_set_history_other. congruence.
Qed.

(** A value [float] rejects: only the entry of the pair is created. *)
Lemma update_baseline_invalid (now : string) (st : state) (c m : string)
      (v : pyvalue) (e : string) :
  float v = inl e ->
  update_baseline sqrt now st c m v = set_history st c m (get_history st c m).
Proof. intros H. unfold update_baseline. rewrite H. reflexivity. Qed.

Lemma update_baseline_windows (now : string) (st : state) (c m : string)
      (v : pyvalue) :
  metrics_windows (update_baseline sqrt now st c m v) = metrics_windows st /\
  processed_count (update_baseline sqrt now st c m v) = processed_count st.
Proof.
  destruct v as [|q|msg].
  - rewrite (update_baseline_invalid now st c m VNone _ eq_refl). now split.
  - destruct (update_baseline_number sqrt now st c m q) as (W & P & _). now split.
  - rewrite (update_baseline_invalid now st c m (VBad msg) _ eq_refl). now split.
Qed.

Lemma process_metric_windows (clk : clock) (put_ok : bool) (st : state)
      (md : metric) :
  metrics_windows (process_metric sqrt clk put_ok st md)
  = map (fun w => (fst w, deque_append (snd w) (md, isoformat clk)))
        (metrics_windows st).
Proof.
  unfold process_metric. cbn zeta. cbn [metrics_windows].
  unfold store_in_s3_bronze. destruct put_ok; cbn [metrics_windows];
    now rewrite (proj1 (update_baseline_windows _ _ _ _ _)).
Qed.

Lemma process_metric_count (clk : clock) (put_ok : bool) (st : state)
      (md : metric) :
  processed_count (process_metric sqrt clk put_ok st md) = S (processed_count st).
Proof.
  unfold process_metric. cbn zeta. cbn [processed_count].
  unfold store_in_s3_bronze. destruct put_ok; cbn [processed_count];
    now rewrite (proj2 (update_baseline_windows _ _ _ _ _)).
Qed.

Lemma last_n_snoc {A : Type} (k : nat) (l : list A) (x : A) :
  (0 < k)%nat ->
  drop (length (last_n k l ++ [x]) - k) (last_n k l ++ [x]) = last_n k (l ++ [x]).
Proof.
  intros Hk. unfold last_n. rewrite !length_app, length_drop. cbn [length].
  destruct (le_lt_dec (length l) k) as [L|G].
  - replace (length l - k)%nat with 0%nat by lia. cbn [drop].
    f_equal. lia.
  - replace (length l - (length l - k) + 1 - k)%nat with 1%nat by lia.
    replace (length l + 1 - k)%nat with (S (length l - k)) by lia.
    rewrite (drop_app_le l [x] (S (length l - k))) by lia.
    rewrite (drop_app_le (drop (length l - k) l) [x] 1)
      by (rewrite length_drop; lia).
    f_equal. rewrite drop_drop. f_equal. lia.
Qed.

Lemma process_arrivals_snoc (st : state) (l : list arrival) (a : arrival) :
  process_arrivals sqrt st (l ++ [a])
  = process_arrival sqrt (process_arrivals sqrt st l) a.
Proof. unfold process_arrivals. now rewrite fold_left_app. Qed.

Lemma windows_after_arrivals (l : list arrival) :
  metrics_windows (process_arrivals sqrt init l) =
  [("1min", Deque _ 60 (last_n 60 (map windowed l)));
   ("5min", Deque _ 300 (last_n 300 (map windowed l)));
   ("15min", Deque _ 900 (last_n 900 (map windowed l)))].
Proof.
  induction l as [|a l IH] using rev_ind; [reflexivity|].
  rewrite process_arrivals_snoc. unfold process_arrival.
  rewrite process_metric_windows, IH, map_app.
  cbn [map fst snd]. unfold deque_append. cbn [items maxlen].
  change (a_metric a, isoformat (a_clock a)) with (windowed a).
  now rewrite !last_n_snoc by lia.
Qed.

Lemma last_n_length {A : Type} (k : nat) (l : list A) :
  length (last_n k l) = Nat.min (length l) k.
Proof. unfold last_n. rewrite length_drop. lia. Qed.

(** X7: each rolling window holds the latest messages, oldest first, up
    to its capacity: the last 60, 300 and 900 of all the messages
    processed, whatever their values and the outcome of the store.  The
    windows are measured in messages, not in minutes. *)
Theorem windows_hold_latest (l : list arrival) :
  let windows := metrics_windows (process_arrivals sqrt init l) in
  windows =
  [("1min", Deque _ 60 (last_n 60 (map windowed l)));
   ("5min", Deque _ 300 (last_n 300 (map windowed l)));
   ("15min", Deque _ 900 (last_n 900 (map windowed l)))] /\
  map (fun w => length (items _ (snd w))) windows =
  [Nat.min (length l) 60; Nat.min (length l) 300; Nat.min (length l) 900].
Proof.
  cbn zeta. rewrite windows_after_arrivals. split; [reflexivity|].
  cbn [map snd items]. now rewrite !last_n_length, !length_map.
Qed.

Lemma process_metric_bronze (clk : clock) (put_ok : bool) (st : state)
      (md : metric) :
  map (fun o => original_metric (snd o))
      (s3_bronze (process_metric sqrt clk put_ok st md))
  = (map (fun o => original_metric (snd o)) (s3_bronze st)
     ++ (if put_ok then [md] else []))%list.
Proof.
  unfold process_metric. cbn zeta. cbn [s3_bronze].
  unfold store_in_s3_bronze. destruct put_ok; cbn [s3_bronze].
  - rewrite update_baseline_s3_bronze. cbn [s3_bronze].
    rewrite map_app. reflexivity.
  - rewrite update_baseline_s3_bronze. cbn [s3_bronze].
    now rewrite app_nil_r.
Qed.

Lemma process_arrivals_bronze (l : list arrival) :
  let st := process_arrivals sqrt init l in
  processed_count st = length l /\
  map (fun o => original_metric (snd o)) (s3_bronze st)
  = map a_metric (List.filter a_put_ok l).
Proof.
  cbn zeta. induction l as [|a l [IHc IHb]] using rev_ind; [now split|].
  rewrite process_arrivals_snoc. unfold process_arrival. split.
  - rewrite process_metric_count, IHc, length_app. cbn [length]. lia.
  - rewrite process_metric_bronze, IHb, List.filter_app, map_app.
    cbn [List.filter]. now destruct (a_put_ok a).
Qed.

(** The loop treats the non-empty objects as [process_metric] does and
    passes over the rest. *)
Lemma run_steps_objects (l : list received) (st : state) :
  fold_left (run_step sqrt) l st = process_arrivals sqrt st (objects l).
Proof.
  revert st. induction l as [|r l IH]; intros st; [reflexivity|].
  cbn [fold_left objects flat_map]. fold (objects l). rewrite IH.
  unfold run_step.
  destruct (r_value r) as [| |m]; cbn [app]; try reflexivity.
Qed.

Lemma objects_length (l : list received) : (length (objects l) <= length l)%nat.
Proof.
  induction l as [|r l IH]; [reflexivity|].
  cbn [objects flat_map]. fold (objects l). rewrite length_app.
  destruct (r_value r); cbn [length]; lia.
Qed.

(** X8: over any sequence of messages the main loop receives,
    [processed_count] is the number of those that are non-empty JSON
    objects, and the bronze bucket holds, in arrival order, one object
    for each of them whose write succeeded, carrying the message as it
    came; whether its value was usable plays no part.  A message that is
    not a non-empty object (a false value, which [run] skips, or a true
    value that is no dict, on which [process_metric] fails at once and
    logs) changes nothing and is not counted. *)
Theorem bronze_holds_every_stored_message (l : list received) :
  let st := run sqrt l in
  processed_count st = length (objects l) /\
  map (fun o => original_metric (snd o)) (s3_bronze st)
  = map a_metric (List.filter a_put_ok (objects l)) /\
  (length (s3_bronze st) <= processed_count st <= length l)%nat /\
  (forall st0 r, (forall m, r_value r <> Object m) -> run_step sqrt st0 r = st0).
Proof.
  cbn zeta. unfold run. rewrite run_steps_objects.
  destruct (process_arrivals_bronze (objects l)) as [Hc Hb].
  split; [exact Hc|]. split; [exact Hb|]. split.
  - pose proof (f_equal (@length _) Hb) as Hl. rewrite !length_map in Hl.
    pose proof (List.filter_length_le a_put_ok (objects l)).
    pose proof (objects_length l). lia.
  - intros st0 r Hr. unfold run_step.
    destruct (r_value r) as [| |m]; try reflexivity.
    now destruct (Hr m).
Qed.

(** Two states that differ in the bronze objects only. *)
Lemma process_metric_put_outcome (clk : clock) (o1 o2 : bool) (s1 s2 : state)
      (md : metric) :
  metrics_windows s1 = metrics_windows s2 ->
  customer_metrics s1 = customer_metrics s2 ->
  baseline_metrics s1 = baseline_metrics s2 ->
  let t1 := process_metric sqrt clk o1 s1 md in
  let t2 := process_metric sqrt clk o2 s2 md in
  metrics_windows t1 = metrics_windows t2 /\
  customer_metrics t1 = customer_metrics t2 /\
  baseline_metrics t1 = baseline_metrics t2.
Proof.
  intros W C B. cbn zeta.
  rewrite !process_metric_windows, W. split; [reflexivity|].
  destruct s1 as [w1 c1 b1 p1 z1], s2 as [w2 c2 b2 p2 z2].
  cbn [customer_metrics baseline_metrics] in C, B. subst c2 b2.
  unfold process_metric. cbn zeta.
  unfold store_in_s3_bronze.
  destruct o1, o2; cbn [customer_metrics baseline_metrics];
    unfold update_baseline, set_history, set_baseline, get_history;
    cbn [customer_metrics baseline_metrics metrics_windows processed_count s3_bronze];
    destruct (float (get_value_or_0 md)) as [e|v];
    cbn [customer_metrics baseline_metrics]; try (split; reflexivity);
    repeat match goal with
           | |- context [if ?b then _ else _] => destruct b
           end;
    unfold Exc.try_except, Exc.bind, Exc.ret;
    repeat match goal with
           | |- context [mean ?l] => destruct (mean l)
           | |- context [stdev ?f ?l] => destruct (stdev f l)
           | |- context [py_min ?l] => destruct (py_min l)
           | |- context [py_max ?l] => destruct (py_max l)
           end;
    cbn [customer_metrics baseline_metrics]; split; reflexivity.
Qed.

(** X9: a failing write to the bronze bucket loses the object and
    nothing else: the rolling windows, the histories, the baselines and
    the count of processed messages are what they are when every write
    succeeds (or when every write fails). *)
Theorem learning_independent_of_store (o : bool) (l : list arrival) :
  let st := process_arrivals sqrt init l in
  let st' := process_arrivals sqrt init (map (with_put_outcome o) l) in
  metrics_windows st' = metrics_windows st /\
  customer_metrics st' = customer_metrics st /\
  baseline_metrics st' = baseline_metrics st /\
  processed_count st' = processed_count st.
Proof.
  cbn zeta. induction l as [|a l (W & C & B & P)] using rev_ind;
    [repeat split|].
  rewrite map_app. cbn [map]. rewrite !process_arrivals_snoc.
  unfold process_arrival. cbn [with_put_outcome a_clock a_put_ok a_metric].
  destruct (process_metric_put_outcome (a_clock a) o (a_put_ok a) _ _
              (a_metric a) W C B) as (W' & C' & B').
  rewrite !process_metric_count, P. auto.
Qed.

Lemma process_metric_invalid_value (clk : clock) (put_ok : bool) (st : state)
      (md : metric) (e : string) :
  float (get_value_or_0 md) = inl e ->
  baseline_metrics (process_metric sqrt clk put_ok st md) = baseline_metrics st /\
  forall c m,
    get_history (process_metric sqrt clk put_ok st md) c m = get_history st c m.
Proof.
  intros H. unfold process_metric. cbn zeta.
  rewrite (update_baseline_invalid _ _ _ _ _ e H).
  unfold store_in_s3_bronze.
  destruct put_ok; cbn [baseline_metrics set_history]; (split; [reflexivity|]);
    intros c m;
    match goal with
    | |- get_history ?a c m = get_history st c m =>
        rewrite (get_history_customer_metrics a
                   (set_history st (default "unknown" (customer_id md))
                                (default "unknown" (metric_type md))
                                (get_history st (default "unknown" (customer_id md))
                                             (default "unknown" (metric_type md))))
                   c m) by reflexivity
    end; apply set_history_same.
Qed.

Lemma detect_anomalies_invalid_value (st : state) (md : metric) (c m e : string) :
  float (get_value_or_0 md) = inl e ->
  detect_anomalies st md c m =
  {| is_anomaly := false;
     severity := "unknown";
     z_score := None;
     baseline_avg := None;
     baseline_stddev := None;
     current_value := None;
     deviation_percent := None;
     baseline_available := None;
     error := Some e |}.
Proof. intros H. unfold detect_anomalies. rewrite H. reflexivity. Qed.

(** X10: a message whose value [float] rejects (a JSON [null], a text
    that is no number, a list) is not dropped: it is counted and written
    to the bronze bucket, marked 'unknown' with the text of the error and
    never as an anomaly, and it teaches nothing: no history and no
    baseline changes. *)
Theorem invalid_value_is_stored_not_learned
        (clk : clock) (st : state) (md : metric) (e : string) :
  float (get_value_or_0 md) = inl e ->
  let st' := process_metric sqrt clk true st md in
  processed_count st' = S (processed_count st) /\
  baseline_metrics st' = baseline_metrics st /\
  (forall c m, get_history st' c m = get_history st c m) /\
  exists s3_key object,
    s3_bronze st' = (s3_bronze st ++ [(s3_key, object)])%list /\
    original_metric object = md /\
    severity (em_anomaly_analysis object) = "unknown" /\
    is_anomaly (em_anomaly_analysis object) = false /\
    error (em_anomaly_analysis object) = Some e.
Proof.
  intros H. cbn zeta.
  destruct (process_metric_invalid_value clk true st md e H) as [B Hh].
  destruct (process_metric_stored sqrt clk st md) as (k & o & S3 & Ho & Ha).
  split; [apply process_metric_count|]. split; [exact B|]. split; [exact Hh|].
  exists k, o. split; [exact S3|]. split; [exact Ho|].
  rewrite Ha, (detect_anomalies_invalid_value _ _ _ _ e H). auto.
Qed.

Lemma appended_last_n (h : list history_entry) (v : Q) (now : string) :
  Updates.appended h v now = last_n 1000 (h ++ [HistoryEntry (Qred v) now])%list.
Proof.
  unfold Updates.appended, last_n.
  destruct (Nat.ltb_spec 1000 (length (h ++ [HistoryEntry (Qred v) now])))
    as [G|L]; [reflexivity|].
  now replace (length (h ++ [HistoryEntry (Qred v) now]) - 1000)%nat
    with 0%nat by lia.
Qed.

(** X11: a message that has no ['value'] key at all is treated as the
    sample 0 by the baseline: the history of its pair grows by the value
    0, and against an existing baseline it is scored as the value 0.
    The aggregator, by contrast, leaves such a message out. *)
Theorem missing_value_is_learned_as_zero
        (clk : clock) (st : state) (md : metric) :
  value md = None ->
  let c := customer_of md in
  let m := type_of md in
  get_history (process_metric sqrt clk true st md) c m
  = last_n 1000 (get_history st c m ++ [HistoryEntry 0 (isoformat clk)])%list /\
  (forall b, baseline_metrics st !! baseline_key c m = Some b ->
             current_value (detect_anomalies st md c m) = Some 0%Q) /\
  (forall rest, collect_values (md :: rest) = collect_values rest).
Proof.
  intros H. cbn zeta.
  assert (get_value_or_0 md = VNum 0) as H0
    by (unfold get_value_or_0; now rewrite H).
  split; [|split].
  - unfold customer_of, type_of.
    rewrite (process_metric_history sqrt clk st md 0 H0).
    apply appended_last_n.
  - intros b Hb.
    rewrite (detect_anomalies_scored st md _ _ 0 b H0 Hb). reflexivity.
  - intros rest. cbn [collect_values]. unfold get_value. now rewrite H.
Qed.

(** What [process_metric] learns is what [update_baseline] makes of the
    state it is given. *)
Lemma process_metric_learning (clk : clock) (put_ok : bool) (st : state)
      (md : metric) :
  let st' := process_metric sqrt clk put_ok st md in
  let u := update_baseline sqrt (isoformat clk) st (customer_of md) (type_of md)
                           (get_value_or_0 md) in
  customer_metrics st' = customer_metrics u /\
  baseline_metrics st' = baseline_metrics u.
Proof.
  cbn zeta. destruct st as [w c b p z].
  unfold process_metric, customer_of, type_of. cbn zeta.
  unfold store_in_s3_bronze.
  destruct put_ok; cbn [customer_metrics baseline_metrics];
    unfold update_baseline, set_history, set_baseline, get_history;
    cbn [customer_metrics baseline_metrics metrics_windows processed_count s3_bronze];
    destruct (float (get_value_or_0 md)) as [e|v];
    cbn [customer_metrics baseline_metrics]; try (split; reflexivity);
    repeat match goal with
           | |- context [if ?b then _ else _] => destruct b
           end;
    unfold Exc.try_except, Exc.bind, Exc.ret;
    repeat match goal with
           | |- context [mean ?l] => destruct (mean l)
           | |- context [stdev ?f ?l] => destruct (stdev f l)
           | |- context [py_min ?l] => destruct (py_min l)
           | |- context [py_max ?l] => destruct (py_max l)
           end;
    cbn [customer_metrics baseline_metrics]; split; reflexivity.
Qed.

Lemma float_cases (v : pyvalue) :
  (exists q, v = VNum q /\ float v = inr (Qred q)) \/ (exists e, float v = inl e).
Proof. destruct v as [|q|msg]; [right|left|right]; eauto. Qed.

Lemma process_metric_history_step (clk : clock) (put_ok : bool) (st : state)
      (md : metric) (c m : string) :
  get_history (process_metric sqrt clk put_ok st md) c m
  = if String.eqb (customer_of md) c && String.eqb (type_of md) m
    then match float (get_value_or_0 md) with
         | inr v => last_n 1000 (get_history st c m ++ [HistoryEntry v (isoformat clk)])
         | inl _ => get_history st c m
         end
    else get_history st c m.
Proof.
  destruct (process_metric_learning clk put_ok st md) as [C _].
  rewrite (get_history_customer_metrics _ _ c m C).
  destruct (float_cases (get_value_or_0 md)) as [(q & Hq & Hf)|(e & He)].
  - rewrite Hf, Hq.
    destruct (update_baseline_number sqrt (isoformat clk) st (customer_of md)
                (type_of md) q) as (_ & _ & _ & C' & _).
    rewrite (get_history_customer_metrics _ _ c m C').
    destruct (String.eqb_spec (customer_of md) c) as [<-|Nc]; cbn [andb].
    + destruct (String.eqb_spec (type_of md) m) as [<-|Nm].
      * rewrite get_history_set_history. apply appended_last_n.
      * apply get_history_set_history_other. congruence.
    + apply get_history_set_history_other. congruence.
  - rewrite He, (update_baseline_invalid _ _ _ _ _ e He), set_history_same.
    now destruct (_ && _).
Qed.

Lemma last_n_last_n_snoc {A : Type} (k : nat) (l : list A) (x : A) :
  (0 < k)%nat -> last_n k (last_n k l ++ [x]) = last_n k (l ++ [x]).
Proof. intros Hk. exact (last_n_snoc k l x Hk). Qed.

Lemma history_after_arrivals (c m : string) (l : list arrival) :
  get_history (process_arrivals sqrt init l) c m = last_n 1000 (entries_of c m l).
Proof.
  induction l as [|a l IH] using rev_ind; [reflexivity|].
  rewrite process_arrivals_snoc. unfold process_arrival.
  rewrite process_metric_history_step, IH.
  unfold entries_of. rewrite flat_map_app. cbn [flat_map].
  rewrite app_nil_r. unfold entry_of.
  destruct (_ && _); [|now rewrite app_nil_r].
  destruct (float (get_value_or_0 (a_metric a))) as [e|v];
    [now rewrite app_nil_r|].
  apply last_n_last_n_snoc. lia.
Qed.

(** X12: the history of a pair (customer, metric type) is made of the
    values of its own messages that [float] accepts, in arrival order
    with the time each was processed, and holds the last 1000 of them;
    messages of other pairs, unusable values and failed writes leave it
    alone. *)
Theorem history_is_latest_thousand (c m : string) (l : list arrival) :
  let history := get_history (process_arrivals sqrt init l) c m in
  history = last_n 1000 (entries_of c m l) /\
  length history = Nat.min (length (entries_of c m l)) 1000.
Proof.
  cbn zeta. rewrite history_after_arrivals. split; [reflexivity|].
  apply last_n_length.
Qed.

Local Open Scope Q_scope.

Lemma inject_length_succ (n : nat) :
  inject_Z (Z.of_nat (S n)) == inject_Z (Z.of_nat n) + 1.
Proof. rewrite Nat2Z.inj_succ, <- Z.add_1_r, inject_Z_plus. reflexivity. Qed.

Lemma inject_length_pos (n : nat) : (0 < n)%nat -> 0 < inject_Z (Z.of_nat n).
Proof. intros H. unfold Qlt. cbn. lia. Qed.

Lemma fold_plus_lower (mn : Q) (l : list Q) (acc : Q) :
  (forall x, In x l -> mn <= x) ->
  acc + mn * inject_Z (Z.of_nat (length l)) <= fold_left Qplus l acc.
Proof.
  revert acc. induction l as [|x r IH]; intros acc H.
  - change (acc + mn * 0 <= acc). lra.
  - cbn [fold_left]. cbn [length]. rewrite inject_length_succ.
    pose proof (IH (acc + x) (fun y Hy => H y (or_intror Hy))) as IH'.
    pose proof (H x (or_introl eq_refl)) as Hx.
    lra.
Qed.

Lemma fold_plus_upper (mx : Q) (l : list Q) (acc : Q) :
  (forall x, In x l -> x <= mx) ->
  fold_left Qplus l acc <= acc + mx * inject_Z (Z.of_nat (length l)).
Proof.
  revert acc. induction l as [|x r IH]; intros acc H.
  - change (acc <= acc + mx * 0). lra.
  - cbn [fold_left]. cbn [length]. rewrite inject_length_succ.
    pose proof (IH (acc + x) (fun y Hy => H y (or_intror Hy))) as IH'.
    pose proof (H x (or_introl eq_refl)) as Hx.
    lra.
Qed.

Lemma mean_value (values : list Q) (avg : Q) :
  mean values = inr avg ->
  (0 < length values)%nat /\
  avg = Qred (fold_left Qplus values 0 / inject_Z (Z.of_nat (length values))).
Proof.
  destruct values as [|v r]; [discriminate|].
  intros [= <-]. split; [cbn [length]; lia | reflexivity].
Qed.

(** The mean lies between the smallest and the largest value. *)
Lemma mean_between (values : list Q) (avg mn mx : Q) :
  mean values = inr avg ->
  (forall x, In x values -> mn <= x) ->
  (forall x, In x values -> x <= mx) ->
  mn <= avg /\ avg <= mx.
Proof.
  intros Hm Hmn Hmx. destruct (mean_value values avg Hm) as [Hpos ->].
  pose proof (fold_plus_lower mn values 0 Hmn) as Hlo.
  pose proof (fold_plus_upper mx values 0 Hmx) as Hhi.
  pose proof (inject_length_pos _ Hpos) as Hn.
  remember (inject_Z (Z.of_nat (length values))) as n eqn:En. clear En.
  remember (fold_left Qplus values 0) as total eqn:Et. clear Et.
  rewrite Qred_correct. split.
  - apply Qle_shift_div_l; [exact Hn | lra].
  - apply Qle_shift_div_r; [exact Hn | lra].
Qed.

Lemma statistics_between (values : list Q) (avg mn mx : Q) :
  mean values = inr avg -> py_min values = inr mn -> py_max values = inr mx ->
  mn <= avg /\ avg <= mx.
Proof.
  intros Ha Hn Hx.
  assert (values <> []) as Hne by (intros ->; discriminate Ha).
  destruct (py_min_spec values Hne) as (mn' & En & _ & Hmn).
  destruct (py_max_spec values Hne) as (mx' & Ex & _ & Hmx).
  rewrite Hn in En. rewrite Hx in Ex. injection En as <-. injection Ex as <-.
  now apply (mean_between values).
Qed.

Lemma update_baseline_well_formed (now : string) (st : state) (c m : string)
      (v : pyvalue) :
  (forall k b, baseline_metrics st !! k = Some b -> well_formed b) ->
  forall k b,
    baseline_metrics (update_baseline sqrt now st c m v) !! k = Some b ->
    well_formed b.
Proof.
  intros Inv k b.
  destruct (float_cases v) as [(q & -> & _)|(e & He)].
  - destruct (update_baseline_number sqrt now st c m q)
      as (_ & _ & _ & _ & Hlt & Hge).
    pose proof (appended_length sqrt (get_history st c m) q now) as Hlen.
    destruct (le_lt_dec 50 (length (Updates.appended (get_history st c m) q now)))
      as [G|L].
    + destruct (Hge G) as (b' & -> & Hc & Hm & _ & Hn & Hx).
      destruct (decide (baseline_key c m = k)) as [<-|N].
      * rewrite lookup_insert_eq. intros [= <-].
        split; [lia|]. apply (statistics_between _ _ _ _ Hm Hn Hx).
      * rewrite lookup_insert_ne by exact N. apply Inv.
    + rewrite (Hlt L). apply Inv.
  - rewrite (update_baseline_invalid _ _ _ _ _ e He). apply Inv.
Qed.

(** X13: every baseline the processor ever holds was computed from at
    least 50 and at most 1000 samples, and its average lies between its
    minimum and its maximum. *)
Theorem baselines_well_formed (l : list arrival) (key : string) (b : baseline) :
  baseline_metrics (process_arrivals sqrt init l) !! key = Some b ->
  well_formed b.
Proof.
  revert key b. induction l as [|a l IH] using rev_ind; intros key b.
  - cbn. rewrite lookup_empty. discriminate.
  - rewrite process_arrivals_snoc. unfold process_arrival.
    rewrite (proj2 (process_metric_learning _ _ _ _)).
    apply update_baseline_well_formed. exact IH.
Qed.

(** *** A signal that does not vary *)

Lemma fold_plus_constant (q : Q) (l : list Q) :
  (forall x, In x l -> x == q) ->
  fold_left Qplus l 0 == q * inject_Z (Z.of_nat (length l)).
Proof.
  intros H.
  assert (forall x, In x l -> q <= x) as Hge
    by (intros x Hx; rewrite (H x Hx); apply Qle_refl).
  assert (forall x, In x l -> x <= q) as Hle
    by (intros x Hx; rewrite (H x Hx); apply Qle_refl).
  pose proof (fold_plus_lower q l 0 Hge) as Hlo.
  pose proof (fold_plus_upper q l 0 Hle) as Hhi.
  apply Qle_antisym; lra.
Qed.

Lemma mean_constant (q : Q) (l : list Q) (avg : Q) :
  (forall x, In x l -> x == q) -> mean l = inr avg -> avg == q.
Proof.
  intros H Hm.
  assert (forall x, In x l -> q <= x) as Hge
    by (intros x Hx; rewrite (H x Hx); apply Qle_refl).
  assert (forall x, In x l -> x <= q) as Hle
    by (intros x Hx; rewrite (H x Hx); apply Qle_refl).
  destruct (mean_between l avg q q Hm Hge Hle). now apply Qle_antisym.
Qed.

(** The deviation of a list of equal values is the root of 0. *)
Lemma stdev_constant (q : Q) (l : list Q) :
  (forall x, In x l -> x == q) -> (2 <= length l)%nat ->
  stdev sqrt l = inr (sqrt 0).
Proof.
  intros H Hlen. unfold stdev.
  destruct (Nat.ltb_spec (length l) 2) as [L|_]; [lia|].
  destruct (mean_nonempty l) as [avg Hm]; [intros ->; cbn in Hlen; lia|].
  rewrite Hm. cbn [Exc.bind Exc.ret]. do 2 f_equal.
  pose proof (mean_constant q l avg H Hm) as Havg.
  assert (fold_left Qplus (map (fun x => (x - avg) * (x - avg)) l) 0
          == 0 * inject_Z (Z.of_nat (length (map (fun x => (x - avg) * (x - avg)) l))))
    as Hss.
  { apply fold_plus_constant. intros y Hy.
    apply in_map_iff in Hy as (x & <- & Hx). rewrite (H x Hx), Havg. ring. }
  change 0 with (Qred 0) at 2. apply Qred_complete.
  rewrite Hss. unfold Qdiv. ring.
Qed.


Lemma entries_of_samples (c m : string) (v : Q) (l : list arrival) :
  Forall (fun a => a_metric a = sample c m v) l ->
  entries_of c m l
  = map (fun a => HistoryEntry (Qred v) (isoformat (a_clock a))) l.
Proof.
  induction 1 as [|a l Ha _ IH]; [reflexivity|].
  unfold entries_of in *. cbn [flat_map map]. rewrite IH.
  unfold entry_of. rewrite Ha. unfold customer_of, type_of, sample.
  cbn [customer_id metric_type from_option id].
  now rewrite !String.eqb_refl.
Qed.

Lemma round_zero : round 0 3 = 0.
Proof. vm_compute. reflexivity. Qed.

Lemma normal_at_zero :
  (if Qltb 3 0 then ("critical", true)
   else if Qltb 2 0 then ("high", true)
   else if Qltb (15 # 10) 0 then ("medium", true)
   else ("normal", false)) = ("normal", false).
Proof. reflexivity. Qed.

(** The baseline of a pair all of whose samples had the same value. *)
Lemma constant_signal_baseline (c m : string) (v : Q) (l : list arrival) :
  (50 <= length l)%nat ->
  Forall (fun a => a_metric a = sample c m v) l ->
  exists b,
    baseline_metrics (process_arrivals sqrt init l) !! baseline_key c m = Some b /\
    b_avg b = Qred v /\ b_stddev b = sqrt 0 /\
    b_sample_count b = Nat.min (length l) 1000.
Proof.
  intros Hlen Hall.
  destruct l as [|a l _] using rev_ind; [cbn in Hlen; lia|].
  apply Forall_app in Hall as [Hl Ha]. apply Forall_inv in Ha.
  rewrite length_app in Hlen. cbn [length] in Hlen.
  rewrite process_arrivals_snoc. unfold process_arrival.
  rewrite (proj2 (process_metric_learning _ _ _ _)), Ha.
  set (st := process_arrivals sqrt init l).
  change (customer_of (sample c m v)) with c.
  change (type_of (sample c m v)) with m.
  change (get_value_or_0 (sample c m v)) with (VNum v).
  destruct (update_baseline_number sqrt (isoformat (a_clock a)) st c m v)
    as (_ & _ & _ & _ & _ & Hge).
  assert (get_history st c m
          = map (fun a => HistoryEntry (Qred v) (isoformat (a_clock a)))
                (last_n 1000 l)) as Hh.
  { unfold st. rewrite history_after_arrivals, (entries_of_samples c m v l Hl).
    unfold last_n. now rewrite length_map, <- skipn_map. }
  set (h := Updates.appended (get_history st c m) v (isoformat (a_clock a))) in *.
  assert (length h = Nat.min (length l + 1) 1000) as Hhl.
  { unfold h. rewrite (appended_length sqrt), Hh, length_map, last_n_length. lia. }
  assert (forall x, In x (map h_value h) -> x == Qred v) as Hvals.
  { intros x Hx. apply in_map_iff in Hx as (e & <- & He).
    assert (Forall (fun e => h_value e == Qred v) h) as Hall.
    { unfold h. rewrite appended_last_n, Hh. unfold last_n.
      apply Forall_drop, Forall_app. split.
      - apply List.Forall_forall. intros e' He'.
        apply in_map_iff in He' as (a' & <- & _). reflexivity.
      - apply List.Forall_cons; [reflexivity | apply List.Forall_nil]. }
    rewrite List.Forall_forall in Hall. now apply Hall. }
  destruct Hge as (b & Hb & Hc & Hm & Hs & _); [lia|].
  exists b. rewrite Hb, lookup_insert_eq. split; [reflexivity|].
  split; [|split].
  - destruct (mean_value _ _ Hm) as [_ Hv]. rewrite Hv.
    apply Qred_complete.
    rewrite <- (Qred_correct (fold_left Qplus _ 0 / _)), <- Hv.
    rewrite (mean_constant (Qred v) _ _ Hvals Hm). apply Qred_correct.
  - rewrite (stdev_constant (Qred v) (map h_value h) Hvals) in Hs
      by (rewrite length_map; lia).
    now injection Hs.
  - rewrite Hc, Hhl, length_app. reflexivity.
Qed.

(** X14: a signal that never varied is never flagged.  After 50 or more
    samples of one value the deviation kept in the baseline is the root
    of 0, the z-score of any later value is then taken to be 0, and the
    value is reported as normal however far it is from the baseline. *)
Theorem constant_signal_never_flags
        (c m : string) (v : Q) (l : list arrival) (x : Q) :
  sqrt 0 == 0 ->
  (50 <= length l)%nat ->
  Forall (fun a => a_metric a = sample c m v) l ->
  let r := detect_anomalies (process_arrivals sqrt init l) (sample c m x) c m in
  baseline_available r = Some true /\
  baseline_avg r = Some (Qred v) /\
  current_value r = Some (Qred x) /\
  z_score r = Some 0 /\
  severity r = "normal" /\
  is_anomaly r = false.
Proof.
  intros Hsqrt Hlen Hall. cbn zeta.
  destruct (constant_signal_baseline c m v l Hlen Hall) as (b & Hb & Ha & Hs & _).
  rewrite (detect_anomalies_scored _ (sample c m x) c m x b eq_refl Hb).
  cbn zeta. rewrite Hs, Ha.
  assert (Qltb 0 (sqrt 0) = false) as ->
    by (apply Qltb_ge; rewrite Hsqrt; apply Qle_refl).
  rewrite normal_at_zero.
  cbn [baseline_available baseline_avg current_value z_score severity
       is_anomaly fst snd].
  rewrite round_zero. repeat split.
Qed.

(** *** Severity and the distance from the average *)

Lemma Qltb_wd (a b a' b' : Q) : a == a' -> b == b' -> Qltb a b = Qltb a' b'.
Proof.
  intros Ha Hb.
  destruct (Qltb a b) eqn:E, (Qltb a' b') eqn:E'; try reflexivity.
  - apply Qltb_lt in E. apply Qltb_ge in E'. lra.
  - apply Qltb_ge in E. apply Qltb_lt in E'. lra.
Qed.

Lemma round_half_even_wd (x y : Q) :
  x == y -> round_half_even x = round_half_even y.
Proof.
  intros H. unfold round_half_even.
  rewrite (Qfloor_comp x y H).
  rewrite (Qltb_wd (x - inject_Z (Qfloor y)) (1 # 2)
                   (y - inject_Z (Qfloor y)) (1 # 2)) by lra.
  rewrite (Qltb_wd (1 # 2) (x - inject_Z (Qfloor y))
                   (1 # 2) (y - inject_Z (Qfloor y))) by lra.
  reflexivity.
Qed.

Lemma round_wd (x y : Q) (n : nat) : x == y -> round x n = round y n.
Proof.
  intros H. unfold round.
  rewrite (round_half_even_wd (x * inject_Z (10 ^ Z.of_nat n))
                              (y * inject_Z (10 ^ Z.of_nat n)))
    by (now rewrite H).
  reflexivity.
Qed.

(** The z-score [detect_anomalies] works with. *)
Lemma z_score_order (sd dx dy : Q) :
  dx <= dy ->
  (if Qltb 0 sd then dx / sd else 0) <= (if Qltb 0 sd then dy / sd else 0).
Proof.
  intros H. destruct (Qltb 0 sd) eqn:E; [|apply Qle_refl].
  apply Qltb_lt in E. unfold Qdiv.
  apply Qmult_le_compat_r; [exact H|].
  apply Qinv_le_0_compat. lra.
Qed.

Lemma verdict_order (zx zy : Q) :
  zx <= zy ->
  let verdict z :=
    if Qltb 3 z then ("critical", true)
    else if Qltb 2 z then ("high", true)
    else if Qltb (15 # 10) z then ("medium", true)
    else ("normal", false) in
  (rank (fst (verdict zx)) <= rank (fst (verdict zy)))%nat /\
  (snd (verdict zx) = true -> snd (verdict zy) = true).
Proof.
  intros H. cbv beta zeta.
  destruct (Qltb 3 zx) eqn:X3, (Qltb 2 zx) eqn:X2, (Qltb (15 # 10) zx) eqn:X1,
           (Qltb 3 zy) eqn:Y3, (Qltb 2 zy) eqn:Y2, (Qltb (15 # 10) zy) eqn:Y1;
    cbn [fst snd];
    repeat match goal with
           | E : Qltb _ _ = true |- _ => apply Qltb_lt in E
           | E : Qltb _ _ = false |- _ => apply Qltb_ge in E
           end;
    (split;
     [first [vm_compute; lia | exfalso; lra]
     | intros E; first [reflexivity | discriminate E | exfalso; lra]]).
Qed.

(** X15: against a given baseline the verdict depends on the distance
    of the value from the baseline average only, and grows with it: a
    value that is at least as far from the average gets at least the
    same severity, whichever side it lies on, and two values at the same
    distance (a drop and a spike) get the same severity and z-score. *)
Theorem severity_grows_with_distance
        (st : state) (c m : string) (b : baseline) (x y : Q) :
  baseline_metrics st !! baseline_key c m = Some b ->
  let rx := detect_anomalies st (sample c m x) c m in
  let ry := detect_anomalies st (sample c m y) c m in
  (Qabs (x - b_avg b) <= Qabs (y - b_avg b) ->
   (rank (severity rx) <= rank (severity ry))%nat /\
   (is_anomaly rx = true -> is_anomaly ry = true)) /\
  (Qabs (x - b_avg b) == Qabs (y - b_avg b) ->
   severity rx = severity ry /\ is_anomaly rx = is_anomaly ry /\
   z_score rx = z_score ry).
Proof.
  intros Hb. cbn zeta.
  rewrite (detect_anomalies_scored _ (sample c m x) c m x b eq_refl Hb).
  rewrite (detect_anomalies_scored _ (sample c m y) c m y b eq_refl Hb).
  cbn zeta. cbn [severity is_anomaly z_score].
  assert (Qabs (Qred x - b_avg b) == Qabs (x - b_avg b)) as Ex
    by (now rewrite Qred_correct).
  assert (Qabs (Qred y - b_avg b) == Qabs (y - b_avg b)) as Ey
    by (now rewrite Qred_correct).
  set (dx := Qabs (Qred x - b_avg b)) in *.
  set (dy := Qabs (Qred y - b_avg b)) in *.
  split.
  - intros H. apply verdict_order, z_score_order. lra.
  - intros H.
    assert ((if Qltb 0 (b_stddev b) then dx / b_stddev b else 0)
            == (if Qltb 0 (b_stddev b) then dy / b_stddev b else 0)) as Hz.
    { destruct (Qltb 0 (b_stddev b)); [|reflexivity].
      now rewrite Ex, Ey, H. }
    set (zx := if Qltb 0 (b_stddev b) then dx / b_stddev b else 0) in *.
    set (zy := if Qltb 0 (b_stddev b) then dy / b_stddev b else 0) in *.
    rewrite (Qltb_wd 3 zx 3 zy), (Qltb_wd 2 zx 2 zy),
            (Qltb_wd (15 # 10) zx (15 # 10) zy), (round_wd zx zy 3)
      by (exact Hz || reflexivity).
    auto.
Qed.

(** *** Bounds of the aggregates *)



End MetricsLoop.

Lemma invalid_value_is_stored_not_learned_witness :
  MetricsProcessor.baseline_metrics
    (MetricsProcessor.process_metric Samples.sqrt_6 Updates.noon true
       MetricsProcessor.init Samples.null_sample)
  = MetricsProcessor.baseline_metrics MetricsProcessor.init.
Proof.
  destruct (invalid_value_is_stored_not_learned
              Samples.sqrt_6 Updates.noon MetricsProcessor.init Samples.null_sample
              "float() argument must be a string or a real number, not 'NoneType'"
              ltac:(reflexivity)) as (_ & H & _).
  exact H.
Defined.

Lemma missing_value_is_learned_as_zero_witness :
  MetricsProcessor.get_history
    (MetricsProcessor.process_metric Samples.sqrt_6 Updates.noon true
       MetricsProcessor.init (Arrivals.without_value "acme" "latency_ms"))
    "acme" "latency_ms"
  = [MetricsProcessor.HistoryEntry 0 "2025-01-01T12:00:00+00:00"].
Proof.
  destruct (missing_value_is_learned_as_zero
              Samples.sqrt_6 Updates.noon MetricsProcessor.init
              (Arrivals.without_value "acme" "latency_ms")
              ltac:(reflexivity)) as (H & _).
  exact H.
Defined.

Lemma baselines_well_formed_witness :
  Arrivals.well_formed
    {| MetricsProcessor.b_avg := 10;
       MetricsProcessor.b_stddev := 0;
       MetricsProcessor.b_min := 10;
       MetricsProcessor.b_max := 10;
       MetricsProcessor.b_last_updated := "2025-01-01T12:00:00+00:00";
       MetricsProcessor.b_sample_count := 50 |}.
Proof.
  apply (baselines_well_formed
           Samples.sqrt_6
           (List.repeat (Arrivals.Arrival Updates.noon true (Samples.latency 10)) 50)
           (MetricsProcessor.baseline_key "acme" "latency_ms")).
  vm_compute. reflexivity.
Defined.

Lemma constant_signal_never_flags_witness :
  MetricsProcessor.is_anomaly
    (MetricsProcessor.detect_anomalies
       (Arrivals.process_arrivals Samples.sqrt_6 MetricsProcessor.init
          (List.repeat
             (Arrivals.Arrival Updates.noon true
                (Arrivals.sample "acme" "latency_ms" 10)) 50))
       (Arrivals.sample "acme" "latency_ms" 1000) "acme" "latency_ms")
  = false.
Proof.
  apply (constant_signal_never_flags
           Samples.sqrt_6 "acme" "latency_ms" 10
           (List.repeat
              (Arrivals.Arrival Updates.noon true
                 (Arrivals.sample "acme" "latency_ms" 10)) 50)
           1000).
  - vm_compute. reflexivity.
  - vm_compute. lia.
  - apply List.Forall_forall. intros a Ha.
    apply List.repeat_spec in Ha. subst a. reflexivity.
Defined.

Lemma severity_grows_with_distance_witness :
  MetricsProcessor.severity
    (MetricsProcessor.detect_anomalies
       (Updates.with_baseline "acme" "latency_ms" Updates.mean_100_stddev_10)
       (Arrivals.sample "acme" "latency_ms" 65) "acme" "latency_ms")
  = MetricsProcessor.severity
      (MetricsProcessor.detect_anomalies
         (Updates.with_baseline "acme" "latency_ms" Updates.mean_100_stddev_10)
         (Arrivals.sample "acme" "latency_ms" 135) "acme" "latency_ms").
Proof.
  destruct (severity_grows_with_distance
              Samples.sqrt_6
              (Updates.with_baseline "acme" "latency_ms" Updates.mean_100_stddev_10)
              "acme" "latency_ms" Updates.mean_100_stddev_10 65 135
              ltac:(vm_compute; reflexivity)) as [_ H].
  destruct (H ltac:(vm_compute; reflexivity)) as [E _]. exact E.
Defined.



(** ** The aggregation thread *)

Section AggregationThread.

Import MetricsProcessor Arrivals Aggregation.

Variable sqrt : Q -> Q.

(** *** Grouping *)

Lemma assoc_upsert {V : Type} (k k' : string) (f : V -> V) (d : V)
      (g : list (string * V)) :
  assoc k' (upsert k f d g)
  = if String.eqb k' k then Some (f (default d (assoc k g))) else assoc k' g.
Proof.
  induction g as [|[k0 v] r IH].
  - cbn [upsert assoc]. rewrite (String.eqb_sym k k').
    now destruct (String.eqb k' k).
  - cbn [upsert assoc].
    destruct (String.eqb_spec k0 k) as [E|N]; cbn [assoc].
    + subst k0. rewrite (String.eqb_sym k k').
      destruct (String.eqb k' k); reflexivity.
    + rewrite IH. destruct (String.eqb_spec k0 k') as [E'|N']; [|reflexivity].
      subst k0. destruct (String.eqb_spec k' k) as [E|_]; [congruence | reflexivity].
Qed.

Lemma assoc_in {V : Type} (k : string) (v : V) (g : list (string * V)) :
  assoc k g = Some v -> In (k, v) g.
Proof.
  induction g as [|[k0 v0] r IH]; [discriminate|].
  cbn [assoc]. destruct (String.eqb_spec k0 k) as [->|N].
  - intros [= ->]. now left.
  - intros H. right. now apply IH.
Qed.

Lemma in_assoc {V : Type} (k : string) (v : V) (g : list (string * V)) :
  NoDup (map fst g) -> In (k, v) g -> assoc k g = Some v.
Proof.
  induction g as [|[k0 v0] r IH]; [intros _ []|].
  cbn [map fst]. intros Hnd Hin. apply NoDup_cons in Hnd as [Hk0 Hr].
  cbn [assoc]. destruct Hin as [[= -> ->]|Hin].
  - now rewrite String.eqb_refl.
  - destruct (String.eqb_spec k0 k) as [->|N]; [|now apply IH].
    exfalso. apply Hk0. apply list_elem_of_In.
    apply (in_map fst _ _ Hin).
Qed.

Lemma upsert_keys {V : Type} (k : string) (f : V -> V) (d : V)
      (g : list (string * V)) :
  NoDup (map fst g) -> NoDup (map fst (upsert k f d g)).
Proof.
  induction g as [|[k0 v] r IH]; cbn [upsert map fst].
  - intros _. apply NoDup_singleton.
  - intros Hnd. apply NoDup_cons in Hnd as [Hk0 Hr].
    destruct (String.eqb_spec k0 k) as [->|N]; cbn [map fst].
    + now apply NoDup_cons.
    + apply NoDup_cons. split; [|now apply IH].
      intros Hin. apply list_elem_of_In, in_map_iff in Hin as ([k1 v1] & E & Hin).
      cbn [fst] in E. subst k1.
      apply Hk0, list_elem_of_In.
      destruct (String.eqb_spec k0 k) as [->|_]; [congruence|].
      assert (assoc k0 (upsert k f d r) = assoc k0 r) as Ha.
      { rewrite assoc_upsert. destruct (String.eqb_spec k0 k); congruence. }
      clear -Hin Ha N.
      induction r as [|[k2 v2] r IH]; cbn [upsert] in Hin.
      * destruct Hin as [[= <- _]|[]]. congruence.
      * destruct (String.eqb_spec k2 k) as [->|N2].
        -- destruct Hin as [[= <- _]|Hin]; [congruence|].
           right. apply (in_map fst _ _ Hin).
        -- destruct Hin as [[= <- _]|Hin]; [now left|].
           right. apply IH; [exact Hin|].
           rewrite assoc_upsert. destruct (String.eqb_spec k0 k); congruence.
Qed.

Lemma upsert_forall {V : Type} (P : V -> Prop) (k : string) (f : V -> V) (d : V)
      (g : list (string * V)) :
  (forall v, P v -> P (f v)) -> P (f d) ->
  Forall (fun e => P (snd e)) g ->
  Forall (fun e => P (snd e)) (upsert k f d g).
Proof.
  intros Hf Hd. induction 1 as [|[k0 v] r Hv Hr IH]; cbn [upsert].
  - apply List.Forall_cons; [exact Hd | apply List.Forall_nil].
  - destruct (String.eqb k0 k).
    + apply List.Forall_cons; [now apply Hf | exact Hr].
    + apply List.Forall_cons; [exact Hv | exact IH].
Qed.

Lemma group_window_snoc (data : list (metric * string)) (wm : metric * string) :
  group_window (data ++ [wm]) = add_metric (group_window data) wm.
Proof. unfold group_window. now rewrite fold_left_app. Qed.

Lemma members_add_metric
      (groups : list (string * list (string * list (metric * string))))
      (wm : metric * string) (c t : string) :
  members c t (add_metric groups wm)
  = (members c t groups ++ (if of_pair c t wm then [wm] else []))%list.
Proof.
  unfold members, add_metric, of_pair. rewrite assoc_upsert.
  rewrite (String.eqb_sym (customer_of (fst wm)) c).
  destruct (String.eqb_spec c (customer_of (fst wm))) as [E|N]; cbn [andb].
  - subst c. cbn [from_option id]. rewrite assoc_upsert.
    rewrite (String.eqb_sym (type_of (fst wm)) t).
    destruct (String.eqb_spec t (type_of (fst wm))) as [E|N].
    + subst t. reflexivity.
    + now rewrite app_nil_r.
  - now rewrite app_nil_r.
Qed.

(** The group of a pair holds the messages of the pair, in the order of
    the window. *)
Lemma members_group_window (data : list (metric * string)) (c t : string) :
  members c t (group_window data) = List.filter (of_pair c t) data.
Proof.
  induction data as [|wm data IH] using rev_ind; [reflexivity|].
  rewrite group_window_snoc, members_add_metric, IH, List.filter_app.
  cbn [List.filter]. reflexivity.
Qed.

Lemma well_grouped_add_metric
      (groups : list (string * list (string * list (metric * string))))
      (wm : metric * string) :
  well_grouped groups -> well_grouped (add_metric groups wm).
Proof.
  intros [Hk Hg]. unfold add_metric. split; [now apply upsert_keys|].
  apply (upsert_forall
           (fun types => NoDup (map fst types) /\
                         Forall (fun g => snd g <> []) types)).
  - intros types [Hn Hne]. split; [now apply upsert_keys|].
    apply (upsert_forall (fun ms => ms <> [])); [| |exact Hne].
    + intros ms _ E. now destruct ms.
    + discriminate.
  - split; [apply NoDup_singleton|].
    apply List.Forall_cons; [discriminate | apply List.Forall_nil].
  - exact Hg.
Qed.

Lemma well_grouped_group_window (data : list (metric * string)) :
  well_grouped (group_window data).
Proof.
  induction data as [|wm data IH] using rev_ind.
  - split; [apply NoDup_nil_2 | apply List.Forall_nil].
  - rewrite group_window_snoc. now apply well_grouped_add_metric.
Qed.

(** The groups of a window, as the loops meet them. *)
Lemma group_window_in (data : list (metric * string)) (c t : string)
      (types : list (string * list (metric * string)))
      (ms : list (metric * string)) :
  In (c, types) (group_window data) -> In (t, ms) types ->
  ms = List.filter (of_pair c t) data /\ ms <> [].
Proof.
  intros Hc Ht.
  destruct (well_grouped_group_window data) as [Hk Hg].
  rewrite List.Forall_forall in Hg. destruct (Hg _ Hc) as [Hn Hne].
  cbn [snd] in Hn, Hne. rewrite List.Forall_forall in Hne.
  split; [|exact (Hne _ Ht)].
  rewrite <- members_group_window. unfold members.
  rewrite (in_assoc c types _ Hk Hc). cbn [from_option id].
  now rewrite (in_assoc t ms _ Hn Ht).
Qed.

Lemma group_window_complete (data : list (metric * string)) (c t : string) :
  List.filter (of_pair c t) data <> [] ->
  exists types,
    In (c, types) (group_window data) /\
    In (t, List.filter (of_pair c t) data) types.
Proof.
  rewrite <- members_group_window. unfold members. intros H.
  destruct (assoc c (group_window data)) as [types|] eqn:Ec;
    [|now cbn in H].
  cbn [from_option id] in H.
  destruct (assoc t types) as [ms|] eqn:Et; [|now cbn in H].
  cbn [from_option id]. rewrite Et. cbn [from_option id]. exists types.
  split; now apply assoc_in.
Qed.

(** *** One pass *)

Lemma stored_app (env : nat -> Z * bool) (n : nat)
      (a b : list aggregated_metric) :
  stored env n (a ++ b) = (stored env n a ++ stored env (n + length a) b)%list.
Proof.
  revert n. induction a as [|x a IH]; intros n.
  - cbn [app stored length]. now rewrite Nat.add_0_r.
  - cbn [app stored length]. rewrite IH.
    replace (S n + length a)%nat with (n + S (length a))%nat by lia.
    now destruct (snd (env n)).
Qed.

Lemma stored_length (env : nat -> Z * bool) (n : nat)
      (ams : list aggregated_metric) :
  (length (stored env n ams) <= length ams)%nat.
Proof.
  revert n. induction ams as [|x a IH]; intros n; cbn [stored length]; [lia|].
  specialize (IH (S n)). destruct (snd (env n)); cbn [length]; lia.
Qed.

(** A stretch of the pass that attempts the aggregates [ams]. *)
Lemma pass_nothing (env : nat -> Z * bool) (s : agg_state) :
  aggregation_count s = (aggregation_count s + length (@nil aggregated_metric))%nat /\
  map snd (s3_silver s)
  = (map snd (s3_silver s) ++ stored env (aggregation_count s) [])%list.
Proof. cbn [length stored]. rewrite app_nil_r. split; [lia | reflexivity]. Qed.

Lemma pass_fold {A : Type} (env : nat -> Z * bool)
      (step : agg_state -> A -> agg_state) (out : A -> list aggregated_metric)
      (l : list A) :
  (forall s x,
      aggregation_count (step s x)
      = (aggregation_count s + length (out x))%nat /\
      map snd (s3_silver (step s x))
      = (map snd (s3_silver s) ++ stored env (aggregation_count s) (out x))%list) ->
  forall s,
    aggregation_count (fold_left step l s)
    = (aggregation_count s + length (flat_map out l))%nat /\
    map snd (s3_silver (fold_left step l s))
    = (map snd (s3_silver s)
       ++ stored env (aggregation_count s) (flat_map out l))%list.
Proof.
  intros Hstep. induction l as [|x l IH]; intros s.
  - apply pass_nothing.
  - cbn [fold_left flat_map]. destruct (IH (step s x)) as [Hc Hs].
    destruct (Hstep s x) as [Hc' Hs'].
    rewrite Hc, Hs, Hc', Hs', length_app, stored_app, <- app_assoc.
    split; [lia | reflexivity].
Qed.

Lemma aggregate_group_pass (env : nat -> Z * bool) (clk : pass_clock)
      (window_name customer_id : string) (s : agg_state)
      (group : string * list (metric * string)) :
  let out := match aggregate sqrt clk window_name customer_id group with
             | Some am => [am]
             | None => []
             end in
  aggregation_count (aggregate_group sqrt env clk window_name customer_id s group)
  = (aggregation_count s + length out)%nat /\
  map snd (s3_silver (aggregate_group sqrt env clk window_name customer_id s group))
  = (map snd (s3_silver s) ++ stored env (aggregation_count s) out)%list.
Proof.
  cbn zeta. unfold aggregate_group.
  destruct (aggregate sqrt clk window_name customer_id group) as [am|];
    [|apply pass_nothing].
  cbn zeta. unfold store_aggregation_s3_silver. cbn [stored length].
  destruct (snd (env (aggregation_count s)));
    cbn [aggregation_count s3_silver].
  - rewrite map_app. split; [lia | reflexivity].
  - rewrite app_nil_r. split; [lia | reflexivity].
Qed.

Lemma generate_aggregations_pass (env : nat -> Z * bool) (clk : pass_clock)
      (windows : list (string * deque (metric * string))) (s : agg_state) :
  let s' := generate_aggregations sqrt env clk windows s in
  let ams := pass_aggregates sqrt clk windows in
  aggregation_count s' = (aggregation_count s + length ams)%nat /\
  map snd (s3_silver s')
  = (map snd (s3_silver s) ++ stored env (aggregation_count s) ams)%list.
Proof.
  cbn zeta. unfold generate_aggregations, pass_aggregates.
  apply (pass_fold env _ (window_aggregates sqrt clk)).
  intros s0 w. unfold window_aggregates. cbn zeta.
  destruct (length (items _ (snd w)) <? 10)%nat; [apply pass_nothing|].
  apply (pass_fold env
           (fun s cg =>
              fold_left (aggregate_group sqrt env clk (fst w) (fst cg)) (snd cg) s)
           (fun cg =>
              flat_map (fun g => match aggregate sqrt clk (fst w) (fst cg) g with
                                 | Some am => [am]
                                 | None => []
                                 end) (snd cg))).
  intros s1 cg.
  apply (pass_fold env (aggregate_group sqrt env clk (fst w) (fst cg))
           (fun g => match aggregate sqrt clk (fst w) (fst cg) g with
                     | Some am => [am]
                     | None => []
                     end)).
  intros s2 g. apply aggregate_group_pass.
Qed.

(** X17: a pass of the aggregation thread attempts the aggregates of
    the windows in order; [aggregation_count] grows by the number of
    aggregates generated, whether or not their write succeeded, and the
    silver bucket receives, in the same order, those whose write
    succeeded. *)
Theorem pass_counts_every_aggregate
        (env : nat -> Z * bool) (clk : pass_clock)
        (windows : list (string * deque (metric * string))) (s : agg_state) :
  let s' := generate_aggregations sqrt env clk windows s in
  let ams := pass_aggregates sqrt clk windows in
  aggregation_count s' = (aggregation_count s + length ams)%nat /\
  map snd (s3_silver s')
  = (map snd (s3_silver s) ++ stored env (aggregation_count s) ams)%list /\
  (length (s3_silver s') - length (s3_silver s)
   <= aggregation_count s' - aggregation_count s)%nat.
Proof.
  cbn zeta.
  destruct (generate_aggregations_pass env clk windows s) as [Hc Hs].
  split; [exact Hc|]. split; [exact Hs|].
  pose proof (f_equal (@length _) Hs) as Hl.
  rewrite length_app, !length_map in Hl.
  pose proof (stored_length env (aggregation_count s)
                (pass_aggregates sqrt clk windows)).
  lia.
Qed.

(** *** The aggregates of a window *)

Lemma calculate_aggregations_count (metrics : list metric) (a : aggregations) :
  calculate_aggregations sqrt metrics = Some a ->
  agg_count a = length (List.filter Samples.has_value metrics) /\
  (1 <= agg_count a <= length metrics)%nat.
Proof.
  intros H.
  destruct (collect_values metrics) as [e|values] eqn:Hc.
  - rewrite (calculate_aggregations_raises sqrt metrics e Hc) in H. discriminate H.
  - destruct values as [|v r].
    + rewrite (calculate_aggregations_no_values sqrt metrics Hc) in H.
      discriminate H.
    + assert (v :: r <> []) as Hne by discriminate.
      destruct (calculate_aggregations_values sqrt metrics (v :: r) Hc Hne)
        as (a' & Ha & Hn & _).
      rewrite Ha in H. injection H as <-.
      pose proof (collect_values_length metrics (v :: r) Hc) as Hlen.
      pose proof (List.filter_length_le Samples.has_value metrics) as Hle.
      rewrite Hn. cbn [length] in *. split; [exact Hlen | lia].
Qed.

Lemma filter_map_fst_length (l : list (metric * string)) :
  length (List.filter Samples.has_value (map fst l))
  = length (List.filter (fun wm => Samples.has_value (fst wm)) l).
Proof.
  induction l as [|x l IH]; [reflexivity|].
  cbn [map List.filter]. destruct (Samples.has_value (fst x)); cbn [length];
    now rewrite IH.
Qed.

(** X18: the aggregates of a window.  A window of fewer than 10 entries
    gives none.  Otherwise there is one for a pair (customer, metric
    type) exactly when [calculate_aggregations] returns statistics for
    the entries of the pair in the window; it carries these statistics,
    and its [sample_count] is the number of those entries, null values
    included, which the count inside the statistics leaves out. *)
Theorem window_aggregates_by_pair
        (clk : pass_clock) (w : string * deque (metric * string))
        (am : aggregated_metric) :
  let data := items _ (snd w) in
  let group := List.filter (of_pair (am_customer_id am) (am_metric_type am)) data in
  (In am (window_aggregates sqrt clk w) <->
   (10 <= length data)%nat /\
   exists a,
     calculate_aggregations sqrt (map fst group) = Some a /\
     am = {| am_window := fst w;
             am_customer_id := am_customer_id am;
             am_metric_type := am_metric_type am;
             am_aggregation_timestamp := pc_isoformat clk;
             am_sample_count := length group;
             am_window_start := pc_window_start clk (fst w);
             am_window_end := pc_isoformat clk;
             am_aggregations := a;
             am_partition_date := pc_partition_date clk;
             am_partition_hour := pc_partition_hour clk |}) /\
  (In am (window_aggregates sqrt clk w) ->
   (1 <= agg_count (am_aggregations am) <= am_sample_count am)%nat /\
   (am_sample_count am <= length data)%nat /\
   agg_count (am_aggregations am)
   = length (List.filter (fun wm => Samples.has_value (fst wm)) group)).
Proof.
  cbn zeta.
  assert (In am (window_aggregates sqrt clk w) <->
          (10 <= length (items _ (snd w)))%nat /\
          exists a,
            calculate_aggregations sqrt
              (map fst (List.filter (of_pair (am_customer_id am) (am_metric_type am))
                                    (items _ (snd w)))) = Some a /\
            am = {| am_window := fst w;
                    am_customer_id := am_customer_id am;
                    am_metric_type := am_metric_type am;
                    am_aggregation_timestamp := pc_isoformat clk;
                    am_sample_count :=
                      length (List.filter (of_pair (am_customer_id am)
                                                   (am_metric_type am))
                                          (items _ (snd w)));
                    am_window_start := pc_window_start clk (fst w);
                    am_window_end := pc_isoformat clk;
                    am_aggregations := a;
                    am_partition_date := pc_partition_date clk;
                    am_partition_hour := pc_partition_hour clk |}) as Hiff.
  { unfold window_aggregates.
    destruct (Nat.ltb_spec (length (items _ (snd w))) 10) as [L|G].
    - split; [intros [] | intros [H _]; lia].
    - split.
      + intros H. split; [exact G|].
        apply in_flat_map in H as ([c types] & Hc & H).
        apply in_flat_map in H as ([t ms] & Ht & H).
        cbn [fst snd] in *. unfold aggregate in H. cbn [fst snd] in H.
        destruct (group_window_in _ c t types ms Hc Ht) as [Ems _].
        destruct (calculate_aggregations sqrt (map fst ms)) as [a|] eqn:Ea;
          [|destruct H].
        destruct H as [<-|[]]. cbn [am_customer_id am_metric_type].
        exists a. rewrite <- Ems. split; [exact Ea | reflexivity].
      + intros (_ & a & Ha & Eam).
        set (c := am_customer_id am) in *. set (t := am_metric_type am) in *.
        assert (List.filter (of_pair c t) (items _ (snd w)) <> []) as Hne.
        { intros E. rewrite E in Ha. discriminate Ha. }
        destruct (group_window_complete _ c t Hne) as (types & Hc & Ht).
        apply in_flat_map. exists (c, types). split; [exact Hc|].
        apply in_flat_map. exists (t, List.filter (of_pair c t) (items _ (snd w))).
        split; [exact Ht|]. unfold aggregate. cbn [fst snd].
        rewrite Ha. left. symmetry. exact Eam. }
  split; [exact Hiff|].
  intros H. apply Hiff in H as (_ & a & Ha & Eam).
  destruct (calculate_aggregations_count _ a Ha) as [Hn Hb].
  rewrite length_map in Hb.
  assert (am_aggregations am = a) as -> by (rewrite Eam; reflexivity).
  assert (am_sample_count am
          = length (List.filter (of_pair (am_customer_id am) (am_metric_type am))
                                (items _ (snd w)))) as ->
    by (rewrite Eam at 1; reflexivity).
  split; [exact Hb|]. split; [apply List.filter_length_le|].
  rewrite Hn. apply filter_map_fst_length.
Qed.

(** *** The windows of the processor *)

Lemma last_n_all {A : Type} (k : nat) (l : list A) :
  (length l <= k)%nat -> last_n k l = l.
Proof.
  intros H. unfold last_n. now replace (length l - k)%nat with 0%nat by lia.
Qed.

Lemma map_flat_map_ext {A B C : Type} (h : B -> C) (f g : A -> list B)
      (l : list A) :
  (forall x, map h (f x) = map h (g x)) ->
  map h (flat_map f l) = map h (flat_map g l).
Proof.
  intros H. induction l as [|x l IH]; [reflexivity|].
  cbn [flat_map]. now rewrite !map_app, H, IH.
Qed.

(** The name and the capacity of a window do not enter its statistics. *)
Lemma window_aggregates_core (clk : pass_clock) (name1 name2 : string)
      (cap1 cap2 : nat) (data : list (metric * string)) :
  map core (window_aggregates sqrt clk (name1, Deque _ cap1 data))
  = map core (window_aggregates sqrt clk (name2, Deque _ cap2 data)).
Proof.
  unfold window_aggregates. cbn [fst snd items].
  destruct (length data <? 10)%nat; [reflexivity|].
  apply map_flat_map_ext. intros cg.
  apply map_flat_map_ext. intros g.
  unfold aggregate.
  now destruct (calculate_aggregations sqrt (map fst (snd g))).
Qed.

(** X19: the windows are filled by the message, so the thread and the
    processor meet as follows.  Before ten messages have been processed
    a pass changes nothing.  From the tenth to the sixtieth message the
    three windows hold the same entries, and a pass generates every
    aggregate three times, once under each window name. *)
Theorem early_passes_repeat_one_window
        (env : nat -> Z * bool) (clk : pass_clock) (l : list arrival)
        (s : agg_state) :
  let windows := metrics_windows (process_arrivals sqrt init l) in
  let one :=
    map core (window_aggregates sqrt clk ("1min", Deque _ 60 (map windowed l))) in
  ((length l < 10)%nat -> generate_aggregations sqrt env clk windows s = s) /\
  ((length l <= 60)%nat ->
   map core (pass_aggregates sqrt clk windows) = (one ++ one ++ one)%list /\
   aggregation_count (generate_aggregations sqrt env clk windows s)
   = (aggregation_count s + 3 * length one)%nat).
Proof.
  cbn zeta. rewrite windows_after_arrivals. split.
  - intros H. unfold generate_aggregations. cbn [fold_left fst snd items].
    rewrite !last_n_length, !length_map.
    destruct (Nat.ltb_spec (Nat.min (length l) 60) 10); [|lia].
    destruct (Nat.ltb_spec (Nat.min (length l) 300) 10); [|lia].
    destruct (Nat.ltb_spec (Nat.min (length l) 900) 10); [|lia].
    reflexivity.
  - intros H.
    rewrite !last_n_all by (rewrite length_map; lia).
    assert (map core
              (pass_aggregates sqrt clk
                 [("1min", Deque _ 60 (map windowed l));
                  ("5min", Deque _ 300 (map windowed l));
                  ("15min", Deque _ 900 (map windowed l))])
            = (map core (window_aggregates sqrt clk
                           ("1min", Deque _ 60 (map windowed l)))
               ++ map core (window_aggregates sqrt clk
                              ("1min", Deque _ 60 (map windowed l)))
               ++ map core (window_aggregates sqrt clk
                              ("1min", Deque _ 60 (map windowed l))))%list)
      as Hcore.
    { unfold pass_aggregates. cbn [flat_map]. rewrite app_nil_r, !map_app.
      now rewrite (window_aggregates_core clk "5min" "1min" 300 60),
                  (window_aggregates_core clk "15min" "1min" 900 60). }
    split; [exact Hcore|].
    destruct (generate_aggregations_pass env clk
                [("1min", Deque _ 60 (map windowed l));
                 ("5min", Deque _ 300 (map windowed l));
                 ("15min", Deque _ 900 (map windowed l))] s) as [Hc _].
    rewrite Hc. pose proof (f_equal (@length _) Hcore) as Hl.
    rewrite !length_app, !length_map in Hl. rewrite length_map. lia.
Qed.

End AggregationThread.

(** ** The alert generator's handler *)

Section AlertHandler.

Import AlertGenerator AlertDispatch.

Ltac handler_branch calls :=
  cbn [fst snd map app statusCode response_alert_id response_actions
       AlertGenerator.alert_id AlertGenerator.actions_taken
       AlertDispatch.alert_id AlertDispatch.actions_taken];
  split; [reflexivity|];
  split;
  [exists calls; split; [reflexivity|]; split; [reflexivity|];
   split; [cbn [length]; lia | reflexivity]
  |split; reflexivity].

(** X20: what the handler does for an alert of any type.  It makes the
    channel calls of the type, then writes one record whose actions are
    the answers to these calls, then sends one CloudWatch metric, and
    answers 200 with the id and the actions of the record.  An incident
    ticket is created for a security threat of critical grade only, and
    auto-scaling is triggered for a performance anomaly of critical grade
    only.  The CloudWatch metric takes its severity from the key
    'severity' whatever the type of the alert. *)
Theorem lambda_handler_outcome
        (now_iso : string) (epoch_s : Z) (sink : channel_call -> string)
        (event : lambda_event) :
  let type := default "unknown" (alert_type event) in
  let effects := fst (lambda_handler now_iso epoch_s sink event) in
  let resp := snd (lambda_handler now_iso epoch_s sink event) in
  statusCode resp = 200%Z /\
  (exists calls,
      effects = (calls ++
                 [store_alert_record (response_alert_id resp) (response_actions resp);
                  send_cloudwatch_metric
                    type
                    (default "low" (severity (security event)))
                    (default "unknown" (customer_id (security event)))])%list /\
      response_actions resp = map (answer sink) calls /\
      (length calls <= 3)%nat /\
      forallb (fun e => negb (is_record e)) calls = true) /\
  existsb is_ticket effects
  = String.eqb type "security_threat"
    && (String.eqb (default "low" (severity (security event))) "critical"
        || (80 <? default 0%Z (risk_score (security event)))%Z) /\
  existsb is_scaling effects
  = String.eqb type "performance_anomaly"
    && (String.eqb (default "low" (anomaly_severity event)) "critical"
        || MetricsProcessor.Qltb 3 (default 0%Q (z_score event))).
Proof.
  cbn zeta. unfold lambda_handler.
  remember (default "unknown" (alert_type event)) as type eqn:Et. clear Et.
  set (cust := default "unknown" (customer_id (security event))).
  destruct (String.eqb_spec type "security_threat") as [E1|N1].
  { subst type. unfold security_alert, process_security_alert. cbn zeta.
    fold cust.
    destruct (String.eqb (default "low" (severity (security event))) "critical"
              || (80 <? default 0%Z (risk_score (security event)))%Z);
      [|destruct (String.eqb (default "low" (severity (security event))) "high"
                  || (60 <? default 0%Z (risk_score (security event)))%Z)].
    - handler_branch [notify (send_sns_notification "CRITICAL");
                      notify (send_email_notification cust "CRITICAL");
                      notify create_incident_ticket].
    - handler_branch [notify (send_sns_notification "HIGH");
                      notify (send_email_notification cust "HIGH")].
    - handler_branch [notify (send_sns_notification "MEDIUM")]. }
  destruct (String.eqb_spec type "performance_anomaly") as [E2|N2].
  { subst type. unfold process_performance_alert. cbn zeta. fold cust.
    destruct (String.eqb (default "low" (anomaly_severity event)) "critical"
              || MetricsProcessor.Qltb 3 (default 0%Q (z_score event)));
      [|destruct (String.eqb (default "low" (anomaly_severity event)) "high"
                  || MetricsProcessor.Qltb 2 (default 0%Q (z_score event)))].
    - handler_branch [notify (send_sns_notification "PERFORMANCE_CRITICAL");
                      notify (send_email_notification cust "PERFORMANCE");
                      trigger_auto_scaling cust
                        (default "unknown" (metric_type event))].
    - handler_branch [notify (send_sns_notification "PERFORMANCE_HIGH");
                      notify (send_email_notification cust "PERFORMANCE")].
    - handler_branch (@nil effect). }
  cbn [andb].
  destruct (String.eqb type "customer_notification").
  { unfold process_customer_notification. cbn zeta. fold cust.
    destruct (String.eqb (default "general" (notification_type event))
                         "onboarding_complete");
      [|destruct (String.eqb (default "general" (notification_type event))
                             "sla_breach")].
    - handler_branch [send_welcome_email cust].
    - handler_branch [send_sla_notification cust; create_sla_ticket].
    - handler_branch [send_generic_notification cust
                        (default "Customer notification" (message event))]. }
  unfold process_generic_alert. cbn zeta.
  handler_branch [notify (send_sns_notification "GENERIC")].
Qed.

End AlertHandler.
